(** * frida-manage: release decision, version tags and build orchestration

    A shallow embedding of [util.py], [build.py] and [main.py].

    Conventions of the embedding.
    - A Python [str] is a [string]; the model is exact on ASCII text
      (line breaks, white space, digits and letters outside ASCII are
      not recognised as such).
    - A Python [int] is a [Z]; [int(s)] has no limit on the number of
      digits (the 4300 digits of the interpreter are a setting of it).
    - A call that may raise returns an [outcome]; the unbounded [while]
      loop of [get_next_revision] takes a number of iterations it may
      run, and [Diverge] says it used them all.
    - The world outside the process (git, HTTP, the file system, the
      environment variables) is an [Env] of oracles; what the process
      does to the world is the list of [effect]s it performs, in order. *)

From Stdlib Require Import String Ascii List ZArith Lia Bool Arith.
From Stdlib Require Import Permutation Sorted.
From Stdlib Require Import DecimalString DecimalFacts DecimalZ DecimalPos DecimalN.
Import ListNotations.

Set Warnings "-abstract-large-number".

Local Open Scope list_scope.
Local Open Scope string_scope.

(** ** Exceptions and outcomes *)

Inductive exn : Type :=
| ValueError            (* int() of a non-numeric string *)
| OSError               (* a system call failed: spawn, open, mkdir, ... *)
| UnicodeDecodeError    (* bytes.decode() *)
| ConnectionError       (* requests.get could not reach the server *)
| HTTPError             (* Response.raise_for_status() *)
| JSONDecodeError       (* Response.json() *)
| KeyError              (* missing key of a dict *)
| LZMAError.            (* lzma: corrupt input *)

Inductive outcome (A : Type) : Type :=
| Return (a : A)
| Raise (e : exn)
| Diverge.

Arguments Return {A} a.
Arguments Raise {A} e.
Arguments Diverge {A}.

Definition obind {A B : Type} (m : outcome A) (k : A -> outcome B) : outcome B :=
  match m with
  | Return a => k a
  | Raise e => Raise e
  | Diverge => Diverge
  end.

Declare Scope outcome_scope.
Delimit Scope outcome_scope with outcome.
Notation "'let?' x ':=' m 'in' k" := (obind m (fun x => k))
  (at level 10, x name, m at level 100, k at level 200)
  : outcome_scope.
Local Open Scope outcome_scope.

Fixpoint omap {A B : Type} (f : A -> outcome B) (l : list A) : outcome (list B) :=
  match l with
  | [] => Return []
  | x :: l' =>
      let? y := f x in
      let? ys := omap f l' in
      Return (y :: ys)
  end.

(** ** The Python primitives the three files use *)

Module Py.

Definition is_digit (c : ascii) : bool :=
  let n := nat_of_ascii c in (48 <=? n)%nat && (n <=? 57)%nat.

Definition digit_value (c : ascii) : Z := Z.of_nat (nat_of_ascii c) - 48.

(** The white space [int] skips at both ends of an ASCII string:
    TAB, LF, VT, FF, CR and the space.  The separators FS, GS, RS and
    US, which [str.strip] takes off, are no white space for [int]. *)
Definition is_space (c : ascii) : bool :=
  let n := nat_of_ascii c in
  ((9 <=? n)%nat && (n <=? 13)%nat) || (n =? 32)%nat.

Fixpoint lstrip (s : string) : string :=
  match s with
  | String c s' => if is_space c then lstrip s' else s
  | EmptyString => EmptyString
  end.

Fixpoint rstrip (s : string) : string :=
  match s with
  | String c s' =>
      match rstrip s' with
      | EmptyString => if is_space c then EmptyString else String c EmptyString
      | r => String c r
      end
  | EmptyString => EmptyString
  end.

Definition strip (s : string) : string := rstrip (lstrip s).

(** The digits of a decimal literal: [digit (["_"] digit)*].
    [seen] says that the previous character was a digit. *)
Fixpoint int_digits (s : string) (acc : Z) (seen : bool) : option Z :=
  match s with
  | EmptyString => if seen then Some acc else None
  | String c s' =>
      if is_digit c then int_digits s' (10 * acc + digit_value c) true
      else if Ascii.eqb c "_" && seen then int_digits s' acc false
      else None
  end.

(** [int(s)] in base 10. *)
Definition int (s : string) : outcome Z :=
  let parsed :=
    match strip s with
    | String c r =>
        if Ascii.eqb c "+" then int_digits r 0 false
        else if Ascii.eqb c "-" then option_map Z.opp (int_digits r 0 false)
        else int_digits (String c r) 0 false
    | EmptyString => None
    end in
  match parsed with
  | Some z => Return z
  | None => Raise ValueError
  end.

(** [str(z)], also what an f-string prints for [{z}]. *)
Definition str (z : Z) : string := NilZero.string_of_int (Z.to_int z).

(** [f"{z:02d}"]: zero fill up to a width of 2, the sign counted in. *)
Definition format_02d (z : Z) : string :=
  let s := str z in
  if (String.length s <? 2)%nat then "0" ++ s else s.

(** [s.split(sep)] for a one character [sep], generalised to any set of
    separator characters, which is also [re.split] for a pattern that
    is one character class: every separator cuts, empty pieces are
    kept, the result has at least one piece. *)
Fixpoint split_where (sep : ascii -> bool) (s : string) : list string :=
  match s with
  | EmptyString => [EmptyString]
  | String c s' =>
      if sep c then EmptyString :: split_where sep s'
      else match split_where sep s' with
           | piece :: rest => String c piece :: rest
           | [] => [String c EmptyString]
           end
  end.

(** [s.split(sep, maxsplit)] for a one character [sep]. *)
Fixpoint str_split (sep : ascii) (maxsplit : nat) (s : string) {struct s}
  : list string :=
  match maxsplit, s with
  | O, _ => [s]
  | S _, EmptyString => [EmptyString]
  | S m, String c s' =>
      if Ascii.eqb c sep then EmptyString :: str_split sep m s'
      else match str_split sep maxsplit s' with
           | piece :: rest => String c piece :: rest
           | [] => [String c EmptyString]
           end
  end.

(** The character classes [[\.-]] and [[-.]]. *)
Definition dot_or_dash (c : ascii) : bool :=
  Ascii.eqb c "." || Ascii.eqb c "-".

Definition re_split_dot_dash (s : string) : list string :=
  split_where dot_or_dash s.

(** Line boundaries of [str.splitlines], ASCII part:
    LF, VT, FF, CR, FS, GS, RS; CR LF counts once. *)
Definition is_linebreak (c : ascii) : bool :=
  let n := nat_of_ascii c in
  ((10 <=? n)%nat && (n <=? 13)%nat) || ((28 <=? n)%nat && (n <=? 30)%nat).

Definition CR : ascii := ascii_of_nat 13.
Definition LF : ascii := ascii_of_nat 10.

Fixpoint splitlines (s : string) : list string :=
  match s with
  | EmptyString => []
  | String c s' =>
      if is_linebreak c then
        match s' with
        | String c' s'' =>
            if Ascii.eqb c CR && Ascii.eqb c' LF
            then EmptyString :: splitlines s''
            else EmptyString :: splitlines s'
        | EmptyString => [EmptyString]
        end
      else match splitlines s' with
           | line :: rest => String c line :: rest
           | [] => [String c EmptyString]
           end
  end.

(** [s.lower()], ASCII letters. *)
Definition lower_char (c : ascii) : ascii :=
  let n := nat_of_ascii c in
  if (65 <=? n)%nat && (n <=? 90)%nat then ascii_of_nat (n + 32) else c.

Fixpoint lower (s : string) : string :=
  match s with
  | EmptyString => EmptyString
  | String c s' => String (lower_char c) (lower s')
  end.

(** [a < b] on lists of integers: the first position where the two
    differ decides, and a proper prefix is smaller. *)
Fixpoint list_lt (a b : list Z) : bool :=
  match a, b with
  | [], [] => false
  | [], _ :: _ => true
  | _ :: _, [] => false
  | x :: a', y :: b' => if Z.eqb x y then list_lt a' b' else Z.ltb x y
  end.

(** [list.sort(key=...)] once the keys are computed: a stable sort that
    compares keys with [<] only.  The sorted list is built from the
    right; an element goes in front of the first one whose key is not
    smaller, so elements with equal keys keep their order. *)
Section Sort.
Context {A K : Type} (lt : K -> K -> bool).

Fixpoint insert (x : K * A) (l : list (K * A)) : list (K * A) :=
  match l with
  | [] => [x]
  | y :: l' => if lt (fst y) (fst x) then y :: insert x l' else x :: l
  end.

Fixpoint sort_decorated (l : list (K * A)) : list (K * A) :=
  match l with
  | [] => []
  | x :: l' => insert x (sort_decorated l')
  end.
End Sort.

(** [l.sort(key=key)]: every key is computed first, and a key that
    raises leaves the exception as the result. *)
Definition sort_by_key {A K : Type} (lt : K -> K -> bool)
    (key : A -> outcome K) (l : list A) : outcome (list A) :=
  let? keyed := omap (fun x => let? k := key x in Return (k, x)) l in
  Return (map snd (sort_decorated lt keyed)).

End Py.

(** ** The world outside the process *)

(** A path is the list of its components below the root. *)
Definition path : Type := list string.

Definition joinpath (p : path) (name : string) : path := (p ++ [name])%list.

(** [Path.name] and [Path.parent]. *)
Definition path_name (p : path) : string := last p "".
Definition path_parent (p : path) : path := removelast p.

(** [str(p)], as an f-string prints a path. *)
Definition path_str (p : path) : string :=
  String.concat "" (map (fun c => "/" ++ c) p).

(** [bytes], seen through [bytes.decode()]. *)
Inductive bytes : Type :=
| Utf8 (text : string)
| Undecodable.

Definition bytes_decode (b : bytes) : outcome string :=
  match b with
  | Utf8 t => Return t
  | Undecodable => Raise UnicodeDecodeError
  end.

(** [subprocess.run(argv, capture_output=True)]: the program could not be
    started, or it ran and left a return code and its standard output. *)
Inductive completed_process : Type :=
| SpawnFailed
| Completed (returncode : Z) (stdout : bytes).

(** [requests.get(url)]. *)
Record response : Type := {
  status_code : Z;
  content : string;
  (* the body as a JSON object, its string members; [None]: not JSON *)
  json : option (list (string * string))
}.

(** What the process does to the world. *)
Inductive effect : Type :=
| Print (line : string)                       (* print(line) *)
| Log (thread : string) (message : string)    (* logger.info(message) *)
| Mkdir (p : path) (parents exist_ok : bool)  (* p.mkdir(...) *)
| Rmtree (p : path)                           (* shutil.rmtree(p) *)
| Copytree (src dst : path)                   (* shutil.copytree(src, dst) *)
| WriteFile (p : path) (data : string)        (* open(p, "w"/"wb").write(data) *)
| ZipOpen (zip : path)                        (* zipfile.ZipFile(zip, "w") *)
| ZipWrite (zip file arcname : path)          (* zf.write(file, arcname=...) *)
| ZipClose (zip : path).                      (* leaving the with block *)

Record Env : Type := {
  (* Path(__file__).parent.resolve() of build.py *)
  env_base : path;
  (* the working directory of the process *)
  env_cwd : path;
  (* os.getenv(name) *)
  env_getenv : string -> option string;
  (* subprocess.run(["git"] + args, capture_output=True) *)
  env_git : list string -> completed_process;
  (* requests.get(url, ...); None: no response *)
  env_http_get : string -> option response;
  (* p.exists(), when the program asks *)
  env_exists : path -> bool;
  (* lzma.open(p).read() *)
  env_lzma_read : path -> exn + string;
  (* os.walk(top): the directories below top and the files of each *)
  env_walk : path -> list (path * list string);
  (* a call that changes the file system and raises instead *)
  env_fails : effect -> option exn;
  (* concurrent.futures.as_completed: the tasks, given in the order they
     were submitted, in the order they complete *)
  env_as_completed : list string -> list string
}.

(** ** Computations with effects

    The outcome of a computation and the effects it performed, in order. *)

Definition M (A : Type) : Type := outcome A * list effect.

Definition ret {A : Type} (a : A) : M A := (Return a, []).

Definition lift {A : Type} (o : outcome A) : M A := (o, []).

Definition bind {A B : Type} (m : M A) (k : A -> M B) : M B :=
  match m with
  | (Return a, t) => let (o, t') := k a in (o, (t ++ t')%list)
  | (Raise e, t) => (Raise e, t)
  | (Diverge, t) => (Diverge, t)
  end.

Notation "'let!' x ':=' m 'in' k" := (bind m (fun x => k))
  (at level 10, x name, m at level 100, k at level 200)
  : outcome_scope.
Notation "m ';;' k" := (bind m (fun _ => k))
  (at level 100, k at level 200, right associativity)
  : outcome_scope.

(** An effect that cannot fail. *)
Definition say (ef : effect) : M unit := (Return tt, [ef]).

(** A change of the file system: it happens, or the call raises. *)
Definition perform (e : Env) (ef : effect) : M unit :=
  match env_fails e ef with
  | Some x => (Raise x, [])
  | None => (Return tt, [ef])
  end.

(** [with ... as x: body]: [close] runs when [body] returns and when it
    raises, and an exception of [close] replaces the one of [body]. *)
Definition with_closing {A : Type} (body : M A) (close : M unit) : M A :=
  match body with
  | (Diverge, t) => (Diverge, t)
  | (o, t) => let (c, t') := close in
              (match c with
               | Return _ => o
               | Raise x => Raise x
               | Diverge => Diverge
               end, (t ++ t')%list)
  end.

Fixpoint for_each {A : Type} (l : list A) (body : A -> M unit) : M unit :=
  match l with
  | [] => ret tt
  | x :: l' => body x ;; for_each l' body
  end.

Definition nl : string := String Py.LF EmptyString.
Definition dquote : string := String (ascii_of_nat 34) EmptyString.

(** [r = requests.get(url); r.raise_for_status()]. *)
Definition requests_get_ok (e : Env) (url : string) : outcome response :=
  match env_http_get e url with
  | None => Raise ConnectionError
  | Some r =>
      if (400 <=? status_code r)%Z && (status_code r <? 600)%Z
      then Raise HTTPError else Return r
  end.

Fixpoint dict_get (d : list (string * string)) (k : string) : outcome string :=
  match d with
  | [] => Raise KeyError
  | (k', v) :: d' => if String.eqb k' k then Return v else dict_get d' k
  end.

(** ** util.py *)

Module Util.

(** [tag.split('-', 1)[0]]; the list [split] returns is never empty. *)
Definition strip_revision (tag : string) : string :=
  hd EmptyString (Py.str_split "-" 1 tag).

Definition get_last_github_tag (e : Env) (project_name : string)
  : outcome string :=
  let releases_url :=
    "https://api.github.com/repos/" ++ project_name ++ "/releases/latest" in
  let? r := requests_get_ok e releases_url in
  match json r with
  | None => Raise JSONDecodeError
  | Some releases => dict_get releases "tag_name"
  end.

Definition get_last_frida_tag (e : Env) : M string :=
  let! last_frida_tag := lift (get_last_github_tag e "frida/frida") in
  say (Print ("Last frida tag: " ++ last_frida_tag)) ;;
  ret last_frida_tag.

(** The key of [sort_tags]: [list(map(int, re.split(r"[\.-]", s)))]. *)
Definition tag_key (s : string) : outcome (list Z) :=
  omap Py.int (Py.re_split_dot_dash s).

Definition sort_tags (tags : list string) : outcome (list string) :=
  Py.sort_by_key Py.list_lt tag_key tags.

Definition exec_git_command (e : Env) (command_with_args : list string)
  : outcome string :=
  match env_git e command_with_args with
  | SpawnFailed => Raise OSError
  | Completed _ stdout => bytes_decode stdout
  end.

Definition get_last_tag (e : Env) (filter_args : list string) : outcome string :=
  let? out := exec_git_command e (["tag"; "-l"] ++ filter_args)%list in
  let tags := Py.splitlines out in
  if (List.length tags <? 1)%nat then Return ""
  else let? sorted := sort_tags tags in Return (last sorted "").

Definition get_last_project_tag (e : Env) : M string :=
  let! last_tag := lift (get_last_tag e []) in
  say (Print ("Last project tag: " ++ last_tag)) ;;
  ret last_tag.

(** The loop of [get_next_revision], entered with counter [i]; [fuel]
    bounds the number of iterations the model follows. *)
Fixpoint get_next_revision_from (fuel : nat) (e : Env) (current_tag : string)
    (i : Z) : outcome string :=
  match fuel with
  | O => Diverge
  | S fuel' =>
      let new_tag := current_tag ++ "-" ++ Py.str i in
      let? found := get_last_tag e [new_tag] in
      if String.eqb found "" then Return new_tag
      else get_next_revision_from fuel' e current_tag (i + 1)
  end.

Definition get_next_revision (fuel : nat) (e : Env) (current_tag : string)
  : outcome string :=
  get_next_revision_from fuel e current_tag 1.

End Util.

(** ** build.py *)

Module Build.

Definition PATH_BASE (e : Env) : path := env_base e.
Definition PATH_BASE_MODULE (e : Env) : path := joinpath (PATH_BASE e) "base".
Definition PATH_BUILD (e : Env) : path := joinpath (PATH_BASE e) "build".
Definition PATH_BUILD_TMP (e : Env) : path := joinpath (PATH_BUILD e) "tmp".
Definition PATH_DOWNLOADS (e : Env) : path := joinpath (PATH_BASE e) "downloads".

(** The thread name the log formatter prints in the main process. *)
Definition MainThread : string := "MainThread".

(** [url[url.rfind("/") + 1 :]]: what follows the last slash, the whole
    of [url] when it has none. *)
Definition after_last_slash (url : string) : string :=
  last (Py.split_where (Ascii.eqb "/") url) "".

Definition download_file (e : Env) (thread : string) (url : string) (p : path)
  : M unit :=
  let file_name := after_last_slash url in
  say (Log thread ("Downloading '" ++ file_name ++ "' to '" ++ path_str p ++ "'")) ;;
  if env_exists e p then ret tt
  else
    let! r := lift (requests_get_ok e url) in
    perform e (WriteFile p (content r)) ;;
    say (Log thread "Done").

Definition extract_file (e : Env) (thread : string) (archive_path dest_path : path)
  : M unit :=
  say (Log thread ("Extracting '" ++ path_name archive_path ++ "' to '"
                     ++ path_name dest_path ++ "'")) ;;
  match env_lzma_read e archive_path with
  | inl x => lift (Raise x)
  | inr file_content =>
      perform e (Mkdir (path_parent dest_path) true true) ;;
      perform e (WriteFile dest_path file_content)
  end.

Definition generate_version_code (project_tag : string) : outcome Z :=
  let parts := Py.re_split_dot_dash project_tag in
  let? padded :=
    omap (fun part => let? n := Py.int part in Return (Py.format_02d n)) parts in
  Py.int (String.concat "" padded).

Definition create_module_prop (e : Env) (p : path) (project_tag : string)
  : M unit :=
  let! version_code := lift (generate_version_code project_tag) in
  let module_prop :=
    "id=magisk-frida" ++ nl ++
    "name=MagiskFrida" ++ nl ++
    "version=" ++ project_tag ++ nl ++
    "versionCode=" ++ Py.str version_code ++ nl ++
    "author=ViRb3 & enovella" ++ nl ++
    "updateJson=https://github.com/ViRb3/magisk-frida/releases/latest/download/updater.json" ++ nl ++
    "description=Run frida-server on boot" in
  perform e (WriteFile (joinpath p "module.prop") module_prop).

Definition create_module (e : Env) (project_tag : string) : M unit :=
  say (Log MainThread "Creating module") ;;
  (if env_exists e (PATH_BUILD_TMP e)
   then perform e (Rmtree (PATH_BUILD_TMP e)) else ret tt) ;;
  perform e (Copytree (PATH_BASE_MODULE e) (PATH_BUILD_TMP e)) ;;
  create_module_prop e (PATH_BUILD_TMP e) project_tag.

Definition fill_module (e : Env) (arch frida_tag project_tag : string) : M unit :=
  say (Log arch ("Filling module for arch '" ++ arch ++ "'")) ;;
  let frida_download_url :=
    "https://github.com/frida/frida/releases/download/" ++ frida_tag ++ "/" in
  let frida_server := "frida-server-" ++ frida_tag ++ "-android-" ++ arch ++ ".xz" in
  let frida_server_path := joinpath (PATH_DOWNLOADS e) frida_server in
  download_file e arch (frida_download_url ++ frida_server) frida_server_path ;;
  let files_dir := joinpath (PATH_BUILD_TMP e) "files" in
  perform e (Mkdir files_dir false true) ;;
  extract_file e arch frida_server_path (joinpath files_dir ("frida-server-" ++ arch)).

(** [json.dumps] of a string, ASCII part: the quote and the backslash
    are escaped, and so is what is not between the space and [~]. *)
Definition hex_digit (n : nat) : ascii :=
  if (n <? 10)%nat then ascii_of_nat (48 + n) else ascii_of_nat (87 + n).

Definition json_escape_char (c : ascii) : string :=
  let n := nat_of_ascii c in
  if Ascii.eqb c (ascii_of_nat 34) then "\" ++ dquote
  else if Ascii.eqb c "\" then "\\"
  else if (n =? 10)%nat then "\n"
  else if (n =? 13)%nat then "\r"
  else if (n =? 9)%nat then "\t"
  else if (n =? 12)%nat then "\f"
  else if (n =? 8)%nat then "\b"
  else if (32 <=? n)%nat && (n <=? 126)%nat then String c EmptyString
  else "\u00" ++ String (hex_digit (n / 16)) (String (hex_digit (n mod 16)) EmptyString).

Fixpoint json_escape (s : string) : string :=
  match s with
  | EmptyString => EmptyString
  | String c s' => json_escape_char c ++ json_escape s'
  end.

Definition json_string (s : string) : string := dquote ++ json_escape s ++ dquote.

Definition create_updater_json (e : Env) (project_tag : string) : M unit :=
  say (Log MainThread "Creating updater.json") ;;
  let! version_code := lift (generate_version_code project_tag) in
  let zip_url :=
    "https://github.com/ViRb3/magisk-frida/releases/download/" ++ project_tag
      ++ "/MagiskFrida-" ++ project_tag ++ ".zip" in
  let changelog :=
    "https://raw.githubusercontent.com/ViRb3/magisk-frida/master/CHANGELOG.md" in
  let member (k v : string) := "    " ++ json_string k ++ ": " ++ v in
  let dumps :=
    "{" ++ nl ++
    member "version" (json_string project_tag) ++ "," ++ nl ++
    member "versionCode" (Py.str version_code) ++ "," ++ nl ++
    member "zipUrl" (json_string zip_url) ++ "," ++ nl ++
    member "changelog" (json_string changelog) ++ nl ++
    "}" in
  perform e (WriteFile (joinpath (PATH_BUILD e) "updater.json") dumps).

(** [Path(root).relative_to(top)]. *)
Fixpoint relative_to (top root : path) : outcome path :=
  match top, root with
  | [], _ => Return root
  | c :: top', c' :: root' =>
      if String.eqb c c' then relative_to top' root' else Raise ValueError
  | _ :: _, [] => Raise ValueError
  end.

Definition package_module (e : Env) (project_tag : string) : M unit :=
  say (Log MainThread "Packaging module") ;;
  let module_zip := joinpath (PATH_BUILD e) ("MagiskFrida-" ++ project_tag ++ ".zip") in
  perform e (ZipOpen module_zip) ;;
  with_closing
    (for_each (env_walk e (PATH_BUILD_TMP e)) (fun '(root, files) =>
       for_each files (fun file_name =>
         if String.eqb file_name "placeholder" || String.eqb file_name ".gitkeep"
         then ret tt
         else
           let! rel := lift (relative_to (PATH_BUILD_TMP e) root) in
           perform e (ZipWrite module_zip (joinpath root file_name)
                               (joinpath rel file_name)))))
    (perform e (ZipClose module_zip)) ;;
  perform e (Rmtree (PATH_BUILD_TMP e)).

Definition archs : list string := ["arm"; "arm64"; "x86"; "x86_64"].

(** The loop over [as_completed(futures)]: the tasks are given in the
    order they complete, each with the effects it performed in its
    worker; the first one that did not return decides, and no task is
    cancelled. *)
Fixpoint join_futures (completed : list (M unit)) : M unit :=
  match completed with
  | [] => ret tt
  | (o, t) :: rest =>
      let (o', t') := join_futures rest in
      (match o with Return _ => o' | _ => o end, (t ++ t')%list)
  end.

Definition do_build (e : Env) (frida_tag project_tag : string) : M unit :=
  perform e (Mkdir (PATH_DOWNLOADS e) true true) ;;
  perform e (Mkdir (PATH_BUILD e) true true) ;;
  create_module e project_tag ;;
  join_futures
    (map (fun arch => fill_module e arch frida_tag project_tag)
         (env_as_completed e archs)) ;;
  package_module e project_tag ;;
  create_updater_json e project_tag ;;
  say (Log MainThread "Done").

End Build.

(** ** main.py *)

Module Main.

(** The sentinel [new_project_tag] starts with. *)
Definition no_release : string := "0".

Definition NEW_TAG (e : Env) : path := joinpath (env_cwd e) "NEW_TAG.txt".

(** [os.getenv('FORCE_RELEASE', 'false').lower() == 'true']. *)
Definition force_release (e : Env) : bool :=
  let v := match env_getenv e "FORCE_RELEASE" with
           | Some v => v
           | None => "false"
           end in
  String.eqb (Py.lower v) "true".

Definition needs_update (last_frida_tag last_project_tag : string) : bool :=
  negb (String.eqb last_frida_tag (Util.strip_revision last_project_tag)).

(** The body of [main] between the reading of the two tags and the
    build, as a function of what was read: the pair of [needs_update]
    and [new_project_tag]. *)
Definition release_decision (fuel : nat) (e : Env)
    (last_frida_tag last_project_tag : string) (force : bool)
  : M (bool * string) :=
  let new_project_tag := no_release in
  let needs := needs_update last_frida_tag last_project_tag in
  if needs || force then
    let! new_project_tag :=
      lift (Util.get_next_revision fuel e last_frida_tag) in
    say (Print ("Update needed to " ++ new_project_tag)) ;;
    (if needs
     then say (Print ("Reason: Frida updated from "
                        ++ Util.strip_revision last_project_tag
                        ++ " to " ++ last_frida_tag))
     else say (Print "Reason: Force release requested via GitHub Actions")) ;;
    perform e (WriteFile (NEW_TAG e) new_project_tag) ;;
    ret (needs, new_project_tag)
  else
    say (Print "All good!") ;;
    ret (needs, new_project_tag).

Definition main (fuel : nat) (e : Env) : M unit :=
  let! last_frida_tag := Util.get_last_frida_tag e in
  let! last_project_tag := Util.get_last_project_tag e in
  let! decision :=
    release_decision fuel e last_frida_tag last_project_tag (force_release e) in
  Build.do_build e last_frida_tag (snd decision).

End Main.

(** * The vocabulary of the statements *)

Fixpoint string_forall (p : ascii -> bool) (s : string) : bool :=
  match s with
  | EmptyString => true
  | String c s' => p c && string_forall p s'
  end.

(** The characters of [s] are decimal digits. *)
Definition all_digits (s : string) : bool := string_forall Py.is_digit s.

(** A component of a version: one decimal digit at least, and no other
    character. *)
Definition numeric (s : string) : Prop := all_digits s = true /\ s <> "".

(** The number a string of digits writes. *)
Fixpoint digits_val (s : string) (acc : Z) : Z :=
  match s with
  | EmptyString => acc
  | String c s' => digits_val s' (10 * acc + Py.digit_value c)
  end.

Definition number_of (s : string) : Z := digits_val s 0.

Fixpoint contains (c : ascii) (s : string) : bool :=
  match s with
  | EmptyString => false
  | String x s' => Ascii.eqb x c || contains c s'
  end.

(** The components of a version tag, as numbers. *)
Definition components (s : string) : list Z :=
  map number_of (Py.re_split_dot_dash s).

(** A version tag: numeric components, separated by dots or dashes. *)
Definition version_tag (s : string) : Prop :=
  Forall numeric (Py.re_split_dot_dash s).

(** Numeric comparison of components, left to right. *)
Inductive lex_lt : list Z -> list Z -> Prop :=
| lex_lt_nil : forall y b, lex_lt [] (y :: b)
| lex_lt_head : forall x y a b, (x < y)%Z -> lex_lt (x :: a) (y :: b)
| lex_lt_tail : forall x a b, lex_lt a b -> lex_lt (x :: a) (x :: b).

Definition version_lt (s t : string) : Prop :=
  lex_lt (components s) (components t).

Definition version_le (s t : string) : Prop := ~ version_lt t s.

(** A version string written out: a first component, and then
    separators, each followed by a component. *)
Fixpoint join_version (first : string) (rest : list (ascii * string)) : string :=
  match rest with
  | [] => first
  | (sep, c) :: rest' => first ++ String sep (join_version c rest')
  end.

(** The separators are dots and dashes, the components are numeric. *)
Definition well_separated (rest : list (ascii * string)) : Prop :=
  Forall (fun p => Py.dot_or_dash (fst p) = true /\ numeric (snd p)) rest.

(** The numbers of the components. *)
Definition component_values (first : string) (rest : list (ascii * string))
  : list Z :=
  map number_of (first :: map snd rest).

(** A number in decimal, with a zero in front if it has one digit. *)
Definition zero_pad2 (n : Z) : string :=
  if (n <? 10)%Z then "0" ++ Py.str n else Py.str n.

(** The number whose digits in base 100 are [ns]. *)
Definition base100 (ns : list Z) : Z :=
  fold_left (fun acc n => 100 * acc + n)%Z ns 0%Z.

(** The reason [release_decision] prints. *)
Definition reason (last_frida_tag last_project_tag : string) : string :=
  if Main.needs_update last_frida_tag last_project_tag
  then "Reason: Frida updated from " ++ Util.strip_revision last_project_tag
         ++ " to " ++ last_frida_tag
  else "Reason: Force release requested via GitHub Actions".

(** The update-metadata document of [create_updater_json]. *)
Definition updater_json (e : Env) : path :=
  joinpath (Build.PATH_BUILD e) "updater.json".

(** What a task of [fill_module] may do: log, make directories, write a
    file of the download cache or a file of the staging tree. *)
Definition task_effect (e : Env) (ef : effect) : Prop :=
  match ef with
  | Log _ _ | Mkdir _ _ _ => True
  | WriteFile p _ =>
      (exists f, p = joinpath (Build.PATH_DOWNLOADS e) f) \/
      (exists f, p = joinpath (joinpath (Build.PATH_BUILD_TMP e) "files") f)
  | _ => False
  end.

(** What [create_module] may do. *)
Definition setup_effect (e : Env) (ef : effect) : Prop :=
  match ef with
  | Log _ _ | Rmtree _ | Copytree _ _ => True
  | WriteFile p _ => p = joinpath (Build.PATH_BUILD_TMP e) "module.prop"
  | _ => False
  end.

Definition is_archive_effect (ef : effect) : Prop :=
  match ef with
  | ZipOpen _ | ZipWrite _ _ _ | ZipClose _ => True
  | _ => False
  end.

Definition is_removal (ef : effect) : Prop :=
  match ef with
  | Rmtree _ => True
  | _ => False
  end.

Definition writes (p : path) (ef : effect) : Prop :=
  exists data, ef = WriteFile p data.

(** The effects of the tasks of a build, in the order the tasks complete. *)
Definition task_effects (e : Env) (frida_tag project_tag : string) : list effect :=
  concat (map (fun arch => snd (Build.fill_module e arch frida_tag project_tag))
              (env_as_completed e Build.archs)).

(** The tags of [tags] whose key is [k], in the order they stand in. *)
Definition has_key (k : list Z) (t : string) : bool :=
  match Util.tag_key t with
  | Return k' => if list_eq_dec Z.eq_dec k k' then true else false
  | _ => false
  end.

Definition with_key (k : list Z) (tags : list string) : list string :=
  filter (has_key k) tags.

(** What git prints for a list of tags: each on a line of its own. *)
Definition tag_lines (tags : list string) : string :=
  String.concat "" (map (fun t => t ++ nl) tags).

(** The files of a build: the archive of an architecture in the download
    cache, its binary in the staging tree, and the archive of the module. *)
Definition cached_archive (e : Env) (frida_tag arch : string) : path :=
  joinpath (Build.PATH_DOWNLOADS e)
           ("frida-server-" ++ frida_tag ++ "-android-" ++ arch ++ ".xz").

Definition staged_binary (e : Env) (arch : string) : path :=
  joinpath (joinpath (Build.PATH_BUILD_TMP e) "files") ("frida-server-" ++ arch).

Definition module_zip (e : Env) (project_tag : string) : path :=
  joinpath (Build.PATH_BUILD e) ("MagiskFrida-" ++ project_tag ++ ".zip").

(** A task writes its two files and no other. *)
Definition writes_own_files (e : Env) (frida_tag arch : string) (ef : effect)
  : Prop :=
  match ef with
  | WriteFile p _ => p = cached_archive e frida_tag arch \/ p = staged_binary e arch
  | Log _ _ | Mkdir _ _ _ => True
  | _ => False
  end.

(** What [package_module] may do: log, open and close the archive of the
    module, put into it a file the walk of the staging tree gave, under
    its path below the staging tree, unless it is a placeholder, and
    remove the staging tree. *)
Definition packaging_effect (e : Env) (project_tag : string) (ef : effect) : Prop :=
  match ef with
  | Log _ _ => True
  | ZipOpen z | ZipClose z => z = module_zip e project_tag
  | ZipWrite z file arcname =>
      z = module_zip e project_tag /\
      file = (Build.PATH_BUILD_TMP e ++ arcname)%list /\
      path_name arcname <> "placeholder" /\ path_name arcname <> ".gitkeep" /\
      exists root files,
        In (root, files) (env_walk e (Build.PATH_BUILD_TMP e)) /\
        In (path_name arcname) files /\
        file = joinpath root (path_name arcname)
  | Rmtree p => p = Build.PATH_BUILD_TMP e
  | _ => False
  end.

Definition is_zip_write (ef : effect) : Prop :=
  match ef with
  | ZipWrite _ _ _ => True
  | _ => False
  end.

(** The body of the [with] block of [package_module]. *)
Definition archive_walk (e : Env) (project_tag : string) : M unit :=
  for_each (env_walk e (Build.PATH_BUILD_TMP e)) (fun '(root, files) =>
    for_each files (fun file_name =>
      if String.eqb file_name "placeholder" || String.eqb file_name ".gitkeep"
      then ret tt
      else
        let! rel := lift (Build.relative_to (Build.PATH_BUILD_TMP e) root) in
        perform e (ZipWrite (module_zip e project_tag) (joinpath root file_name)
                            (joinpath rel file_name)))).

(** The effects that write no file: logging and what is done to
    directories. *)
Definition writes_no_file (ef : effect) : Prop :=
  match ef with
  | Log _ _ | Mkdir _ _ _ | Rmtree _ | Copytree _ _ => True
  | _ => False
  end.

(** Where the task of an architecture downloads its archive from. *)
Definition release_url (frida_tag arch : string) : string :=
  ("https://github.com/frida/frida/releases/download/" ++ frida_tag ++ "/")
    ++ ("frida-server-" ++ frida_tag ++ "-android-" ++ arch ++ ".xz").

(** The characters [git tag -l] reads as a pattern, not as themselves. *)
Definition is_glob (c : ascii) : bool :=
  Ascii.eqb c "*" || Ascii.eqb c "?" || Ascii.eqb c "[" || Ascii.eqb c "\".

(** A character git compares as itself and prints as itself: a
    printable ASCII character that is none of the four above. *)
Definition plain_char (c : ascii) : bool :=
  let n := nat_of_ascii c in
  (32 <=? n)%nat && (n <=? 126)%nat && negb (is_glob c).

(** An argument that begins with a dash is an option for git, not a
    name; the empty string begins with no character at all. *)
Definition begins_plain (s : string) : bool :=
  match s with
  | String c _ => negb (Ascii.eqb c "-")
  | EmptyString => false
  end.

(** A name [git tag -l] reads as a name, compares letter by letter and
    prints on a line of its own: it is not empty, does not begin with a
    dash, and its characters are plain. *)
Definition plain (s : string) : Prop :=
  begins_plain s = true /\ string_forall plain_char s = true.

(** The tag [get_next_revision] tries at revision [i]. *)
Definition revision (current_tag : string) (i : Z) : string :=
  current_tag ++ "-" ++ Py.str i.

(** [n] revisions of [current_tag] from [i] on are tags, and the next one
    is not. *)
Definition first_free_after (tags : list string) (current_tag : string)
    (i : Z) (n : nat) : Prop :=
  (forall j, (i <= j < i + Z.of_nat n)%Z -> In (revision current_tag j) tags)
  /\ ~ In (revision current_tag (i + Z.of_nat n)) tags.

(** [e] is a repository whose tags are [tags]: asked for the tags that
    match a plain name, git prints the name on a line if it is a tag,
    and nothing if it is not. *)
Definition tag_store (e : Env) (tags : list string) : Prop :=
  forall p, plain p ->
    (In p tags -> env_git e ["tag"; "-l"; p] = Completed 0 (Utf8 (p ++ nl))) /\
    (~ In p tags -> env_git e ["tag"; "-l"; p] = Completed 0 (Utf8 "")).

(** ** Environments to run the program in *)

(** [git tag -l] in a repository with the tags [tags], patterns compared
    letter by letter; any other command fails. *)
Definition git_of_tags (tags : list string) (args : list string)
  : completed_process :=
  match args with
  | "tag" :: "-l" :: patterns =>
      let all := nodup string_dec tags in
      let shown :=
        match patterns with
        | [] => all
        | _ => filter (fun t => existsb (String.eqb t) patterns) all
        end in
      Completed 0 (Utf8 (String.concat "" (map (fun t => t ++ nl) shown)))
  | _ => Completed 1 (Utf8 "")
  end.

(** A machine with nothing but the repository: no network, no variable
    set, an empty disk on which every call succeeds. *)
Definition repo_env (tags : list string) : Env := {|
  env_base := ["work"];
  env_cwd := ["work"];
  env_getenv := fun _ => None;
  env_git := git_of_tags tags;
  env_http_get := fun _ => None;
  env_exists := fun _ => false;
  env_lzma_read := fun _ => inl OSError;
  env_walk := fun _ => [];
  env_fails := fun _ => None;
  env_as_completed := fun l => l
|}.

(** The working directory is not a repository: git starts, prints its
    complaint on the standard error and exits with code 128. *)
Definition not_a_repository : Env := {|
  env_base := ["work"];
  env_cwd := ["work"];
  env_getenv := fun _ => None;
  env_git := fun _ => Completed 128 (Utf8 "");
  env_http_get := fun _ => None;
  env_exists := fun _ => false;
  env_lzma_read := fun _ => inl OSError;
  env_walk := fun _ => [];
  env_fails := fun _ => None;
  env_as_completed := fun l => l
|}.

(** The machine of [repo_env], with a network on which every request is
    answered by the latest release [upstream] of GitHub. *)
Definition github_env (upstream : string) (tags : list string) : Env := {|
  env_base := ["work"];
  env_cwd := ["work"];
  env_getenv := fun _ => None;
  env_git := git_of_tags tags;
  env_http_get := fun _ =>
    Some {| status_code := 200; content := "";
            json := Some [("tag_name", upstream)] |};
  env_exists := fun _ => false;
  env_lzma_read := fun _ => inl OSError;
  env_walk := fun _ => [];
  env_fails := fun _ => None;
  env_as_completed := fun l => l
|}.

(** A machine on which a build goes through: the archives are in the
    download cache and decompress, and every call succeeds. *)
Definition cached_env : Env := {|
  env_base := ["work"];
  env_cwd := ["work"];
  env_getenv := fun _ => None;
  env_git := git_of_tags [];
  env_http_get := fun _ => None;
  env_exists := fun _ => true;
  env_lzma_read := fun _ => inr "binary";
  env_walk := fun top =>
    [(top, ["module.prop"; ".gitkeep"]);
     (joinpath top "files", ["frida-server-arm"; "placeholder"])];
  env_fails := fun _ => None;
  env_as_completed := fun l => l
|}.

(** The tags [current_tag-1] ... [current_tag-n]. *)
Definition numbered (current_tag : string) (n : nat) : list string :=
  map (fun j => revision current_tag (Z.of_nat j)) (seq 1 n).

(** * Facts about the Python primitives *)

Ltac leb_cases :=
  repeat match goal with
         | |- context [(?a <=? ?b)%nat] => destruct (Nat.leb_spec a b)
         | H : context [(?a <=? ?b)%nat] |- _ => destruct (Nat.leb_spec a b)
         end;
  simpl in *; try reflexivity; try discriminate; try lia.

Lemma string_forall_app p a b :
  string_forall p (a ++ b) = string_forall p a && string_forall p b.
Proof.
  induction a as [|c a IH]; simpl; [reflexivity|].
  now rewrite IH, andb_assoc.
Qed.

Lemma string_forall_impl (p q : ascii -> bool) s :
  (forall c, p c = true -> q c = true) ->
  string_forall p s = true -> string_forall q s = true.
Proof.
  intros Hpq. induction s as [|c s IH]; simpl; [reflexivity|].
  intros H. apply andb_true_iff in H as [Hc Hs].
  now rewrite (Hpq _ Hc), IH.
Qed.

Lemma digit_not_space c : Py.is_digit c = true -> Py.is_space c = false.
Proof.
  unfold Py.is_digit, Py.is_space. intros H.
  destruct (Nat.eqb_spec (nat_of_ascii c) 32) as [E|_]; [rewrite E in H|];
    leb_cases.
Qed.

Lemma digit_not_sign c :
  Py.is_digit c = true -> Ascii.eqb c "+" = false /\ Ascii.eqb c "-" = false.
Proof.
  intros H. split; apply Ascii.eqb_neq; intros ->; discriminate H.
Qed.

Lemma digit_not_sep c : Py.is_digit c = true -> Py.dot_or_dash c = false.
Proof.
  intros H. unfold Py.dot_or_dash. apply orb_false_iff.
  split; apply Ascii.eqb_neq; intros ->; discriminate H.
Qed.

Lemma lstrip_no_space s :
  string_forall (fun c => negb (Py.is_space c)) s = true -> Py.lstrip s = s.
Proof.
  destruct s as [|c s]; simpl; [reflexivity|].
  intros H. apply andb_true_iff in H as [Hc _].
  apply negb_true_iff in Hc. now rewrite Hc.
Qed.

Lemma rstrip_no_space s :
  string_forall (fun c => negb (Py.is_space c)) s = true -> Py.rstrip s = s.
Proof.
  induction s as [|c s IH]; simpl; [reflexivity|].
  intros H. apply andb_true_iff in H as [Hc Hs].
  apply negb_true_iff in Hc. rewrite (IH Hs), Hc. now destruct s.
Qed.

Lemma strip_digits s : all_digits s = true -> Py.strip s = s.
Proof.
  intros H. unfold Py.strip.
  assert (Hs : string_forall (fun c => negb (Py.is_space c)) s = true).
  { apply (string_forall_impl Py.is_digit); [|exact H].
    intros c Hc. now rewrite (digit_not_space c Hc). }
  now rewrite (lstrip_no_space s Hs), (rstrip_no_space s Hs).
Qed.

Lemma int_digits_all s acc seen :
  all_digits s = true -> s <> "" \/ seen = true ->
  Py.int_digits s acc seen = Some (digits_val s acc).
Proof.
  revert acc seen. induction s as [|c s IH]; intros acc seen Hd Hne; simpl.
  - destruct Hne as [Hne | ->]; [now elim Hne | reflexivity].
  - simpl in Hd. apply andb_true_iff in Hd as [Hc Hs].
    rewrite Hc. apply IH; [exact Hs | now right].
Qed.

(** [int] reads a string of digits as the number it writes. *)
Lemma int_numeric s : numeric s -> Py.int s = Return (number_of s).
Proof.
  intros [Hd Hne]. unfold Py.int. rewrite (strip_digits s Hd).
  destruct s as [|c r]; [now elim Hne|].
  pose proof Hd as Hd'. simpl in Hd'. apply andb_true_iff in Hd' as [Hc _].
  destruct (digit_not_sign c Hc) as [-> ->].
  now rewrite (int_digits_all (String c r) 0 false Hd (or_introl Hne)).
Qed.

(** ** Splitting *)

Lemma split_where_nonnil sep s : Py.split_where sep s <> [].
Proof.
  destruct s as [|c s]; simpl; [discriminate|].
  destruct (sep c); [discriminate|].
  destruct (Py.split_where sep s); discriminate.
Qed.

(** A string with no separator is its only piece. *)
Lemma split_where_no_sep sep s :
  string_forall (fun c => negb (sep c)) s = true -> Py.split_where sep s = [s].
Proof.
  induction s as [|c s IH]; simpl; [reflexivity|].
  intros H. apply andb_true_iff in H as [Hc Hs].
  apply negb_true_iff in Hc. now rewrite Hc, (IH Hs).
Qed.

(** Splitting goes through a separator. *)
Lemma split_where_app sep a c b :
  sep c = true ->
  Py.split_where sep (a ++ String c b)
  = (Py.split_where sep a ++ Py.split_where sep b)%list.
Proof.
  intros Hc. induction a as [|x a IH]; simpl.
  - now rewrite Hc.
  - destruct (sep x); rewrite IH; [reflexivity|].
    pose proof (split_where_nonnil sep a) as Hn.
    destruct (Py.split_where sep a); [now elim Hn | reflexivity].
Qed.

Lemma split_numeric s : numeric s -> Py.re_split_dot_dash s = [s].
Proof.
  intros [Hd _]. apply split_where_no_sep.
  apply (string_forall_impl Py.is_digit); [|exact Hd].
  intros c Hc. now rewrite (digit_not_sep c Hc).
Qed.

Lemma str_split_no_sep sep n s :
  contains sep s = false -> Py.str_split sep n s = [s].
Proof.
  revert n. induction s as [|c s IH]; intros n H.
  - now destruct n.
  - destruct n as [|n]; [reflexivity|].
    simpl in *. apply orb_false_iff in H as [Hc Hs].
    now rewrite Hc, (IH (S n) Hs).
Qed.

(** The first piece of a split holds no separator, if one cut at least is
    allowed. *)
Lemma str_split_hd sep n s :
  contains sep (hd "" (Py.str_split sep (S n) s)) = false.
Proof.
  induction s as [|c s IH]; simpl; [reflexivity|].
  destruct (Ascii.eqb c sep) eqn:Hc; [reflexivity|].
  destruct (Py.str_split sep (S n) s) as [|p r]; simpl in *; now rewrite Hc.
Qed.

(** The pieces of a split and the separators make up the string. *)
Lemma split_where_length sep s :
  list_sum (map (fun p => S (String.length p)) (Py.split_where sep s))
  = S (String.length s).
Proof.
  induction s as [|c s IH]; simpl; [reflexivity|].
  destruct (sep c); simpl; [now rewrite IH|].
  destruct (Py.split_where sep s) as [|p r]; simpl in *; lia.
Qed.

(** No piece of a split is longer than the string. *)
Lemma split_where_piece_length sep s part :
  In part (Py.split_where sep s) ->
  (String.length part <= String.length s)%nat.
Proof.
  intros Hin. pose proof (split_where_length sep s) as Hsum.
  assert (Hle : forall l, In part l ->
            (S (String.length part)
             <= list_sum (map (fun p => S (String.length p)) l))%nat).
  { induction l as [|x l IH]; intros Hx; [contradiction|].
    unfold list_sum in *. cbn [map fold_right].
    destruct Hx as [-> | Hx]; [lia|]. specialize (IH Hx). lia. }
  specialize (Hle _ Hin). lia.
Qed.

(** ** Decimal numerals *)

Lemma uint_digits d : all_digits (NilEmpty.string_of_uint d) = true.
Proof. induction d; simpl; auto. Qed.

Lemma digits_val_uint_acc d acc :
  digits_val (NilEmpty.string_of_uint d) (Z.pos acc)
  = Z.pos (Pos.of_uint_acc d acc).
Proof.
  revert acc.
  induction d; intros acc;
    cbn [NilEmpty.string_of_uint digits_val Pos.of_uint_acc];
    [reflexivity | ..];
    rewrite <- IHd; f_equal;
    rewrite ?Pos2Z.inj_add, ?Pos2Z.inj_mul;
    match goal with
    | |- context [Py.digit_value ?c] =>
        let v := eval vm_compute in (Py.digit_value c) in
        change (Py.digit_value c) with v
    end; lia.
Qed.

Lemma digits_val_uint d :
  digits_val (NilEmpty.string_of_uint d) 0 = Z.of_N (Pos.of_uint d).
Proof.
  induction d; cbn [NilEmpty.string_of_uint digits_val Pos.of_uint];
    [reflexivity | exact IHd | ..];
    apply (digits_val_uint_acc d).
Qed.

(** [str] of a number that is not negative: its digits, the usual way. *)
Lemma str_nonneg z :
  (0 <= z)%Z -> numeric (Py.str z) /\ number_of (Py.str z) = z.
Proof.
  intros Hz. unfold Py.str, number_of. destruct z as [|p|p]; [| |lia].
  - split; [split; [reflexivity | discriminate] | reflexivity].
  - simpl. unfold NilZero.string_of_uint.
    pose proof (DecimalPos.Unsigned.to_uint_nonnil p) as Hn.
    pose proof (DecimalPos.Unsigned.of_to p) as Hp.
    destruct (Pos.to_uint p) eqn:E; [now elim Hn | ..];
      (split; [split; [apply (uint_digits (_ u)) | discriminate]
              | rewrite (digits_val_uint (_ u)), Hp; reflexivity]).
Qed.

Lemma str_pos_inj a b :
  (0 < a)%Z -> (0 < b)%Z -> Py.str a = Py.str b -> a = b.
Proof.
  intros Ha Hb H.
  destruct (str_nonneg a ltac:(lia)) as [_ Ea].
  destruct (str_nonneg b ltac:(lia)) as [_ Eb].
  now rewrite <- Ea, <- Eb, H.
Qed.

Lemma int_str z : (0 <= z)%Z -> Py.int (Py.str z) = Return z.
Proof.
  intros Hz. destruct (str_nonneg z Hz) as [Hn Hv].
  now rewrite (int_numeric _ Hn), Hv.
Qed.

(** ** Outcomes *)

Lemma omap_app {A B : Type} (f : A -> outcome B) (a b : list A) :
  omap f (a ++ b)%list
  = (let? x := omap f a in let? y := omap f b in Return (x ++ y)%list).
Proof.
  induction a as [|x a IH]; simpl.
  - now destruct (omap f b).
  - destruct (f x); simpl; [|reflexivity..].
    rewrite IH. destruct (omap f a); simpl; [|reflexivity..].
    now destruct (omap f b).
Qed.

Lemma omap_Return {A B : Type} (f : A -> outcome B) (g : A -> B) (l : list A) :
  (forall x, In x l -> f x = Return (g x)) -> omap f l = Return (map g l).
Proof.
  induction l as [|x l IH]; intros H; simpl; [reflexivity|].
  rewrite (H x (or_introl eq_refl)); simpl.
  rewrite IH; [reflexivity|]. intros y Hy. apply H. now right.
Qed.

(** [int] raises [ValueError] and nothing else, and it always ends. *)
Lemma int_outcome s :
  (exists z, Py.int s = Return z) \/ Py.int s = Raise ValueError.
Proof.
  unfold Py.int.
  match goal with |- context [match ?p with Some _ => _ | None => _ end] =>
    destruct p as [z|] end; [left; now exists z | now right].
Qed.

Lemma omap_int_outcome l :
  (exists zs, omap Py.int l = Return zs) \/ omap Py.int l = Raise ValueError.
Proof.
  induction l as [|s l IH]; simpl; [left; now exists []|].
  destruct (int_outcome s) as [[z ->] | ->]; simpl; [|now right].
  destruct IH as [[zs ->] | ->]; simpl; [left; now exists (z :: zs) | now right].
Qed.

(** ** The key of a tag *)

Lemma tag_key_version s : version_tag s -> Util.tag_key s = Return (components s).
Proof.
  intros H. apply omap_Return. intros x Hx. apply int_numeric.
  exact (proj1 (Forall_forall _ _) H x Hx).
Qed.

Lemma tag_key_revision current_tag i :
  (0 <= i)%Z ->
  Util.tag_key (revision current_tag i)
  = (let? ks := Util.tag_key current_tag in Return (ks ++ [i])%list).
Proof.
  intros Hi. unfold Util.tag_key, Py.re_split_dot_dash, revision.
  change ("-" ++ Py.str i) with (String "-" (Py.str i)).
  rewrite (split_where_app Py.dot_or_dash current_tag "-" (Py.str i) eq_refl).
  rewrite omap_app.
  destruct (str_nonneg i Hi) as [Hn Hv].
  fold (Py.re_split_dot_dash (Py.str i)). rewrite (split_numeric _ Hn).
  simpl. rewrite (int_numeric _ Hn), Hv. simpl.
  now destruct (omap Py.int (Py.split_where Py.dot_or_dash current_tag)).
Qed.

Lemma version_tag_revision current_tag i :
  version_tag current_tag -> (0 <= i)%Z -> version_tag (revision current_tag i).
Proof.
  intros H Hi. unfold version_tag, Py.re_split_dot_dash, revision.
  change ("-" ++ Py.str i) with (String "-" (Py.str i)).
  rewrite (split_where_app Py.dot_or_dash current_tag "-" (Py.str i) eq_refl).
  apply Forall_app. split; [exact H|].
  destruct (str_nonneg i Hi) as [Hn _].
  fold (Py.re_split_dot_dash (Py.str i)). rewrite (split_numeric _ Hn).
  now constructor.
Qed.

(** ** Keys that cannot be computed *)

Lemma omap_Return_inv {A B : Type} (f : A -> outcome B) (l : list A) r :
  omap f l = Return r -> Forall2 (fun x y => f x = Return y) l r.
Proof.
  revert r. induction l as [|x l IH]; simpl; intros r H.
  - inversion H. constructor.
  - destruct (f x) as [y| |] eqn:Ex; simpl in H; try discriminate.
    destruct (omap f l) as [ys| |]; simpl in H; try discriminate.
    inversion H; subst. constructor; [exact Ex | now apply IH].
Qed.

Lemma omap_Raise_ValueError {A B : Type} (f : A -> outcome B) (l : list A) x :
  (forall a, In a l -> (exists b, f a = Return b) \/ f a = Raise ValueError) ->
  In x l -> f x = Raise ValueError -> omap f l = Raise ValueError.
Proof.
  induction l as [|a l IH]; intros Hall Hin Hx; [contradiction|]. simpl.
  destruct Hin as [-> | Hin]; [now rewrite Hx|].
  destruct (Hall a (or_introl eq_refl)) as [[b ->] | ->]; [|reflexivity].
  cbn [obind]. rewrite IH; auto. intros a' Ha'. apply Hall. now right.
Qed.

Lemma omap_outcome {A B : Type} (f : A -> outcome B) (l : list A) :
  (forall a, In a l -> (exists b, f a = Return b) \/ f a = Raise ValueError) ->
  (exists r, omap f l = Return r) \/ omap f l = Raise ValueError.
Proof.
  induction l as [|a l IH]; intros Hall; [left; now exists []|]. simpl.
  destruct (Hall a (or_introl eq_refl)) as [[b ->] | ->]; [|now right].
  cbn [obind]. destruct IH as [[r ->] | ->]; [| left; now eexists | now right].
  intros a' Ha'. apply Hall. now right.
Qed.

Lemma omap_Raise_inv {A B : Type} (f : A -> outcome B) (l : list A) x :
  omap f l = Raise x -> exists a, In a l /\ f a = Raise x.
Proof.
  induction l as [|a l IH]; simpl; [discriminate|].
  destruct (f a) as [b| |] eqn:Ea; cbn [obind]; try discriminate.
  - destruct (omap f l) as [r| |]; cbn [obind]; try discriminate.
    intros H. destruct (IH H) as [a' [Hin Ha']]. exists a'. split; [now right | exact Ha'].
  - intros H. exists a. split; [now left | congruence].
Qed.

Lemma tag_key_outcome t :
  (exists k, Util.tag_key t = Return k) \/ Util.tag_key t = Raise ValueError.
Proof. apply omap_int_outcome. Qed.

Lemma tag_key_Raise t part :
  In part (Py.re_split_dot_dash t) -> Py.int part = Raise ValueError ->
  Util.tag_key t = Raise ValueError.
Proof.
  intros Hin Hp. unfold Util.tag_key.
  apply (omap_Raise_ValueError Py.int _ part); auto.
  intros a _. apply int_outcome.
Qed.

Lemma tag_key_Raise_inv t :
  Util.tag_key t = Raise ValueError ->
  exists part, In part (Py.re_split_dot_dash t) /\ Py.int part = Raise ValueError.
Proof.
  unfold Util.tag_key. induction (Py.re_split_dot_dash t) as [|p l IH]; simpl;
    [discriminate|].
  destruct (int_outcome p) as [[z Hz] | Hp].
  - rewrite Hz. cbn [obind]. intros H.
    destruct (omap Py.int l) as [zs| |] eqn:El; try discriminate.
    destruct (IH H) as [part [Hin Hpart]]. exists part. split; [now right | exact Hpart].
  - intros _. exists p. split; [now left | exact Hp].
Qed.

(** The pairs of key and tag [sort_tags] sorts. *)
Lemma sort_tags_keyed tags :
  Util.sort_tags tags
  = (let? keyed := omap (fun t => let? k := Util.tag_key t in Return (k, t)) tags in
     Return (map snd (Py.sort_decorated Py.list_lt keyed))).
Proof. reflexivity. Qed.

Lemma keyed_outcome t :
  (exists p, (let? k := Util.tag_key t in Return (k, t)) = Return p) \/
  (let? k := Util.tag_key t in Return (k, t)) = Raise ValueError.
Proof.
  destruct (tag_key_outcome t) as [[k ->] | ->]; [left; now eexists | now right].
Qed.

(** What [sort_tags] raises: the [ValueError] of a component [int]
    refuses, and nothing else. *)
Lemma sort_tags_outcome tags :
  (exists sorted, Util.sort_tags tags = Return sorted) \/
  Util.sort_tags tags = Raise ValueError.
Proof.
  rewrite sort_tags_keyed.
  destruct (omap_outcome (fun t => let? k := Util.tag_key t in Return (k, t)) tags)
    as [[keyed ->] | ->]; [| left; now eexists | now right].
  intros a _. apply keyed_outcome.
Qed.

Lemma sort_tags_Raise tags t part :
  In t tags -> In part (Py.re_split_dot_dash t) ->
  Py.int part = Raise ValueError ->
  Util.sort_tags tags = Raise ValueError.
Proof.
  intros Ht Hpart Hint. rewrite sort_tags_keyed.
  rewrite (omap_Raise_ValueError _ tags t); auto.
  - intros a _. apply keyed_outcome.
  - now rewrite (tag_key_Raise t part Hpart Hint).
Qed.

Lemma sort_tags_Raise_inv tags :
  Util.sort_tags tags = Raise ValueError ->
  exists t part, In t tags /\ In part (Py.re_split_dot_dash t) /\
                 Py.int part = Raise ValueError.
Proof.
  rewrite sort_tags_keyed. intros H.
  destruct (omap _ tags) as [keyed| |] eqn:Ek; cbn [obind] in H; try discriminate.
  apply omap_Raise_inv in Ek as [t [Ht Hkey]].
  destruct (Util.tag_key t) as [k| |] eqn:Hk; cbn [obind] in Hkey; try discriminate.
  assert (Hk' : Util.tag_key t = Raise ValueError) by congruence.
  destruct (tag_key_Raise_inv t Hk') as [part [Hin Hp]].
  exists t, part. now repeat split.
Qed.

(** ** Plain names *)

Lemma digit_plain c : Py.is_digit c = true -> plain_char c = true.
Proof.
  intros H. unfold plain_char. apply andb_true_iff. split.
  - unfold Py.is_digit in H. leb_cases.
  - apply negb_true_iff. unfold is_glob. repeat (apply orb_false_iff; split);
      apply Ascii.eqb_neq; intros ->; discriminate H.
Qed.

Lemma sep_plain c : Py.dot_or_dash c = true -> plain_char c = true.
Proof.
  unfold Py.dot_or_dash. intros H. apply orb_true_iff in H.
  destruct H as [H | H]; apply Ascii.eqb_eq in H; subst; reflexivity.
Qed.

Lemma plain_revision current_tag i :
  plain current_tag -> (0 <= i)%Z -> plain (revision current_tag i).
Proof.
  intros [Hb Hp] Hi. unfold plain, revision in *. split.
  - destruct current_tag as [|c t]; [discriminate Hb | exact Hb].
  - rewrite string_forall_app, Hp. simpl.
    destruct (str_nonneg i Hi) as [[Hd _] _].
    apply (string_forall_impl Py.is_digit); [apply digit_plain | exact Hd].
Qed.

(** The characters of a version tag are digits, dots and dashes. *)
Lemma split_digits_chars s :
  Forall (fun x => all_digits x = true) (Py.split_where Py.dot_or_dash s) ->
  string_forall (fun c => Py.is_digit c || Py.dot_or_dash c) s = true.
Proof.
  induction s as [|c s IH]; simpl; [reflexivity|].
  destruct (Py.dot_or_dash c) eqn:Hc.
  - intros H. inversion H; subst. rewrite orb_true_r. now apply IH.
  - pose proof (split_where_nonnil Py.dot_or_dash s) as Hn.
    destruct (Py.split_where Py.dot_or_dash s) as [|p r]; [now elim Hn|].
    intros H. inversion H as [|? ? Hd Hr]; subst.
    simpl in Hd. apply andb_true_iff in Hd as [Hc' Hp].
    rewrite Hc'. simpl. apply IH. now constructor.
Qed.

(** A version tag begins with a digit. *)
Lemma version_tag_begins s : version_tag s -> begins_plain s = true.
Proof.
  unfold version_tag, Py.re_split_dot_dash. destruct s as [|c s]; simpl.
  - intros H. inversion H as [|? ? [_ Hne] _]. now elim Hne.
  - destruct (Py.dot_or_dash c) eqn:Hc.
    + intros H. inversion H as [|? ? [_ Hne] _]. now elim Hne.
    + intros _. apply negb_true_iff. unfold Py.dot_or_dash in Hc.
      now apply orb_false_iff in Hc as [_ Hc].
Qed.

Lemma version_tag_plain s : version_tag s -> plain s.
Proof.
  intros H. split; [now apply version_tag_begins|].
  apply (string_forall_impl (fun c => Py.is_digit c || Py.dot_or_dash c)).
  - intros c Hc. apply orb_true_iff in Hc as [Hc | Hc];
      [now apply digit_plain | now apply sep_plain].
  - apply split_digits_chars. revert H. apply Forall_impl. now intros x [Hx _].
Qed.

(** ** Reading the answer of git *)

Lemma splitlines_line p :
  string_forall (fun c => negb (Py.is_linebreak c)) p = true -> p <> "" ->
  Py.splitlines (p ++ nl) = [p].
Proof.
  induction p as [|c p IH]; intros H Hne; [now elim Hne|].
  simpl in H. apply andb_true_iff in H as [Hc Hp].
  apply negb_true_iff in Hc.
  change (String c p ++ nl) with (String c (p ++ nl)).
  cbn [Py.splitlines]. rewrite Hc.
  destruct p as [|c' p'].
  - reflexivity.
  - rewrite (IH Hp); [reflexivity | discriminate].
Qed.

Lemma plain_no_linebreak p :
  plain p -> string_forall (fun c => negb (Py.is_linebreak c)) p = true.
Proof.
  intros [_ Hp]. revert Hp.
  apply string_forall_impl. intros c Hc. unfold plain_char in Hc.
  apply andb_true_iff in Hc as [Hc _]. apply negb_true_iff.
  unfold Py.is_linebreak. leb_cases.
Qed.

Lemma sort_tags_one p :
  Util.sort_tags [p] = (let? _ := Util.tag_key p in Return [p]).
Proof.
  unfold Util.sort_tags, Py.sort_by_key. simpl.
  now destruct (Util.tag_key p).
Qed.

Lemma revision_nonempty current_tag i : revision current_tag i <> "".
Proof. unfold revision. destruct current_tag; discriminate. Qed.

Lemma append_inv_head (a b c : string) : a ++ b = a ++ c -> b = c.
Proof. induction a as [|x a IH]; simpl; intros H; [exact H|]. inversion H. auto. Qed.

Lemma revision_inj current_tag i j :
  (0 < i)%Z -> (0 < j)%Z ->
  revision current_tag i = revision current_tag j -> i = j.
Proof.
  unfold revision. intros Hi Hj H.
  apply append_inv_head in H. apply (append_inv_head "-") in H.
  now apply str_pos_inj.
Qed.

Section TagStore.

Variables (e : Env) (tags : list string).
Hypothesis Hstore : tag_store e tags.

(** A name that is a tag is found, unless its key cannot be computed. *)
Lemma get_last_tag_present p :
  plain p -> p <> "" -> In p tags ->
  Util.get_last_tag e [p] = (let? _ := Util.tag_key p in Return p).
Proof.
  intros Hp Hne Hin. unfold Util.get_last_tag, Util.exec_git_command.
  cbn [app]. rewrite (proj1 (Hstore p Hp) Hin). cbn [bytes_decode obind].
  rewrite (splitlines_line p (plain_no_linebreak p Hp) Hne).
  cbn [List.length Nat.ltb Nat.leb]. rewrite sort_tags_one.
  now destruct (Util.tag_key p).
Qed.

(** A name that is no tag gives the empty string. *)
Lemma get_last_tag_absent p :
  plain p -> ~ In p tags -> Util.get_last_tag e [p] = Return "".
Proof.
  intros Hp Hin. unfold Util.get_last_tag, Util.exec_git_command.
  cbn [app]. now rewrite (proj2 (Hstore p Hp) Hin).
Qed.

Variable current_tag : string.
Hypothesis Hplain : plain current_tag.

(** The loop returns the first revision that is no tag. *)
Lemma next_revision_stops fuel i :
  (0 <= i)%Z -> ~ In (revision current_tag i) tags ->
  Util.get_next_revision_from (S fuel) e current_tag i
  = Return (revision current_tag i).
Proof.
  intros Hi Hin. cbn [Util.get_next_revision_from]. fold (revision current_tag i).
  now rewrite (get_last_tag_absent _ (plain_revision _ _ Hplain Hi) Hin).
Qed.

(** On a revision that is a tag, the loop goes on if the key of the tag
    can be computed, and raises what the key raises if not. *)
Lemma next_revision_step fuel i :
  (0 <= i)%Z -> In (revision current_tag i) tags ->
  Util.get_next_revision_from (S fuel) e current_tag i
  = (let? _ := Util.tag_key current_tag in
     Util.get_next_revision_from fuel e current_tag (i + 1)).
Proof.
  intros Hi Hin. cbn [Util.get_next_revision_from]. fold (revision current_tag i).
  rewrite (get_last_tag_present _ (plain_revision _ _ Hplain Hi)
             (revision_nonempty _ _) Hin).
  rewrite (tag_key_revision _ _ Hi).
  destruct (Util.tag_key current_tag); cbn [obind]; try reflexivity.
  destruct (String.eqb_spec (revision current_tag i) "") as [E|_];
    [now elim (revision_nonempty current_tag i) | reflexivity].
Qed.

Lemma next_revision_run ks n : forall i fuel,
  Util.tag_key current_tag = Return ks ->
  (0 <= i)%Z -> first_free_after tags current_tag i n ->
  Util.get_next_revision_from fuel e current_tag i
  = if (n <? fuel)%nat then Return (revision current_tag (i + Z.of_nat n))
    else Diverge.
Proof.
  induction n as [|n IH]; intros i fuel Hk Hi [Hall Hfree].
  - destruct fuel as [|fuel]; [reflexivity|].
    rewrite Z.add_0_r in *. now apply next_revision_stops.
  - destruct fuel as [|fuel]; [reflexivity|].
    rewrite next_revision_step, Hk; [cbn [obind] | exact Hi | apply Hall; lia].
    rewrite (IH (i + 1)%Z fuel Hk ltac:(lia)).
    + replace (i + 1 + Z.of_nat n)%Z with (i + Z.of_nat (S n))%Z by lia.
      reflexivity.
    + split.
      * intros j Hj. apply Hall. lia.
      * now replace (i + 1 + Z.of_nat n)%Z with (i + Z.of_nat (S n))%Z by lia.
Qed.

(** Revisions that are all tags are not more than the tags. *)
Lemma revisions_bounded n :
  (forall j, (1 <= j < 1 + Z.of_nat n)%Z -> In (revision current_tag j) tags) ->
  (n <= List.length tags)%nat.
Proof.
  intros Hall.
  set (l := map (fun j => revision current_tag (Z.of_nat j)) (seq 1 n)).
  assert (L : List.length l = n) by (unfold l; now rewrite length_map, length_seq).
  rewrite <- L. apply NoDup_incl_length.
  - apply NoDup_map_NoDup_ForallPairs; [|apply seq_NoDup].
    intros a b Ha Hb Hab. apply in_seq in Ha, Hb.
    apply revision_inj in Hab; lia.
  - intros t Ht. apply in_map_iff in Ht as [j [<- Hj]].
    apply in_seq in Hj. apply Hall. lia.
Qed.

(** There is a first revision that is no tag, and it is found among the
    first [length tags + 1]. *)
Lemma first_free_exists :
  exists n, (n <= List.length tags)%nat /\ first_free_after tags current_tag 1 n.
Proof.
  assert (H : forall d n,
             (List.length tags - n < d)%nat ->
             (forall j, (1 <= j < 1 + Z.of_nat n)%Z ->
                        In (revision current_tag j) tags) ->
             exists m, (m <= List.length tags)%nat /\ first_free_after tags current_tag 1 m).
  { induction d as [|d IH]; intros n Hd Hall; [lia|].
    pose proof (revisions_bounded n Hall) as Hn.
    destruct (in_dec string_dec (revision current_tag (1 + Z.of_nat n)) tags)
      as [Hin | Hout].
    - apply (IH (S n)).
      + assert (S n <= List.length tags)%nat; [|lia].
        apply revisions_bounded. intros j Hj.
        destruct (Z.eq_dec j (1 + Z.of_nat n)) as [-> | Hne];
          [exact Hin | apply Hall; lia].
      + intros j Hj.
        destruct (Z.eq_dec j (1 + Z.of_nat n)) as [-> | Hne];
          [exact Hin | apply Hall; lia].
    - exists n. now repeat split. }
  apply (H (S (List.length tags)) 0%nat); [lia|]. intros j Hj. lia.
Qed.

End TagStore.

(** ** The repositories of the examples *)

Lemma filter_one_NoDup (p : string) (l : list string) :
  NoDup l ->
  filter (fun t => existsb (String.eqb t) [p]) l
  = if in_dec string_dec p l then [p] else [].
Proof.
  induction 1 as [|x l Hx Hl IH]; [reflexivity|].
  set (f := fun t => existsb (String.eqb t) [p]) in *.
  cbn [filter]. rewrite IH. unfold f at 1. cbn [existsb]. rewrite orb_false_r.
  destruct (String.eqb_spec x p) as [-> | Hne].
  - destruct (in_dec string_dec p l) as [Hin|_]; [now elim Hx|].
    destruct (in_dec string_dec p (p :: l)) as [_|Hout];
      [reflexivity | elim Hout; now left].
  - destruct (in_dec string_dec p l) as [Hin|Hout];
      destruct (in_dec string_dec p (x :: l)) as [Hin'|Hout'];
      try reflexivity.
    + elim Hout'. now right.
    + destruct Hin' as [E|Hin']; [now elim Hne | now elim Hout].
Qed.

Lemma git_of_tags_one tags p :
  git_of_tags tags ["tag"; "-l"; p]
  = Completed 0 (Utf8 (if in_dec string_dec p tags then p ++ nl else "")).
Proof.
  cbn [git_of_tags]. rewrite (filter_one_NoDup p _ (NoDup_nodup string_dec tags)).
  destruct (in_dec string_dec p (nodup string_dec tags)) as [Hin|Hout];
    destruct (in_dec string_dec p tags) as [Hin'|Hout']; try reflexivity.
  - now apply nodup_In in Hin.
  - elim Hout. now apply nodup_In.
Qed.

Lemma repo_env_store tags : tag_store (repo_env tags) tags.
Proof.
  intros p _. cbn [env_git repo_env]. rewrite git_of_tags_one.
  split; intros H; destruct (in_dec string_dec p tags); try reflexivity;
    contradiction.
Qed.

Lemma numbered_In current_tag n j :
  (1 <= j < 1 + Z.of_nat n)%Z -> In (revision current_tag j) (numbered current_tag n).
Proof.
  intros Hj. apply in_map_iff. exists (Z.to_nat j). split.
  - f_equal. lia.
  - apply in_seq. lia.
Qed.

Lemma numbered_free current_tag n :
  ~ In (revision current_tag (1 + Z.of_nat n)) (numbered current_tag n).
Proof.
  intros H. apply in_map_iff in H as [j [E Hj]]. apply in_seq in Hj.
  apply revision_inj in E; lia.
Qed.

(** With the tags [current_tag-1] ... [current_tag-n] in the repository,
    the loop is still running after [n] iterations, and returns
    [current_tag-(n+1)] at the next one. *)
Lemma next_revision_numbered current_tag n fuel :
  version_tag current_tag ->
  Util.get_next_revision fuel (repo_env (numbered current_tag n)) current_tag
  = if (n <? fuel)%nat then Return (revision current_tag (1 + Z.of_nat n))
    else Diverge.
Proof.
  intros Hv. unfold Util.get_next_revision.
  apply (next_revision_run _ _ (repo_env_store _) _ (version_tag_plain _ Hv)
           (components current_tag)).
  - now apply tag_key_version.
  - lia.
  - split; [apply numbered_In | apply numbered_free].
Qed.

(** * util.py: the revision of a tag *)

(** C9. [strip_revision] is idempotent: stripping the revision of a
    stripped tag changes nothing.  It holds for every string, so for
    every version string of dot or dash separated integers. *)
Theorem strip_revision_idempotent (v : string) :
  Util.strip_revision (Util.strip_revision v) = Util.strip_revision v.
Proof.
  unfold Util.strip_revision.
  now rewrite (str_split_no_sep "-" 1 _ (str_split_hd "-" 0 v)).
Qed.

Example next_revision_of_empty_repository :
  Util.get_next_revision 1 (repo_env []) "16.1.4" = Return "16.1.4-1".
Proof. reflexivity. Qed.

Example next_revision_after_two :
  Util.get_next_revision 3 (repo_env ["16.1.4-1"; "16.1.4-2"]) "16.1.4"
  = Return "16.1.4-3".
Proof. vm_compute. reflexivity. Qed.

Lemma version_tag_16_1_4 : version_tag "16.1.4".
Proof. repeat constructor; discriminate. Qed.

(** C2. For a version tag [current_tag] and a repository whose tags are
    [tags], [get_next_revision] returns [current_tag-k] for the smallest
    [k >= 1] such that [current_tag-k] is not among [tags], as soon as it
    may run [k] iterations; [k] is at most the number of tags plus one.
    Over no tag, ["16.1.4"] gives ["16.1.4-1"]; over ["16.1.4-1"] and
    ["16.1.4-2"] it gives ["16.1.4-3"]. *)
Theorem next_revision_first_free :
  (forall (e : Env) (tags : list string) (current_tag : string),
      version_tag current_tag -> tag_store e tags ->
      exists k : Z,
        (1 <= k <= Z.of_nat (List.length tags) + 1)%Z /\
        ~ In (revision current_tag k) tags /\
        (forall j, (1 <= j < k)%Z -> In (revision current_tag j) tags) /\
        (forall fuel, (Z.to_nat k <= fuel)%nat ->
           Util.get_next_revision fuel e current_tag
           = Return (current_tag ++ "-" ++ Py.str k))) /\
  Util.get_next_revision 1 (repo_env []) "16.1.4" = Return "16.1.4-1" /\
  Util.get_next_revision 3 (repo_env ["16.1.4-1"; "16.1.4-2"]) "16.1.4"
  = Return "16.1.4-3".
Proof.
  split; [|split; [exact next_revision_of_empty_repository
                  | exact next_revision_after_two]].
  intros e tags current_tag Hv Hstore.
  pose proof (version_tag_plain _ Hv) as Hp.
  destruct (first_free_exists tags current_tag) as [n [Hn Hfree]].
  exists (1 + Z.of_nat n)%Z. destruct Hfree as [Hall Hout].
  repeat split; try lia; try assumption.
  intros fuel Hfuel. unfold Util.get_next_revision.
  rewrite (next_revision_run e tags Hstore current_tag Hp (components current_tag)
             n 1 fuel (tag_key_version _ Hv) ltac:(lia) (conj Hall Hout)).
  destruct (Nat.ltb_spec n fuel); [reflexivity | lia].
Qed.

Lemma next_revision_first_free_witness :
  version_tag "16.1.4" /\
  tag_store (repo_env ["16.1.4-1"; "16.1.4-2"]) ["16.1.4-1"; "16.1.4-2"] /\
  exists k : Z,
    (1 <= k <= Z.of_nat (List.length ["16.1.4-1"; "16.1.4-2"]) + 1)%Z /\
    ~ In (revision "16.1.4" k) ["16.1.4-1"; "16.1.4-2"] /\
    (forall j, (1 <= j < k)%Z -> In (revision "16.1.4" j) ["16.1.4-1"; "16.1.4-2"]) /\
    (forall fuel, (Z.to_nat k <= fuel)%nat ->
       Util.get_next_revision fuel (repo_env ["16.1.4-1"; "16.1.4-2"]) "16.1.4"
       = Return ("16.1.4" ++ "-" ++ Py.str k)).
Proof.
  split; [exact version_tag_16_1_4|].
  split; [apply repo_env_store|].
  exact (proj1 next_revision_first_free
           (repo_env ["16.1.4-1"; "16.1.4-2"]) ["16.1.4-1"; "16.1.4-2"] "16.1.4"
           version_tag_16_1_4 (repo_env_store _)).
Defined.

(** C3, as the code has it.  The search of [get_next_revision] has no
    bound of its own and no failure for running out of revisions: it is
    the repository that bounds it.  For a [current_tag] git reads as a
    name, that is a tag that is not empty, does not begin with a dash
    and holds printable characters other than the four of a pattern, and
    for a repository of [n] tags, the loop ends within [n + 1]
    iterations: it returns [current_tag-k] for some [k <= n + 1], or it
    raises the [ValueError] of a component of the tag that is no number.
    Nothing is said of a tag that begins with a dash: git reads the
    revisions of such a tag as options, not as names. *)
Theorem next_revision_terminates (e : Env) (tags : list string)
    (current_tag : string) :
  plain current_tag -> tag_store e tags ->
  (exists k : Z,
      (1 <= k <= Z.of_nat (List.length tags) + 1)%Z /\
      Util.get_next_revision (S (List.length tags)) e current_tag
      = Return (revision current_tag k))
  \/ Util.get_next_revision (S (List.length tags)) e current_tag
     = Raise ValueError.
Proof.
  intros Hp Hstore. unfold Util.get_next_revision.
  destruct (omap_int_outcome (Py.re_split_dot_dash current_tag)) as [[ks Hk] | Hk];
    fold (Util.tag_key current_tag) in Hk.
  - left.
    destruct (first_free_exists tags current_tag) as [n [Hn Hfree]].
    exists (1 + Z.of_nat n)%Z. split; [lia|].
    rewrite (next_revision_run e tags Hstore current_tag Hp ks
               n 1 _ Hk ltac:(lia) Hfree).
    destruct (Nat.ltb_spec n (S (List.length tags))); [reflexivity | lia].
  - destruct (in_dec string_dec (revision current_tag 1) tags) as [Hin | Hout].
    + right. rewrite (next_revision_step e tags Hstore current_tag Hp _ 1
                        ltac:(lia) Hin), Hk. reflexivity.
    + left. exists 1%Z. split; [lia|].
      now apply (next_revision_stops e tags Hstore current_tag Hp).
Qed.

Lemma next_revision_terminates_witness :
  plain "16.1.4" /\ tag_store (repo_env ["16.1.4-1"]) ["16.1.4-1"] /\
  ((exists k : Z,
       (1 <= k <= Z.of_nat (List.length ["16.1.4-1"]) + 1)%Z /\
       Util.get_next_revision (S (List.length ["16.1.4-1"]))
         (repo_env ["16.1.4-1"]) "16.1.4"
       = Return (revision "16.1.4" k))
   \/ Util.get_next_revision (S (List.length ["16.1.4-1"]))
        (repo_env ["16.1.4-1"]) "16.1.4"
      = Raise ValueError).
Proof.
  split; [split; reflexivity|].
  split; [apply repo_env_store|].
  exact (next_revision_terminates (repo_env ["16.1.4-1"]) ["16.1.4-1"] "16.1.4"
           (conj eq_refl eq_refl) (repo_env_store _)).
Defined.

(** C3, as the claim has it, fails: with the tags ["16.1.4-1"] ...
    ["16.1.4-10000"] in the repository the loop is still running after
    10000 iterations, and the next one returns ["16.1.4-10001"]: nothing
    stops the search at 10000, and nothing fails.
    [next_revision_numbered] says the same of every bound. *)
Lemma next_revision_past_10000 :
  Util.get_next_revision 10000 (repo_env (numbered "16.1.4" 10000)) "16.1.4"
  = Diverge /\
  Util.get_next_revision 10001 (repo_env (numbered "16.1.4" 10000)) "16.1.4"
  = Return "16.1.4-10001".
Proof.
  rewrite !(next_revision_numbered "16.1.4" 10000 _ version_tag_16_1_4).
  split; vm_compute; reflexivity.
Qed.

(** * main.py: the release decision *)

Lemma revision_not_sentinel current_tag i : revision current_tag i <> Main.no_release.
Proof.
  unfold revision, Main.no_release. destruct current_tag as [|c t]; simpl.
  - discriminate.
  - intros H. inversion H. destruct t; discriminate.
Qed.

(** What the loop returns is a revision of the tag it was given. *)
Lemma next_revision_shape fuel e current_tag : forall i tag,
  Util.get_next_revision_from fuel e current_tag i = Return tag ->
  exists j, tag = revision current_tag j.
Proof.
  induction fuel as [|fuel IH]; intros i tag H; [discriminate|].
  cbn [Util.get_next_revision_from] in H.
  destruct (Util.get_last_tag e [current_tag ++ "-" ++ Py.str i]) as [found| |];
    cbn [obind] in H; try discriminate.
  destruct (String.eqb found "").
  - inversion H. now exists i.
  - now apply (IH (i + 1)%Z).
Qed.

Lemma release_decision_idle fuel e last_frida_tag last_project_tag force :
  Main.needs_update last_frida_tag last_project_tag || force = false ->
  Main.release_decision fuel e last_frida_tag last_project_tag force
  = (Return (Main.needs_update last_frida_tag last_project_tag, Main.no_release),
     [Print "All good!"]).
Proof. intros H. unfold Main.release_decision. now rewrite H. Qed.

Lemma release_decision_release fuel e last_frida_tag last_project_tag force :
  Main.needs_update last_frida_tag last_project_tag || force = true ->
  Main.release_decision fuel e last_frida_tag last_project_tag force
  = match Util.get_next_revision fuel e last_frida_tag with
    | Return tag =>
        let prints := [Print ("Update needed to " ++ tag);
                       Print (reason last_frida_tag last_project_tag)] in
        match env_fails e (WriteFile (Main.NEW_TAG e) tag) with
        | Some x => (Raise x, prints)
        | None =>
            (Return (Main.needs_update last_frida_tag last_project_tag, tag),
             (prints ++ [WriteFile (Main.NEW_TAG e) tag])%list)
        end
    | Raise x => (Raise x, [])
    | Diverge => (Diverge, [])
    end.
Proof.
  intros H. unfold Main.release_decision, reason. rewrite H.
  destruct (Util.get_next_revision fuel e last_frida_tag) as [tag|x|];
    try reflexivity.
  unfold lift, bind, say, perform, ret.
  destruct (Main.needs_update last_frida_tag last_project_tag);
    destruct (env_fails e (WriteFile (Main.NEW_TAG e) tag)); reflexivity.
Qed.

Lemma needs_update_iff last_frida_tag last_project_tag :
  Main.needs_update last_frida_tag last_project_tag = true
  <-> last_frida_tag <> Util.strip_revision last_project_tag.
Proof.
  unfold Main.needs_update. rewrite negb_true_iff. apply String.eqb_neq.
Qed.

(** What a decision that returns has computed. *)
Lemma release_decision_returns fuel e last_frida_tag last_project_tag force n tag t :
  Main.release_decision fuel e last_frida_tag last_project_tag force
  = (Return (n, tag), t) ->
  n = Main.needs_update last_frida_tag last_project_tag /\
  (n = true \/ force = true ->
   Util.get_next_revision fuel e last_frida_tag = Return tag) /\
  (~ (n = true \/ force = true) -> tag = Main.no_release) /\
  (tag = Main.no_release <-> ~ (n = true \/ force = true)).
Proof.
  set (needs := Main.needs_update last_frida_tag last_project_tag).
  intros H. destruct (needs || force) eqn:E.
  - rewrite (release_decision_release _ _ _ _ _ E) in H. fold needs in H.
    destruct (Util.get_next_revision fuel e last_frida_tag) as [tag'|x|] eqn:Hnext;
      try discriminate.
    destruct (env_fails e (WriteFile (Main.NEW_TAG e) tag')); try discriminate.
    inversion H; subst n tag' t. clear H.
    destruct (next_revision_shape _ _ _ _ _ Hnext) as [j ->].
    pose proof (revision_not_sentinel last_frida_tag j) as Hs.
    apply orb_true_iff in E. tauto.
  - rewrite (release_decision_idle _ _ _ _ _ E) in H. fold needs in H.
    inversion H; subst n tag t. clear H.
    apply orb_false_iff in E as [E1 E2].
    assert (Hno : ~ (needs = true \/ force = true))
      by (intros [Hc | Hc]; congruence).
    tauto.
Qed.

(** C1. The release decision, for every upstream tag, local tag and
    force flag: [needs_update] holds exactly when the upstream tag
    differs from [strip_revision] of the local tag; the new tag is what
    [get_next_revision] returns for the upstream tag exactly when
    [needs_update] or the force flag holds, and it is left at the
    sentinel otherwise, which no revision equals.  The decision returns
    whenever the sentinel is kept, and whenever [get_next_revision]
    returns and the marker can be written.  The three decisions the
    specification lists are computed at the end. *)
Theorem release_decision_spec (fuel : nat) (e : Env)
    (last_frida_tag last_project_tag : string) (force : bool) :
  (Main.needs_update last_frida_tag last_project_tag = true
   <-> last_frida_tag <> Util.strip_revision last_project_tag) /\
  (forall n tag t,
      Main.release_decision fuel e last_frida_tag last_project_tag force
      = (Return (n, tag), t) ->
      n = Main.needs_update last_frida_tag last_project_tag /\
      (n = true \/ force = true ->
       Util.get_next_revision fuel e last_frida_tag = Return tag) /\
      (~ (n = true \/ force = true) -> tag = Main.no_release) /\
      (tag = Main.no_release <-> ~ (n = true \/ force = true))) /\
  (~ (Main.needs_update last_frida_tag last_project_tag = true \/ force = true) ->
   fst (Main.release_decision fuel e last_frida_tag last_project_tag force)
   = Return (Main.needs_update last_frida_tag last_project_tag, Main.no_release)) /\
  (forall tag,
      Main.needs_update last_frida_tag last_project_tag = true \/ force = true ->
      Util.get_next_revision fuel e last_frida_tag = Return tag ->
      env_fails e (WriteFile (Main.NEW_TAG e) tag) = None ->
      fst (Main.release_decision fuel e last_frida_tag last_project_tag force)
      = Return (Main.needs_update last_frida_tag last_project_tag, tag)) /\
  fst (Main.release_decision 1 (repo_env ["16.1.3-1"]) "16.1.4" "16.1.3-1" false)
  = Return (true, "16.1.4-1") /\
  fst (Main.release_decision 1 (repo_env ["16.1.4-1"]) "16.1.4" "16.1.4-1" false)
  = Return (false, Main.no_release) /\
  fst (Main.release_decision 2 (repo_env ["16.1.4-1"]) "16.1.4" "16.1.4-1" true)
  = Return (false, "16.1.4-2").
Proof.
  set (needs := Main.needs_update last_frida_tag last_project_tag).
  assert (Hor : needs || force = true <-> needs = true \/ force = true)
    by apply orb_true_iff.
  split; [apply needs_update_iff|].
  split; [intros n tag t; apply release_decision_returns|].
  split; [|split; [|repeat split; vm_compute; reflexivity]].
  - intros Hno. rewrite release_decision_idle; [reflexivity|].
    fold needs. apply not_true_is_false. intros E. elim Hno. now apply Hor.
  - intros tag Hyes Hnext Hwrite.
    rewrite release_decision_release by (now apply Hor).
    now rewrite Hnext, Hwrite.
Qed.

(** C10. With no local tag, that is with the empty string for it, the
    decision reports [needs_update] for every upstream tag that is not
    empty: the empty string stripped of its revision is empty.  The
    empty string is what [get_last_tag] returns when git prints no tag. *)
Theorem needs_update_without_local_tag (fuel : nat) (e : Env)
    (last_frida_tag : string) (force : bool) :
  last_frida_tag <> "" ->
  Util.strip_revision "" = "" /\
  Main.needs_update last_frida_tag "" = true /\
  (forall n tag t,
      Main.release_decision fuel e last_frida_tag "" force = (Return (n, tag), t) ->
      n = true) /\
  (forall code, env_git e ["tag"; "-l"] = Completed code (Utf8 "") ->
                Util.get_last_tag e [] = Return "").
Proof.
  intros Hne.
  assert (Hneeds : Main.needs_update last_frida_tag "" = true)
    by (apply needs_update_iff; exact Hne).
  split; [reflexivity|]. split; [exact Hneeds|]. split.
  - intros n tag t H.
    destruct (release_decision_returns _ _ _ _ _ _ _ _ H) as [-> _]. exact Hneeds.
  - intros code Hgit. unfold Util.get_last_tag, Util.exec_git_command.
    cbn [app]. now rewrite Hgit.
Qed.

Lemma needs_update_without_local_tag_witness :
  "16.1.4" <> "" /\
  Util.strip_revision "" = "" /\
  Main.needs_update "16.1.4" "" = true /\
  (forall n tag t,
      Main.release_decision 1 (repo_env []) "16.1.4" "" false = (Return (n, tag), t) ->
      n = true) /\
  (forall code, env_git (repo_env []) ["tag"; "-l"] = Completed code (Utf8 "") ->
                Util.get_last_tag (repo_env []) [] = Return "").
Proof.
  split; [discriminate|].
  apply (needs_update_without_local_tag 1 (repo_env []) "16.1.4" false).
  discriminate.
Defined.

(** C7. The marker file.  The effects of the release decision are the
    status lines it prints and one write at most.  With neither the
    drift nor the force flag it prints one line and writes nothing.
    With either, it writes the marker file as soon as the new tag is
    found and the file can be written, after its two lines and with
    exactly the new tag in it; for a version tag and a repository the
    new tag is found, so the marker is written.  The marker is among the
    effects exactly when a release is warranted, the new tag is found
    and the write does not fail, and what is written is the new tag.
    However the decision ends, it changes no file but the marker.  The
    three decisions the specification lists are run at the end. *)
Theorem marker_written_iff_release (fuel : nat) (e : Env)
    (last_frida_tag last_project_tag : string) (force : bool) :
  (Main.needs_update last_frida_tag last_project_tag || force = false ->
   Main.release_decision fuel e last_frida_tag last_project_tag force
   = (Return (Main.needs_update last_frida_tag last_project_tag, Main.no_release),
      [Print "All good!"])) /\
  (Main.needs_update last_frida_tag last_project_tag || force = true ->
   forall n tag t,
     Main.release_decision fuel e last_frida_tag last_project_tag force
     = (Return (n, tag), t) ->
     Util.get_next_revision fuel e last_frida_tag = Return tag /\
     t = [Print ("Update needed to " ++ tag);
          Print (reason last_frida_tag last_project_tag);
          WriteFile (Main.NEW_TAG e) tag]) /\
  (forall o t ef,
      Main.release_decision fuel e last_frida_tag last_project_tag force = (o, t) ->
      In ef t ->
      (exists line, ef = Print line) \/
      (Main.needs_update last_frida_tag last_project_tag || force = true /\
       exists tag, Util.get_next_revision fuel e last_frida_tag = Return tag /\
                   ef = WriteFile (Main.NEW_TAG e) tag)) /\
  (Main.needs_update last_frida_tag last_project_tag || force = true ->
   forall tag,
     Util.get_next_revision fuel e last_frida_tag = Return tag ->
     env_fails e (WriteFile (Main.NEW_TAG e) tag) = None ->
     Main.release_decision fuel e last_frida_tag last_project_tag force
     = (Return (Main.needs_update last_frida_tag last_project_tag, tag),
        [Print ("Update needed to " ++ tag);
         Print (reason last_frida_tag last_project_tag);
         WriteFile (Main.NEW_TAG e) tag])) /\
  (Main.needs_update last_frida_tag last_project_tag || force = true ->
   forall tags,
     version_tag last_frida_tag -> tag_store e tags ->
     (List.length tags < fuel)%nat ->
     (forall data, env_fails e (WriteFile (Main.NEW_TAG e) data) = None) ->
     exists k : Z,
       (1 <= k)%Z /\
       Main.release_decision fuel e last_frida_tag last_project_tag force
       = (Return (Main.needs_update last_frida_tag last_project_tag,
                  revision last_frida_tag k),
          [Print ("Update needed to " ++ revision last_frida_tag k);
           Print (reason last_frida_tag last_project_tag);
           WriteFile (Main.NEW_TAG e) (revision last_frida_tag k)])) /\
  (forall data,
      In (WriteFile (Main.NEW_TAG e) data)
         (snd (Main.release_decision fuel e last_frida_tag last_project_tag force))
      <-> (Main.needs_update last_frida_tag last_project_tag || force = true /\
           Util.get_next_revision fuel e last_frida_tag = Return data /\
           env_fails e (WriteFile (Main.NEW_TAG e) data) = None)) /\
  snd (Main.release_decision 1 (repo_env ["16.1.3-1"]) "16.1.4" "16.1.3-1" false)
  = [Print "Update needed to 16.1.4-1";
     Print "Reason: Frida updated from 16.1.3 to 16.1.4";
     WriteFile ["work"; "NEW_TAG.txt"] "16.1.4-1"] /\
  snd (Main.release_decision 1 (repo_env ["16.1.4-1"]) "16.1.4" "16.1.4-1" false)
  = [Print "All good!"] /\
  snd (Main.release_decision 2 (repo_env ["16.1.4-1"]) "16.1.4" "16.1.4-1" true)
  = [Print "Update needed to 16.1.4-2";
     Print "Reason: Force release requested via GitHub Actions";
     WriteFile ["work"; "NEW_TAG.txt"] "16.1.4-2"].
Proof.
  split; [apply release_decision_idle|]. split; [|split; [|split; [|split; [|split]]]].
  - intros E n tag t H. rewrite (release_decision_release _ _ _ _ _ E) in H.
    destruct (Util.get_next_revision fuel e last_frida_tag) as [tag'|x|];
      try discriminate.
    destruct (env_fails e (WriteFile (Main.NEW_TAG e) tag')); try discriminate.
    inversion H; subst. now split.
  - intros o t ef H Hin.
    destruct (Main.needs_update last_frida_tag last_project_tag || force) eqn:E.
    + rewrite (release_decision_release _ _ _ _ _ E) in H.
      destruct (Util.get_next_revision fuel e last_frida_tag) as [tag|x|].
      * destruct (env_fails e (WriteFile (Main.NEW_TAG e) tag));
          inversion H; subst; simpl in Hin;
          repeat (destruct Hin as [<- | Hin]; [eauto|]); contradiction.
      * inversion H; subst. contradiction.
      * inversion H; subst. contradiction.
    + rewrite (release_decision_idle _ _ _ _ _ E) in H.
      inversion H; subst. destruct Hin as [<- | []]. eauto.
  - intros E tag Hnext Hwrite.
    rewrite (release_decision_release _ _ _ _ _ E), Hnext, Hwrite. reflexivity.
  - intros E tags Hv Hstore Hfuel Hwrite.
    destruct (first_free_exists tags last_frida_tag) as [n [Hn Hfree]].
    exists (1 + Z.of_nat n)%Z. split; [lia|].
    assert (Hnext : Util.get_next_revision fuel e last_frida_tag
                    = Return (revision last_frida_tag (1 + Z.of_nat n))).
    { unfold Util.get_next_revision.
      rewrite (next_revision_run e tags Hstore last_frida_tag
                 (version_tag_plain _ Hv) (components last_frida_tag)
                 n 1 fuel (tag_key_version _ Hv) ltac:(lia) Hfree).
      destruct (Nat.ltb_spec n fuel); [reflexivity | lia]. }
    rewrite (release_decision_release _ _ _ _ _ E), Hnext, Hwrite. reflexivity.
  - intros data. split.
    + intros Hin.
      destruct (Main.needs_update last_frida_tag last_project_tag || force) eqn:E.
      * rewrite (release_decision_release _ _ _ _ _ E) in Hin.
        destruct (Util.get_next_revision fuel e last_frida_tag) as [tag|x|];
          [|contradiction..].
        destruct (env_fails e (WriteFile (Main.NEW_TAG e) tag)) eqn:Hw;
          simpl in Hin.
        -- destruct Hin as [H | [H | []]]; discriminate H.
        -- destruct Hin as [H | [H | [H | []]]]; try discriminate H.
           inversion H; subst. now repeat split.
      * rewrite (release_decision_idle _ _ _ _ _ E) in Hin.
        destruct Hin as [H | []]. discriminate H.
    + intros [E [Hnext Hwrite]].
      rewrite (release_decision_release _ _ _ _ _ E), Hnext, Hwrite.
      simpl. auto.
  - repeat split; vm_compute; reflexivity.
Qed.

Lemma marker_written_iff_release_witness :
  Main.needs_update "16.1.4" "16.1.4-1" || true = true /\
  Util.get_next_revision 2 (repo_env ["16.1.4-1"]) "16.1.4" = Return "16.1.4-2" /\
  In (WriteFile (Main.NEW_TAG (repo_env ["16.1.4-1"])) "16.1.4-2")
     (snd (Main.release_decision 2 (repo_env ["16.1.4-1"]) "16.1.4" "16.1.4-1" true)).
Proof.
  split; [reflexivity|]. split; [reflexivity|].
  apply (proj2 (proj1 (proj2 (proj2 (proj2 (proj2 (proj2
           (marker_written_iff_release 2 (repo_env ["16.1.4-1"])
              "16.1.4" "16.1.4-1" true))))))
           "16.1.4-2")).
  repeat split.
Defined.

(** ** Reading the two tags *)

Lemma get_last_frida_tag_Return e tag :
  Util.get_last_github_tag e "frida/frida" = Return tag ->
  Util.get_last_frida_tag e = (Return tag, [Print ("Last frida tag: " ++ tag)]).
Proof. intros H. unfold Util.get_last_frida_tag. now rewrite H. Qed.

Lemma get_last_project_tag_Return e tag :
  Util.get_last_tag e [] = Return tag ->
  Util.get_last_project_tag e = (Return tag, [Print ("Last project tag: " ++ tag)]).
Proof. intros H. unfold Util.get_last_project_tag. now rewrite H. Qed.

(** * util.py: git that fails *)

(** [get_last_tag], by what git answered. *)
Lemma get_last_tag_answer e filter_args :
  Util.get_last_tag e filter_args
  = match env_git e (["tag"; "-l"] ++ filter_args)%list with
    | SpawnFailed => Raise OSError
    | Completed _ Undecodable => Raise UnicodeDecodeError
    | Completed _ (Utf8 out) =>
        match Py.splitlines out with
        | [] => Return ""
        | t :: ts => let? sorted := Util.sort_tags (t :: ts) in
                     Return (last sorted "")
        end
    end.
Proof.
  unfold Util.get_last_tag, Util.exec_git_command.
  destruct (env_git e _) as [|code [out|]]; cbn [bytes_decode obind];
    try reflexivity.
  destruct (Py.splitlines out); reflexivity.
Qed.

(** What the loop of [get_next_revision] raises, the lookup of one of
    its revisions raised. *)
Lemma next_revision_Raise fuel e current_tag x : forall i,
  Util.get_next_revision_from fuel e current_tag i = Raise x ->
  exists j, (i <= j)%Z /\ Util.get_last_tag e [revision current_tag j] = Raise x.
Proof.
  induction fuel as [|fuel IH]; intros i H; [discriminate|].
  cbn [Util.get_next_revision_from] in H. fold (revision current_tag i) in H.
  destruct (Util.get_last_tag e [revision current_tag i]) as [found|y|] eqn:E;
    cbn [obind] in H; try discriminate.
  - destruct (String.eqb found ""); [discriminate|].
    destruct (IH _ H) as [j [Hj Hr]]. exists j. split; [lia | exact Hr].
  - exists i. split; [lia | congruence].
Qed.

(** C8, as the code has it.  [get_last_tag] does not look at the return
    code of git, and raises in three cases and no other: [OSError]
    exactly when git cannot be started, [UnicodeDecodeError] exactly
    when what git printed cannot be decoded, [ValueError] exactly when a
    line git printed has a component, between dots and dashes, that
    [int] refuses.  In every other case it returns; when git starts and
    prints nothing, whatever its return code, the result is the empty
    string, the result for no matching tag.  What the lookup raises ends
    the run with that exception and no file changed: [main] raises it
    after the line of the upstream tag when the lookup of the project
    tag raises, and after the lines of both tags when a lookup of
    [get_next_revision] raises, which raises what its lookups raise. *)
Theorem get_last_tag_git_failure (e : Env) (filter_args : list string) :
  (Util.get_last_tag e filter_args = Raise OSError <->
   env_git e (["tag"; "-l"] ++ filter_args)%list = SpawnFailed) /\
  (Util.get_last_tag e filter_args = Raise UnicodeDecodeError <->
   exists code,
     env_git e (["tag"; "-l"] ++ filter_args)%list = Completed code Undecodable) /\
  (Util.get_last_tag e filter_args = Raise ValueError <->
   exists code out t part,
     env_git e (["tag"; "-l"] ++ filter_args)%list = Completed code (Utf8 out) /\
     In t (Py.splitlines out) /\ In part (Py.re_split_dot_dash t) /\
     Py.int part = Raise ValueError) /\
  (forall x, Util.get_last_tag e filter_args = Raise x ->
             x = OSError \/ x = UnicodeDecodeError \/ x = ValueError) /\
  Util.get_last_tag e filter_args <> Diverge /\
  (forall code,
      env_git e (["tag"; "-l"] ++ filter_args)%list = Completed code (Utf8 "") ->
      Util.get_last_tag e filter_args = Return "") /\
  (forall fuel x last_frida_tag,
      Util.get_last_github_tag e "frida/frida" = Return last_frida_tag ->
      Util.get_last_tag e [] = Raise x ->
      Main.main fuel e
      = (Raise x, [Print ("Last frida tag: " ++ last_frida_tag)])) /\
  (forall fuel x last_frida_tag last_project_tag,
      Util.get_last_github_tag e "frida/frida" = Return last_frida_tag ->
      Util.get_last_tag e [] = Return last_project_tag ->
      Main.needs_update last_frida_tag last_project_tag || Main.force_release e
      = true ->
      Util.get_next_revision fuel e last_frida_tag = Raise x ->
      Main.main fuel e
      = (Raise x, [Print ("Last frida tag: " ++ last_frida_tag);
                   Print ("Last project tag: " ++ last_project_tag)])) /\
  (forall fuel x current_tag,
      Util.get_next_revision fuel e current_tag = Raise x ->
      exists i, (1 <= i)%Z /\
                Util.get_last_tag e [revision current_tag i] = Raise x) /\
  (forall fuel x current_tag,
      Util.get_last_tag e [revision current_tag 1] = Raise x ->
      Util.get_next_revision (S fuel) e current_tag = Raise x).
Proof.
  repeat match goal with |- _ /\ _ => split end.
  - rewrite get_last_tag_answer.
    destruct (env_git e _) as [|code [out|]]; [tauto | | split; discriminate].
    destruct (Py.splitlines out) as [|t ts]; [split; discriminate|].
    destruct (sort_tags_outcome (t :: ts)) as [[sorted ->] | ->];
      split; discriminate.
  - rewrite get_last_tag_answer.
    destruct (env_git e _) as [|code [out|]].
    + split; [discriminate | intros [code H]; discriminate H].
    + destruct (Py.splitlines out) as [|t ts];
        [|destruct (sort_tags_outcome (t :: ts)) as [[sorted ->] | ->]];
        (split; [discriminate | intros [code' H]; discriminate H]).
    + split; [now exists code | reflexivity].
  - rewrite get_last_tag_answer.
    destruct (env_git e _) as [|code [out|]].
    + split; [discriminate | intros [code [out [t [part [H _]]]]]; discriminate H].
    + split.
      * destruct (Py.splitlines out) as [|t ts] eqn:El; [discriminate|].
        destruct (Util.sort_tags (t :: ts)) as [sorted|x|] eqn:Es;
          cbn [obind]; try discriminate.
        intros H. assert (Es' : Util.sort_tags (t :: ts) = Raise ValueError)
          by congruence.
        destruct (sort_tags_Raise_inv _ Es') as [t' [part [Ht [Hp Hi]]]].
        exists code, out, t', part. rewrite El. now repeat split.
      * intros [code' [out' [t [part [H [Ht [Hp Hi]]]]]]].
        inversion H; subst out'.
        destruct (Py.splitlines out) as [|t0 ts]; [contradiction|].
        now rewrite (sort_tags_Raise (t0 :: ts) t part Ht Hp Hi).
    + split; [discriminate | intros [code' [out [t [part [H _]]]]]; discriminate H].
  - intros x. rewrite get_last_tag_answer.
    destruct (env_git e _) as [|code [out|]].
    + intros H. inversion H. auto.
    + destruct (Py.splitlines out) as [|t ts]; [discriminate|].
      destruct (sort_tags_outcome (t :: ts)) as [[sorted ->] | ->];
        [discriminate|]. intros H. inversion H. auto.
    + intros H. inversion H. auto.
  - rewrite get_last_tag_answer.
    destruct (env_git e _) as [|code [out|]]; try discriminate.
    destruct (Py.splitlines out) as [|t ts]; [discriminate|].
    destruct (sort_tags_outcome (t :: ts)) as [[sorted ->] | ->]; discriminate.
  - intros code H. rewrite get_last_tag_answer, H. reflexivity.
  - intros fuel x last_frida_tag Hup Hloc. unfold Main.main.
    rewrite (get_last_frida_tag_Return e _ Hup).
    unfold Util.get_last_project_tag. rewrite Hloc. reflexivity.
  - intros fuel x last_frida_tag last_project_tag Hup Hloc E Hnext.
    unfold Main.main.
    rewrite (get_last_frida_tag_Return e _ Hup),
      (get_last_project_tag_Return e _ Hloc).
    cbn [bind app].
    rewrite (release_decision_release _ _ _ _ _ E), Hnext. reflexivity.
  - intros fuel x current_tag H. now apply (next_revision_Raise fuel).
  - intros fuel x current_tag H. unfold Util.get_next_revision.
    cbn [Util.get_next_revision_from]. fold (revision current_tag 1).
    now rewrite H.
Qed.

Lemma get_last_tag_git_failure_witness :
  env_git not_a_repository (["tag"; "-l"] ++ [])%list = Completed 128 (Utf8 "") /\
  Util.get_last_tag not_a_repository [] = Return "" /\
  Util.get_last_tag (github_env "16.1.4" ["16.1.3-1"; "nightly"]) []
  = Raise ValueError /\
  Main.main 1 (github_env "16.1.4" ["16.1.3-1"; "nightly"])
  = (Raise ValueError, [Print "Last frida tag: 16.1.4"]).
Proof.
  split; [reflexivity|]. split; [|split].
  - exact (proj1 (proj2 (proj2 (proj2 (proj2 (proj2
             (get_last_tag_git_failure not_a_repository []))))))
             128%Z eq_refl).
  - apply (proj2 (proj1 (proj2 (proj2
             (get_last_tag_git_failure
                (github_env "16.1.4" ["16.1.3-1"; "nightly"]) []))))).
    exists 0%Z, ("16.1.3-1" ++ nl ++ "nightly" ++ nl), "nightly", "nightly".
    split; [reflexivity|]. split; [right; left; reflexivity|].
    split; [left; reflexivity | reflexivity].
  - exact (proj1 (proj2 (proj2 (proj2 (proj2 (proj2 (proj2
             (get_last_tag_git_failure
                (github_env "16.1.4" ["16.1.3-1"; "nightly"]) [])))))))
             1%nat ValueError "16.1.4" eq_refl eq_refl).
Defined.

(** C8, as the claim has it, fails: where the working directory is no
    repository git exits with code 128 and prints no tag, and the lookup
    returns the empty string; it raises nothing. *)
Lemma get_last_tag_not_a_repository :
  env_git not_a_repository ["tag"; "-l"] = Completed 128 (Utf8 "") /\
  Util.get_last_tag not_a_repository [] = Return "" /\
  fst (Util.get_last_project_tag not_a_repository) = Return "".
Proof. repeat split. Qed.

(** * util.py: sorting tags *)

(** ** The order of the keys *)

Lemma list_lt_spec a : forall b, Py.list_lt a b = true <-> lex_lt a b.
Proof.
  induction a as [|x a IH]; intros [|y b]; simpl.
  - split; [discriminate | inversion 1].
  - split; [constructor | reflexivity].
  - split; [discriminate | inversion 1].
  - destruct (Z.eqb_spec x y) as [-> | Hne].
    + rewrite IH. split; [now constructor|].
      inversion 1; subst; [lia | assumption].
    + rewrite Z.ltb_lt. split; [now constructor|].
      inversion 1; subst; [assumption | now elim Hne].
Qed.

Lemma list_lt_asym a : forall b, Py.list_lt a b = true -> Py.list_lt b a = false.
Proof.
  induction a as [|x a IH]; intros [|y b]; simpl; try easy.
  destruct (Z.eqb_spec x y) as [-> | Hne].
  - rewrite Z.eqb_refl. apply IH.
  - destruct (Z.eqb_spec y x) as [-> | _]; [now elim Hne|].
    rewrite Z.ltb_lt, Z.ltb_ge. lia.
Qed.

Lemma list_lt_negtrans a : forall b c,
  Py.list_lt a c = true -> Py.list_lt a b = true \/ Py.list_lt b c = true.
Proof.
  induction a as [|x a IH]; intros [|y b] [|z c]; simpl; try easy; auto.
  destruct (Z.eqb_spec x z), (Z.eqb_spec x y), (Z.eqb_spec y z); subst;
    rewrite ?Z.ltb_lt; try contradiction; try apply IH; auto; lia.
Qed.

(** ** The stable sort *)

Section SortFacts.

Context {A K : Type} (lt : K -> K -> bool).
Hypothesis lt_asym : forall a b, lt a b = true -> lt b a = false.
Hypothesis lt_negtrans :
  forall a b c, lt a c = true -> lt a b = true \/ lt b c = true.

(** [p] may stand before [q]: the key of [q] is not smaller. *)
Let before (p q : K * A) : Prop := lt (fst q) (fst p) = false.

Lemma before_trans p q r : before p q -> before q r -> before p r.
Proof.
  unfold before. intros Hpq Hqr. apply not_true_is_false. intros H.
  destruct (lt_negtrans _ (fst q) _ H) as [H' | H']; congruence.
Qed.

Lemma insert_perm (x : K * A) l : Permutation (x :: l) (Py.insert lt x l).
Proof.
  induction l as [|y l IH]; simpl; [reflexivity|].
  destruct (lt (fst y) (fst x)); [|reflexivity].
  rewrite perm_swap. now constructor.
Qed.

Lemma insert_sorted (x : K * A) l :
  StronglySorted before l -> StronglySorted before (Py.insert lt x l).
Proof.
  induction 1 as [|y l Hl IH Hy]; simpl.
  - repeat constructor.
  - destruct (lt (fst y) (fst x)) eqn:E.
    + constructor; [exact IH|].
      apply (Permutation_Forall (insert_perm x l)).
      constructor; [exact (lt_asym _ _ E) | exact Hy].
    + constructor; [now constructor|].
      constructor; [exact E|].
      revert Hy. apply Forall_impl. intros z. now apply before_trans.
Qed.

Lemma sort_decorated_perm (l : list (K * A)) :
  Permutation l (Py.sort_decorated lt l).
Proof.
  induction l as [|x l IH]; simpl; [reflexivity|].
  rewrite <- insert_perm. now constructor.
Qed.

Lemma sort_decorated_sorted (l : list (K * A)) :
  StronglySorted before (Py.sort_decorated lt l).
Proof.
  induction l as [|x l IH]; simpl; [constructor | now apply insert_sorted].
Qed.

End SortFacts.

(** The sorted tags, read off the sorted pairs of key and tag. *)
Lemma sorted_tags_of_pairs (l : list (list Z * string)) :
  Forall (fun p => fst p = components (snd p)) l ->
  StronglySorted (fun p q => Py.list_lt (fst q) (fst p) = false) l ->
  StronglySorted version_le (map snd l).
Proof.
  intros Hk Hs. induction Hs as [|p l Hl IH Hp]; simpl; [constructor|].
  inversion Hk as [|? ? Hkp Hkl]; subst.
  constructor; [now apply IH|].
  apply Forall_map. apply Forall_forall. intros q Hq.
  unfold version_le, version_lt. intros Hlt.
  apply list_lt_spec in Hlt.
  rewrite <- Hkp, <- (proj1 (Forall_forall _ _) Hkl q Hq) in Hlt.
  rewrite (proj1 (Forall_forall _ _) Hp q Hq) in Hlt. discriminate.
Qed.

(** C4. [sort_tags] on tags whose components are all numeric: it
    returns, and what it returns is the tags it was given, in an order
    where no tag stands before one that is smaller by numeric comparison
    of the components, left to right.  The three tags of the
    specification come out as ["1.2"], ["1.9"], ["1.10"], where the order
    of strings has ["1.10"] before ["1.2"]. *)
Theorem sort_tags_numeric :
  (forall tags : list string,
      Forall version_tag tags ->
      exists sorted,
        Util.sort_tags tags = Return sorted /\
        Permutation tags sorted /\
        StronglySorted version_le sorted) /\
  Util.sort_tags ["1.2"; "1.10"; "1.9"] = Return ["1.2"; "1.9"; "1.10"] /\
  String.ltb "1.10" "1.2" = true /\
  version_lt "1.2" "1.10".
Proof.
  split; [|split; [reflexivity | split; [reflexivity|]]].
  - intros tags Hv. unfold Util.sort_tags, Py.sort_by_key.
    rewrite (omap_Return _ (fun x => (components x, x))).
    + cbn [obind]. eexists. split; [reflexivity|]. split.
      * rewrite <- (sort_decorated_perm Py.list_lt).
        rewrite map_map. cbn [snd]. now rewrite map_id.
      * apply sorted_tags_of_pairs.
        -- apply (Permutation_Forall (sort_decorated_perm Py.list_lt _)).
           apply Forall_map. now apply Forall_forall.
        -- apply sort_decorated_sorted;
             [apply list_lt_asym | apply list_lt_negtrans].
    + intros x Hx.
      now rewrite (tag_key_version x (proj1 (Forall_forall _ _) Hv x Hx)).
  - apply list_lt_spec. reflexivity.
Qed.

Lemma sort_tags_numeric_witness :
  Forall version_tag ["16.1.4-2"; "16.1.4-10"; "16.1.3-1"] /\
  exists sorted,
    Util.sort_tags ["16.1.4-2"; "16.1.4-10"; "16.1.3-1"] = Return sorted /\
    Permutation ["16.1.4-2"; "16.1.4-10"; "16.1.3-1"] sorted /\
    StronglySorted version_le sorted.
Proof.
  assert (H : Forall version_tag ["16.1.4-2"; "16.1.4-10"; "16.1.3-1"])
    by (repeat constructor; discriminate).
  split; [exact H|].
  exact (proj1 sort_tags_numeric ["16.1.4-2"; "16.1.4-10"; "16.1.3-1"] H).
Defined.

(** * build.py: the version code *)

Lemma append_empty_r (s : string) : s ++ "" = s.
Proof. induction s as [|c s IH]; simpl; [reflexivity | now rewrite IH]. Qed.

Lemma length_append (a b : string) :
  String.length (a ++ b) = (String.length a + String.length b)%nat.
Proof. induction a as [|c a IH]; simpl; [reflexivity | now rewrite IH]. Qed.

Lemma concat_empty_cons (x : string) (l : list string) :
  String.concat "" (x :: l) = x ++ String.concat "" l.
Proof. destruct l; simpl; [now rewrite append_empty_r | reflexivity]. Qed.

Lemma digit_value_range c : Py.is_digit c = true -> (0 <= Py.digit_value c <= 9)%Z.
Proof. unfold Py.is_digit, Py.digit_value. intros H. leb_cases. Qed.

Lemma digits_val_app a b acc : digits_val (a ++ b) acc = digits_val b (digits_val a acc).
Proof. revert acc. induction a as [|c a IH]; intros acc; simpl; auto. Qed.

Lemma digits_val_nonneg s : forall acc,
  all_digits s = true -> (0 <= acc)%Z -> (0 <= digits_val s acc)%Z.
Proof.
  induction s as [|c s IH]; intros acc Hd Hacc; cbn [digits_val]; [exact Hacc|].
  simpl in Hd. apply andb_true_iff in Hd as [Hc Hs].
  apply IH; [exact Hs|]. pose proof (digit_value_range c Hc). lia.
Qed.

Lemma number_of_nonneg s : numeric s -> (0 <= number_of s)%Z.
Proof. intros [Hd _]. apply digits_val_nonneg; [exact Hd | lia]. Qed.

(** The split of a version string is the list of its components. *)
Lemma split_join_version rest : forall first,
  numeric first -> well_separated rest ->
  Py.re_split_dot_dash (join_version first rest) = first :: map snd rest.
Proof.
  induction rest as [|[sep c] rest IH]; intros first Hf Hr; simpl.
  - now apply split_numeric.
  - inversion Hr as [|? ? [Hsep Hc] Hr']; subst. simpl in Hsep, Hc.
    unfold Py.re_split_dot_dash.
    rewrite (split_where_app Py.dot_or_dash first sep _ Hsep).
    fold (Py.re_split_dot_dash first).
    fold (Py.re_split_dot_dash (join_version c rest)).
    now rewrite (split_numeric first Hf), (IH c Hc Hr').
Qed.

Lemma join_version_tag first rest :
  numeric first -> well_separated rest -> version_tag (join_version first rest).
Proof.
  intros Hf Hr. unfold version_tag. rewrite (split_join_version rest first Hf Hr).
  constructor; [exact Hf|]. apply Forall_map. revert Hr. apply Forall_impl.
  now intros p [_ Hp].
Qed.

(** One digit is written for the numbers below ten, and for no other. *)
Lemma str_short n :
  (0 <= n)%Z -> (String.length (Py.str n) <? 2)%nat = (n <? 10)%Z.
Proof.
  intros Hn. destruct (Z.ltb_spec n 10) as [Hlt | Hge].
  - replace n with (Z.of_nat (Z.to_nat n)) by lia.
    assert (Hk : (Z.to_nat n < 10)%nat) by lia. revert Hk.
    generalize (Z.to_nat n) as k. intros k Hk.
    do 10 (destruct k as [|k]; [reflexivity|]). lia.
  - destruct (str_nonneg n Hn) as [[Hd Hne] Hv].
    destruct (Py.str n) as [|c [|c' s]]; [now elim Hne | | reflexivity].
    simpl in Hd. apply andb_true_iff in Hd as [Hc _].
    pose proof (digit_value_range c Hc). unfold number_of in Hv.
    cbn [digits_val] in Hv. lia.
Qed.

Lemma format_02d_zero_pad2 n : (0 <= n)%Z -> Py.format_02d n = zero_pad2 n.
Proof. intros Hn. unfold Py.format_02d, zero_pad2. now rewrite (str_short n Hn). Qed.

Lemma zero_pad2_numeric n : (0 <= n)%Z -> numeric (zero_pad2 n).
Proof.
  intros Hn. destruct (str_nonneg n Hn) as [[Hd Hne] _]. unfold zero_pad2.
  destruct (n <? 10)%Z; split; simpl; try assumption; discriminate.
Qed.

Lemma concat_numeric (l : list string) :
  l <> [] -> Forall numeric l -> numeric (String.concat "" l).
Proof.
  induction l as [|x l IH]; intros Hne Hl; [now elim Hne|].
  inversion Hl as [|? ? [Hd Hx] Hl']; subst. rewrite concat_empty_cons.
  split.
  - unfold all_digits. rewrite string_forall_app. apply andb_true_iff.
    split; [exact Hd|]. destruct l as [|y l]; [reflexivity|].
    apply IH; [discriminate | exact Hl'].
  - destruct x; [now elim Hx | discriminate].
Qed.

(** Two digits make one digit in base 100. *)
Lemma zero_pad2_base100 n acc :
  (0 <= n < 100)%Z -> digits_val (zero_pad2 n) acc = (100 * acc + n)%Z.
Proof.
  intros Hn. replace n with (Z.of_nat (Z.to_nat n)) by lia.
  assert (Hk : (Z.to_nat n < 100)%nat) by lia. revert Hk.
  generalize (Z.to_nat n) as k. intros k Hk.
  do 100 (destruct k as [|k];
          [vm_compute zero_pad2; cbn [digits_val];
           repeat match goal with
                  | |- context [Py.digit_value ?c] =>
                      let v := eval vm_compute in (Py.digit_value c) in
                      change (Py.digit_value c) with v
                  end; lia|]).
  lia.
Qed.

Lemma digits_val_concat_base100 ns : forall acc,
  Forall (fun n => 0 <= n < 100)%Z ns ->
  digits_val (String.concat "" (map zero_pad2 ns)) acc
  = fold_left (fun a n => 100 * a + n)%Z ns acc.
Proof.
  induction ns as [|n ns IH]; intros acc H; [reflexivity|].
  inversion H; subst. cbn [map fold_left]. rewrite concat_empty_cons, digits_val_app.
  rewrite zero_pad2_base100 by assumption. now apply IH.
Qed.

Lemma version_code_of_components first rest :
  numeric first -> well_separated rest ->
  Build.generate_version_code (join_version first rest)
  = Return (number_of
              (String.concat "" (map zero_pad2 (component_values first rest)))).
Proof.
  intros Hf Hr. unfold Build.generate_version_code, component_values.
  rewrite (split_join_version rest first Hf Hr).
  assert (Hall : Forall numeric (first :: map snd rest)).
  { constructor; [exact Hf|]. apply Forall_map. revert Hr. apply Forall_impl.
    now intros p [_ Hp]. }
  rewrite (omap_Return _ (fun c => zero_pad2 (number_of c))).
  - cbn [obind]. rewrite <- (map_map number_of zero_pad2).
    apply int_numeric. apply concat_numeric; [discriminate|].
    apply Forall_map. apply Forall_map. revert Hall. apply Forall_impl.
    intros c Hc. apply zero_pad2_numeric. now apply number_of_nonneg.
  - intros c Hc. pose proof (proj1 (Forall_forall _ _) Hall c Hc) as Hn.
    rewrite (int_numeric c Hn). cbn [obind].
    now rewrite (format_02d_zero_pad2 _ (number_of_nonneg c Hn)).
Qed.

(** C5. The version code of a version string of numeric components,
    separated by dots and dashes: the string is split at the separators,
    the number of each component is written with two digits at least, a
    zero in front of a single digit, the pieces are put together and
    read as one number.  With every component below 100 that number has
    the components as its digits in base 100.  ["16.1.4"] gives 160104
    and ["1.2.33"] gives 10233, the number ["010233"] writes; a
    component of three digits keeps its three digits. *)
Theorem version_code_encoding :
  (forall (first : string) (rest : list (ascii * string)),
      numeric first -> well_separated rest ->
      Build.generate_version_code (join_version first rest)
      = Return (number_of
                  (String.concat "" (map zero_pad2 (component_values first rest))))
      /\ Py.re_split_dot_dash (join_version first rest) = first :: map snd rest
      /\ (Forall (fun n => n < 100)%Z (component_values first rest) ->
          Build.generate_version_code (join_version first rest)
          = Return (base100 (component_values first rest)))) /\
  Build.generate_version_code "16.1.4" = Return 160104%Z /\
  Build.generate_version_code "1.2.33" = Return 10233%Z /\
  number_of "010233" = 10233%Z /\
  Build.generate_version_code "16.100.4" = Return 1610004%Z.
Proof.
  split; [|repeat split; reflexivity].
  intros first rest Hf Hr.
  split; [now apply version_code_of_components|].
  split; [now apply split_join_version|].
  intros Hsmall. rewrite (version_code_of_components first rest Hf Hr).
  f_equal. unfold number_of, base100. apply digits_val_concat_base100.
  unfold component_values in *.
  assert (Hall : Forall numeric (first :: map snd rest)).
  { constructor; [exact Hf|]. apply Forall_map. revert Hr. apply Forall_impl.
    now intros p [_ Hp]. }
  apply Forall_map. apply Forall_forall. intros c Hc. split.
  - apply number_of_nonneg. exact (proj1 (Forall_forall _ _) Hall c Hc).
  - apply (proj1 (Forall_forall _ _) Hsmall). now apply in_map.
Qed.

Lemma version_code_encoding_witness :
  numeric "16" /\ well_separated [("."%char, "1"); ("."%char, "4"); ("-"%char, "2")] /\
  Build.generate_version_code
    (join_version "16" [("."%char, "1"); ("."%char, "4"); ("-"%char, "2")])
  = Return (base100 [16; 1; 4; 2]%Z).
Proof.
  assert (Hf : numeric "16") by (split; [reflexivity | discriminate]).
  assert (Hr : well_separated [("."%char, "1"); ("."%char, "4"); ("-"%char, "2")])
    by (repeat constructor; discriminate).
  split; [exact Hf|]. split; [exact Hr|].
  apply (proj1 version_code_encoding "16" _ Hf Hr).
  repeat constructor.
Defined.

(** * build.py: a task that fails *)

Lemma perform_ok e ef : env_fails e ef = None -> perform e ef = (Return tt, [ef]).
Proof. unfold perform. now intros ->. Qed.

(** The effects of all the tasks are there, whatever their outcomes. *)
Lemma join_futures_effects (l : list (M unit)) :
  snd (Build.join_futures l) = concat (map snd l).
Proof.
  induction l as [|[o t] l IH]; [reflexivity|].
  cbn [Build.join_futures map concat snd].
  destruct (Build.join_futures l) as [o' t']. cbn [snd] in *. now rewrite IH.
Qed.

(** The first task that did not return decides. *)
Lemma join_futures_first (before after : list (M unit)) (m : M unit) :
  Forall (fun r => fst r = Return tt) before ->
  (forall u, fst m <> Return u) ->
  fst (Build.join_futures (before ++ m :: after)) = fst m.
Proof.
  intros Hb Hm. induction Hb as [|[o t] before Ho Hb IH]; cbn [app Build.join_futures].
  - destruct m as [o t]. destruct (Build.join_futures after) as [o' t'].
    cbn [fst] in *. destruct o as [u| |]; [now elim (Hm u) | reflexivity..].
  - cbn [fst] in Ho. subst o. rewrite <- IH. unfold M in *.
    now destruct (Build.join_futures _).
Qed.

(** Among tasks of which one did not return, there is a first one. *)
Lemma first_failure {A : Type} (task : A -> M unit) (l : list A) a :
  In a l -> (forall u, fst (task a) <> Return u) ->
  exists before a' after,
    l = (before ++ a' :: after)%list /\
    Forall (fun b => fst (task b) = Return tt) before /\
    (forall u, fst (task a') <> Return u).
Proof.
  intros Hin Ha. induction l as [|b l IH]; [contradiction|].
  destruct (fst (task b)) as [[]| |] eqn:Eb.
  - destruct Hin as [-> | Hin]; [now elim (Ha tt)|].
    destruct (IH Hin) as [before [a' [after [-> [Hb Ha']]]]].
    exists (b :: before), a', after. repeat split; auto.
  - exists [], b, l. repeat split; auto. intros u. rewrite Eb. discriminate.
  - exists [], b, l. repeat split; auto. intros u. rewrite Eb. discriminate.
Qed.

Lemma requests_get_ok_ends e url : requests_get_ok e url <> Diverge.
Proof.
  unfold requests_get_ok. destruct (env_http_get e url); [|discriminate].
  destruct (_ && _); discriminate.
Qed.

(** ** What holds of a computation, step by step *)

Lemma bind_ends {A B : Type} (m : M A) (k : A -> M B) :
  fst m <> Diverge -> (forall a, fst (k a) <> Diverge) -> fst (bind m k) <> Diverge.
Proof.
  intros Hm Hk. destruct m as [[a|x|] t]; cbn [bind fst] in *.
  - specialize (Hk a). now destruct (k a).
  - discriminate.
  - now elim Hm.
Qed.

Lemma bind_effects {A B : Type} (P : effect -> Prop) (m : M A) (k : A -> M B) :
  Forall P (snd m) -> (forall a, Forall P (snd (k a))) -> Forall P (snd (bind m k)).
Proof.
  intros Hm Hk. destruct m as [[a|x|] t]; cbn [bind snd] in *; try exact Hm.
  specialize (Hk a). destruct (k a) as [o t']. apply Forall_app. now split.
Qed.

Lemma perform_ends e ef : fst (perform e ef) <> Diverge.
Proof. unfold perform. destruct (env_fails e ef); discriminate. Qed.

Lemma perform_effects (P : effect -> Prop) e ef :
  P ef -> Forall P (snd (perform e ef)).
Proof. intros H. unfold perform. destruct (env_fails e ef); repeat constructor; auto. Qed.

Ltac step_ends :=
  repeat first
    [ apply bind_ends; [|intros ?]
    | apply perform_ends
    | apply requests_get_ok_ends
    | discriminate ].

Ltac step_effects :=
  repeat first
    [ apply bind_effects; [|intros ?]
    | apply perform_effects
    | apply Forall_nil
    | apply Forall_cons ].

(** A task ends: it returns or it raises. *)
Lemma fill_module_ends e arch frida_tag project_tag :
  fst (Build.fill_module e arch frida_tag project_tag) <> Diverge.
Proof.
  unfold Build.fill_module, Build.download_file, Build.extract_file.
  step_ends.
  - destruct (env_exists e _); step_ends.
  - destruct (env_lzma_read e _); step_ends.
Qed.

Lemma fill_module_effects e arch frida_tag project_tag :
  Forall (task_effect e) (snd (Build.fill_module e arch frida_tag project_tag)).
Proof.
  unfold Build.fill_module, Build.download_file, Build.extract_file.
  step_effects; try exact I.
  - destruct (env_exists e _); step_effects; try exact I.
    cbn [task_effect]. left. eauto.
  - destruct (env_lzma_read e _); step_effects; try exact I.
    cbn [task_effect]. right. eauto.
Qed.

Lemma create_module_effects e project_tag :
  Forall (setup_effect e) (snd (Build.create_module e project_tag)).
Proof.
  unfold Build.create_module, Build.create_module_prop.
  step_effects; try exact I; try reflexivity.
  destruct (env_exists e _); step_effects. exact I.
Qed.

Lemma updater_not_download e f :
  updater_json e <> joinpath (Build.PATH_DOWNLOADS e) f.
Proof.
  unfold updater_json, joinpath, Build.PATH_DOWNLOADS, Build.PATH_BUILD, joinpath.
  intros H. apply app_inj_tail in H as [H _]. apply app_inv_head in H.
  discriminate.
Qed.

Lemma updater_not_staged e f :
  updater_json e <> joinpath (joinpath (Build.PATH_BUILD_TMP e) "files") f.
Proof.
  unfold updater_json, Build.PATH_BUILD_TMP, joinpath. intros H.
  apply app_inj_tail in H as [H _]. apply (f_equal (@List.length string)) in H.
  rewrite !length_app in H. simpl in H. lia.
Qed.

Lemma updater_not_module_prop e :
  updater_json e <> joinpath (Build.PATH_BUILD_TMP e) "module.prop".
Proof.
  unfold updater_json, Build.PATH_BUILD_TMP, joinpath. intros H.
  apply app_inj_tail in H as [H _]. apply (f_equal (@List.length string)) in H.
  rewrite !length_app in H. simpl in H. lia.
Qed.

Lemma task_effect_quiet e ef :
  task_effect e ef ->
  ~ is_archive_effect ef /\ ~ writes (updater_json e) ef /\ ~ is_removal ef.
Proof.
  destruct ef; cbn; intros H; try contradiction; repeat split; auto;
    intros [d Hd]; try discriminate.
  inversion Hd; subst. destruct H as [[f H] | [f H]];
    [now apply updater_not_download in H | now apply updater_not_staged in H].
Qed.

Lemma setup_effect_quiet e ef :
  setup_effect e ef -> ~ is_archive_effect ef /\ ~ writes (updater_json e) ef.
Proof.
  destruct ef; cbn; intros H; try contradiction; split; auto;
    intros [d Hd]; try discriminate.
  inversion Hd as [[Hp Hdata]]. rewrite Hp in H.
  now apply updater_not_module_prop in H.
Qed.

Lemma task_effects_all e frida_tag project_tag :
  Forall (task_effect e) (task_effects e frida_tag project_tag).
Proof.
  unfold task_effects. apply Forall_concat. apply Forall_map.
  apply Forall_forall. intros arch _. apply fill_module_effects.
Qed.

(** The build when a task did not return: what was done before the
    tasks, what the tasks did, and the exception of the first of them
    that raised. *)
Lemma do_build_failed e frida_tag project_tag x :
  env_fails e (Mkdir (Build.PATH_DOWNLOADS e) true true) = None ->
  env_fails e (Mkdir (Build.PATH_BUILD e) true true) = None ->
  fst (Build.create_module e project_tag) = Return tt ->
  fst (Build.join_futures
         (map (fun arch => Build.fill_module e arch frida_tag project_tag)
              (env_as_completed e Build.archs))) = Raise x ->
  Build.do_build e frida_tag project_tag
  = (Raise x,
     ([Mkdir (Build.PATH_DOWNLOADS e) true true; Mkdir (Build.PATH_BUILD e) true true]
        ++ snd (Build.create_module e project_tag)
        ++ task_effects e frida_tag project_tag)%list).
Proof.
  intros H1 H2 Hcm Hjf. unfold Build.do_build, task_effects.
  rewrite (perform_ok _ _ H1), (perform_ok _ _ H2).
  rewrite <- (map_map (fun arch => Build.fill_module e arch frida_tag project_tag) snd).
  rewrite <- join_futures_effects.
  destruct (Build.create_module e project_tag) as [ocm tcm].
  destruct (Build.join_futures _) as [ojf tjf].
  cbn [fst snd] in *. subst ocm ojf. reflexivity.
Qed.

(** C6. A task of [fill_module] that raises aborts the build.  Once the
    directories and the staging tree are set up, if the task of some
    architecture raises, [do_build] raises the exception of the first
    task that raised, in the order the tasks complete.  The build has
    then done what it did before the tasks and what the tasks did, and
    nothing after: the archive is not opened, written or closed, the
    update-metadata document is not written, and nothing the tasks left
    in the staging tree and the download cache is removed. *)
Theorem build_aborts_on_task_failure (e : Env)
    (frida_tag project_tag arch : string) (x : exn) :
  Permutation (env_as_completed e Build.archs) Build.archs ->
  env_fails e (Mkdir (Build.PATH_DOWNLOADS e) true true) = None ->
  env_fails e (Mkdir (Build.PATH_BUILD e) true true) = None ->
  fst (Build.create_module e project_tag) = Return tt ->
  In arch Build.archs ->
  fst (Build.fill_module e arch frida_tag project_tag) = Raise x ->
  exists before failed after x',
    env_as_completed e Build.archs = (before ++ failed :: after)%list /\
    Forall (fun a => fst (Build.fill_module e a frida_tag project_tag) = Return tt)
           before /\
    fst (Build.fill_module e failed frida_tag project_tag) = Raise x' /\
    fst (Build.do_build e frida_tag project_tag) = Raise x' /\
    snd (Build.do_build e frida_tag project_tag)
    = ([Mkdir (Build.PATH_DOWNLOADS e) true true; Mkdir (Build.PATH_BUILD e) true true]
         ++ snd (Build.create_module e project_tag)
         ++ task_effects e frida_tag project_tag)%list /\
    Forall (fun ef => ~ is_archive_effect ef /\ ~ writes (updater_json e) ef)
           (snd (Build.do_build e frida_tag project_tag)) /\
    Forall (fun ef => ~ is_removal ef) (task_effects e frida_tag project_tag).
Proof.
  intros Hperm H1 H2 Hcm Hin Hfail.
  set (task := fun a => Build.fill_module e a frida_tag project_tag).
  assert (Hin' : In arch (env_as_completed e Build.archs))
    by (apply (Permutation_in _ (Permutation_sym Hperm)); exact Hin).
  destruct (first_failure task _ arch Hin') as [before [failed [after [Ho [Hb Hf]]]]].
  { intros u. unfold task. rewrite Hfail. discriminate. }
  pose proof (fill_module_ends e failed frida_tag project_tag) as Hends.
  destruct (fst (task failed)) as [u|x'|] eqn:Ex;
    [now elim (Hf u) | | now elim Hends].
  assert (Hjf : fst (Build.join_futures (map task (env_as_completed e Build.archs)))
                = Raise x').
  { rewrite Ho, map_app. cbn [map]. rewrite join_futures_first.
    - exact Ex.
    - apply Forall_map. exact Hb.
    - intros u. rewrite Ex. discriminate. }
  pose proof (do_build_failed e frida_tag project_tag x' H1 H2 Hcm Hjf) as Hbuild.
  exists before, failed, after, x'.
  split; [exact Ho|]. split; [exact Hb|]. split; [exact Ex|].
  rewrite Hbuild. cbn [fst snd].
  split; [reflexivity|]. split; [reflexivity|].
  pose proof (task_effects_all e frida_tag project_tag) as Htasks.
  split.
  - repeat (apply Forall_cons;
            [split; [intros [] | intros [d Hd]; discriminate]|]).
    apply Forall_app. split.
    + generalize (create_module_effects e project_tag). apply Forall_impl.
      apply setup_effect_quiet.
    + revert Htasks. apply Forall_impl. intros ef Hef.
      destruct (task_effect_quiet e ef Hef) as [Ha [Hw _]]. now split.
  - revert Htasks. apply Forall_impl. intros ef Hef.
    now destruct (task_effect_quiet e ef Hef) as [_ [_ Hr]].
Qed.

Lemma build_aborts_on_task_failure_witness :
  Permutation (env_as_completed (repo_env []) Build.archs) Build.archs /\
  fst (Build.create_module (repo_env []) "16.1.4-1") = Return tt /\
  fst (Build.fill_module (repo_env []) "arm" "16.1.4" "16.1.4-1")
  = Raise ConnectionError /\
  exists before failed after x',
    env_as_completed (repo_env []) Build.archs = (before ++ failed :: after)%list /\
    Forall (fun a => fst (Build.fill_module (repo_env []) a "16.1.4" "16.1.4-1")
                     = Return tt) before /\
    fst (Build.fill_module (repo_env []) failed "16.1.4" "16.1.4-1") = Raise x' /\
    fst (Build.do_build (repo_env []) "16.1.4" "16.1.4-1") = Raise x' /\
    snd (Build.do_build (repo_env []) "16.1.4" "16.1.4-1")
    = ([Mkdir (Build.PATH_DOWNLOADS (repo_env [])) true true;
        Mkdir (Build.PATH_BUILD (repo_env [])) true true]
         ++ snd (Build.create_module (repo_env []) "16.1.4-1")
         ++ task_effects (repo_env []) "16.1.4" "16.1.4-1")%list /\
    Forall (fun ef => ~ is_archive_effect ef /\ ~ writes (updater_json (repo_env [])) ef)
           (snd (Build.do_build (repo_env []) "16.1.4" "16.1.4-1")) /\
    Forall (fun ef => ~ is_removal ef) (task_effects (repo_env []) "16.1.4" "16.1.4-1").
Proof.
  split; [apply Permutation_refl|].
  split; [reflexivity|]. split; [reflexivity|].
  apply (build_aborts_on_task_failure (repo_env []) "16.1.4" "16.1.4-1" "arm"
           ConnectionError).
  - apply Permutation_refl.
  - reflexivity.
  - reflexivity.
  - reflexivity.
  - left. reflexivity.
  - reflexivity.
Defined.

(** * util.py: the base version of a tag *)

Lemma strip_revision_app a b :
  contains "-" a = false -> Util.strip_revision (a ++ String "-" b) = a.
Proof.
  unfold Util.strip_revision. induction a as [|c a IH]; intros H; [reflexivity|].
  simpl in H. apply orb_false_iff in H as [Hc Ha]. specialize (IH Ha).
  cbn [append Py.str_split]. rewrite Hc.
  destruct (Py.str_split "-" 1 (a ++ String "-" b)) as [|p r]; simpl in *;
    now subst.
Qed.

Lemma contains_split c s :
  contains c s = true ->
  exists a b, s = a ++ String c b /\ contains c a = false.
Proof.
  induction s as [|x s IH]; simpl; [discriminate|].
  destruct (Ascii.eqb_spec x c) as [-> | Hne]; simpl.
  - intros _. now exists "", s.
  - intros H. destruct (IH H) as [a [b [-> Ha]]].
    exists (String x a), b. split; [reflexivity|]. simpl.
    apply Ascii.eqb_neq in Hne. now rewrite Hne.
Qed.

(** X1. [strip_revision] cuts at the first dash: the result holds no
    dash; a tag without dash is returned as it is; a tag with a dash is
    the result, a dash, and a rest that is dropped whatever it holds. *)
Theorem strip_revision_first_dash (v : string) :
  contains "-" (Util.strip_revision v) = false /\
  (contains "-" v = false -> Util.strip_revision v = v) /\
  (contains "-" v = true ->
   exists rest, v = Util.strip_revision v ++ "-" ++ rest) /\
  (forall a rest, contains "-" a = false ->
                  Util.strip_revision (a ++ "-" ++ rest) = a).
Proof.
  split; [apply (str_split_hd "-" 0)|]. split; [|split].
  - intros H. unfold Util.strip_revision. now rewrite (str_split_no_sep "-" 1 v H).
  - intros H. destruct (contains_split "-" v H) as [a [b [-> Ha]]].
    exists b. now rewrite (strip_revision_app a b Ha).
  - intros a rest Ha. exact (strip_revision_app a rest Ha).
Qed.

(** X2. A new tag strips back to the tag it was made for: for an
    upstream tag without dash, whatever [get_next_revision] returns has
    the upstream tag as its base version.  With that new tag as the
    local tag, the next decision sees no drift, and without the force
    flag it prints its line, keeps the sentinel and writes nothing. *)
Theorem next_revision_strips_back (fuel : nat) (e : Env)
    (last_frida_tag new_tag : string) :
  contains "-" last_frida_tag = false ->
  Util.get_next_revision fuel e last_frida_tag = Return new_tag ->
  Util.strip_revision new_tag = last_frida_tag /\
  Main.needs_update last_frida_tag new_tag = false /\
  forall fuel' e',
    Main.release_decision fuel' e' last_frida_tag new_tag false
    = (Return (false, Main.no_release), [Print "All good!"]).
Proof.
  intros Hdash Hnext.
  destruct (next_revision_shape _ _ _ _ _ Hnext) as [j ->].
  assert (Hs : Util.strip_revision (revision last_frida_tag j) = last_frida_tag)
    by (apply strip_revision_app; exact Hdash).
  assert (Hn : Main.needs_update last_frida_tag (revision last_frida_tag j) = false).
  { unfold Main.needs_update. rewrite Hs, String.eqb_refl. reflexivity. }
  split; [exact Hs|]. split; [exact Hn|].
  intros fuel' e'. rewrite release_decision_idle; rewrite Hn; reflexivity.
Qed.

Lemma next_revision_strips_back_witness :
  contains "-" "16.1.4" = false /\
  Util.get_next_revision 2 (repo_env ["16.1.4-1"]) "16.1.4" = Return "16.1.4-2" /\
  Util.strip_revision "16.1.4-2" = "16.1.4" /\
  Main.needs_update "16.1.4" "16.1.4-2" = false /\
  forall fuel' e',
    Main.release_decision fuel' e' "16.1.4" "16.1.4-2" false
    = (Return (false, Main.no_release), [Print "All good!"]).
Proof.
  split; [reflexivity|]. split; [reflexivity|].
  exact (next_revision_strips_back 2 (repo_env ["16.1.4-1"]) "16.1.4" "16.1.4-2"
           eq_refl eq_refl).
Defined.

(** * util.py: more on sorting *)



Section SortMore.

Context {A K : Type} (lt : K -> K -> bool).
Hypothesis lt_asym : forall a b, lt a b = true -> lt b a = false.

(** Pairs picked by [sel] have keys that are not smaller than one
    another: [sel] picks one key. *)
Variable sel : K * A -> bool.
Hypothesis sel_one_key :
  forall x y, sel x = true -> sel y = true -> lt (fst y) (fst x) = false.

Lemma insert_filter (x : K * A) l :
  filter sel (Py.insert lt x l) = filter sel (x :: l).
Proof.
  induction l as [|y l IH]; [reflexivity|].
  cbn [Py.insert]. destruct (lt (fst y) (fst x)) eqn:E; [|reflexivity].
  cbn [filter] in *. rewrite IH.
  destruct (sel x) eqn:Ex; destruct (sel y) eqn:Ey; try reflexivity.
  rewrite (sel_one_key x y Ex Ey) in E. discriminate.
Qed.

Lemma sort_decorated_filter (l : list (K * A)) :
  filter sel (Py.sort_decorated lt l) = filter sel l.
Proof.
  induction l as [|x l IH]; [reflexivity|].
  cbn [Py.sort_decorated]. rewrite insert_filter. cbn [filter]. now rewrite IH.
Qed.

(** A sorted list is left as it is. *)
Lemma sort_decorated_fix (l : list (K * A)) :
  StronglySorted (fun p q => lt (fst q) (fst p) = false) l ->
  Py.sort_decorated lt l = l.
Proof.
  induction 1 as [|x l Hl IH Hx]; [reflexivity|].
  cbn [Py.sort_decorated]. rewrite IH.
  destruct l as [|y l]; [reflexivity|].
  inversion Hx as [|? ? Hy _]; subst. cbn [Py.insert]. now rewrite Hy.
Qed.

End SortMore.

(** A pair of [sort_tags]: a tag with its key. *)
Lemma keyed_good tags keyed :
  omap (fun t => let? k := Util.tag_key t in Return (k, t)) tags = Return keyed ->
  Forall (fun p => Util.tag_key (snd p) = Return (fst p)) keyed /\
  map snd keyed = tags.
Proof.
  intros H. apply omap_Return_inv in H.
  induction H as [|t p tags keyed Hp H IH]; [now split|].
  destruct IH as [IH1 IH2].
  destruct (Util.tag_key t) as [k| |] eqn:Hk; cbn [obind] in Hp; try discriminate.
  inversion Hp; subst p. cbn [map snd]. split; [|now rewrite IH2].
  constructor; [exact Hk | exact IH1].
Qed.

Lemma omap_good (ps : list (list Z * string)) :
  Forall (fun p => Util.tag_key (snd p) = Return (fst p)) ps ->
  omap (fun t => let? k := Util.tag_key t in Return (k, t)) (map snd ps) = Return ps.
Proof.
  induction 1 as [|[k t] ps Hp H IH]; [reflexivity|].
  cbn [map snd omap fst] in *. rewrite Hp. cbn [obind]. now rewrite IH.
Qed.

Lemma with_key_good k (ps : list (list Z * string)) :
  Forall (fun p => Util.tag_key (snd p) = Return (fst p)) ps ->
  with_key k (map snd ps)
  = map snd (filter (fun p => if list_eq_dec Z.eq_dec k (fst p) then true else false) ps).
Proof.
  unfold with_key. induction 1 as [|[k' t] ps Hp H IH]; [reflexivity|].
  cbn [map snd filter fst] in *. unfold has_key at 1. rewrite Hp.
  destruct (list_eq_dec Z.eq_dec k k'); cbn [map snd]; now rewrite IH.
Qed.

Lemma list_lt_irrefl k : Py.list_lt k k = false.
Proof.
  destruct (Py.list_lt k k) eqn:E; [|reflexivity].
  now rewrite (list_lt_asym k k E) in E.
Qed.

(** X4. [sort_tags] keeps the tags and is stable.  Whenever it returns,
    on any tags [int] accepts the components of, the result is a
    permutation of the tags given, and the tags with one key, such as
    ["1.2"] and ["1.02"], stand in the result in the order they were
    given in. *)
Theorem sort_tags_stable (tags sorted : list string) :
  Util.sort_tags tags = Return sorted ->
  Permutation tags sorted /\
  forall k, with_key k sorted = with_key k tags.
Proof.
  rewrite sort_tags_keyed. intros H.
  destruct (omap _ tags) as [keyed| |] eqn:Ek; cbn [obind] in H; try discriminate.
  inversion H; subst sorted. clear H.
  destruct (keyed_good tags keyed Ek) as [Hgood Htags]. split.
  - rewrite <- Htags. apply Permutation_map. apply sort_decorated_perm.
  - intros k. rewrite <- Htags.
    rewrite (with_key_good k keyed Hgood).
    rewrite (with_key_good k (Py.sort_decorated Py.list_lt keyed)).
    + f_equal. apply sort_decorated_filter. intros x y Hx Hy.
      destruct (list_eq_dec Z.eq_dec k (fst x)) as [<- |]; [|discriminate].
      destruct (list_eq_dec Z.eq_dec k (fst y)) as [<- |]; [|discriminate].
      apply list_lt_irrefl.
    + apply (Permutation_Forall (sort_decorated_perm Py.list_lt keyed)). exact Hgood.
Qed.

Lemma sort_tags_stable_witness :
  Util.sort_tags ["1.10"; "1.2"; "1.02"; "1.9"; "01.2"]
  = Return ["1.2"; "1.02"; "01.2"; "1.9"; "1.10"] /\
  Permutation ["1.10"; "1.2"; "1.02"; "1.9"; "01.2"]
              ["1.2"; "1.02"; "01.2"; "1.9"; "1.10"] /\
  forall k, with_key k ["1.2"; "1.02"; "01.2"; "1.9"; "1.10"]
            = with_key k ["1.10"; "1.2"; "1.02"; "1.9"; "01.2"].
Proof.
  split; [reflexivity|].
  exact (sort_tags_stable ["1.10"; "1.2"; "1.02"; "1.9"; "01.2"]
           ["1.2"; "1.02"; "01.2"; "1.9"; "1.10"] eq_refl).
Defined.

(** X5. Sorting twice is sorting once: what [sort_tags] returns, it
    returns unchanged when given it again. *)
Theorem sort_tags_idempotent (tags sorted : list string) :
  Util.sort_tags tags = Return sorted -> Util.sort_tags sorted = Return sorted.
Proof.
  rewrite !sort_tags_keyed. intros H.
  destruct (omap _ tags) as [keyed| |] eqn:Ek; cbn [obind] in H; try discriminate.
  inversion H; subst sorted. clear H.
  destruct (keyed_good tags keyed Ek) as [Hgood _].
  rewrite omap_good.
  - cbn [obind]. rewrite sort_decorated_fix; [reflexivity|].
    apply sort_decorated_sorted; [apply list_lt_asym | apply list_lt_negtrans].
  - apply (Permutation_Forall (sort_decorated_perm Py.list_lt keyed)). exact Hgood.
Qed.

Lemma sort_tags_idempotent_witness :
  Util.sort_tags ["1.2"; "1.10"; "1.9"] = Return ["1.2"; "1.9"; "1.10"] /\
  Util.sort_tags ["1.2"; "1.9"; "1.10"] = Return ["1.2"; "1.9"; "1.10"].
Proof.
  split; [reflexivity|].
  exact (sort_tags_idempotent ["1.2"; "1.10"; "1.9"] ["1.2"; "1.9"; "1.10"] eq_refl).
Defined.

(** * util.py: the latest local tag *)

Lemma splitlines_cons_line p rest :
  string_forall (fun c => negb (Py.is_linebreak c)) p = true ->
  Py.splitlines (p ++ nl ++ rest) = p :: Py.splitlines rest.
Proof.
  induction p as [|c p IH]; intros H.
  - change ("" ++ nl ++ rest) with (String Py.LF rest).
    destruct rest as [|c' s'']; reflexivity.
  - simpl in H. apply andb_true_iff in H as [Hc Hp]. apply negb_true_iff in Hc.
    change (String c p ++ nl ++ rest) with (String c (p ++ nl ++ rest)).
    cbn [Py.splitlines]. rewrite Hc. now rewrite (IH Hp).
Qed.

Lemma append_assoc (a b c : string) : (a ++ b) ++ c = a ++ b ++ c.
Proof. induction a as [|x a IH]; simpl; [reflexivity | now rewrite IH]. Qed.

(** Lines are read back as they were printed. *)
Lemma splitlines_tag_lines lines :
  Forall (fun p => string_forall (fun c => negb (Py.is_linebreak c)) p = true) lines ->
  Py.splitlines (tag_lines lines) = lines.
Proof.
  unfold tag_lines. induction 1 as [|p lines Hp H IH]; [reflexivity|].
  cbn [map]. rewrite concat_empty_cons, append_assoc.
  now rewrite (splitlines_cons_line p _ Hp), IH.
Qed.

Lemma sort_tags_version tags :
  Forall version_tag tags ->
  exists sorted,
    Util.sort_tags tags = Return sorted /\
    Permutation tags sorted /\
    StronglySorted version_le sorted.
Proof.
  intros Hv. rewrite sort_tags_keyed.
  rewrite (omap_Return _ (fun x => (components x, x))).
  - cbn [obind]. eexists. split; [reflexivity|]. split.
    + rewrite <- (sort_decorated_perm Py.list_lt).
      rewrite map_map. cbn [snd]. now rewrite map_id.
    + apply sorted_tags_of_pairs.
      * apply (Permutation_Forall (sort_decorated_perm Py.list_lt _)).
        apply Forall_map. now apply Forall_forall.
      * apply sort_decorated_sorted;
          [apply list_lt_asym | apply list_lt_negtrans].
  - intros x Hx.
    now rewrite (tag_key_version x (proj1 (Forall_forall _ _) Hv x Hx)).
Qed.

Lemma version_le_refl t : version_le t t.
Proof.
  unfold version_le, version_lt. intros H. apply list_lt_spec in H.
  now rewrite list_lt_irrefl in H.
Qed.

Lemma last_In (l : list string) : l <> [] -> In (last l "") l.
Proof.
  induction l as [|x l IH]; intros H; [now elim H|].
  destruct l as [|y l]; [now left|].
  change (last (x :: y :: l) "") with (last (y :: l) ""). right. apply IH. discriminate.
Qed.

(** The last of a sorted list is not smaller than any of the list. *)
Lemma last_greatest (l : list string) :
  StronglySorted version_le l ->
  Forall (fun u => version_le u (last l "")) l.
Proof.
  induction 1 as [|x l Hl IH Hx]; [constructor|].
  destruct l as [|y l]; [repeat constructor; apply version_le_refl|].
  change (last (x :: y :: l) "") with (last (y :: l) "").
  constructor; [|exact IH].
  apply (proj1 (Forall_forall _ _) Hx). apply last_In. discriminate.
Qed.

(** X6. The latest local tag is the greatest.  When git prints version
    tags, one on each line, [get_last_tag] returns one of them, and none
    of them is greater by numeric comparison of the components; the
    return code of git plays no part. *)
Theorem get_last_tag_greatest (e : Env) (filter_args lines : list string)
    (code : Z) :
  env_git e (["tag"; "-l"] ++ filter_args)%list
  = Completed code (Utf8 (tag_lines lines)) ->
  lines <> [] -> Forall version_tag lines ->
  exists t,
    Util.get_last_tag e filter_args = Return t /\
    In t lines /\
    Forall (fun u => version_le u t) lines.
Proof.
  intros Hgit Hne Hv. unfold Util.get_last_tag, Util.exec_git_command.
  rewrite Hgit. cbn [bytes_decode obind].
  rewrite splitlines_tag_lines.
  - destruct lines as [|l0 lines]; [now elim Hne|].
    cbn [List.length Nat.ltb Nat.leb].
    destruct (sort_tags_version _ Hv) as [sorted [-> [Hperm Hsorted]]].
    cbn [obind]. exists (last sorted ""). split; [reflexivity|].
    assert (Hs : sorted <> []).
    { intros ->. apply Permutation_sym, Permutation_nil in Hperm. discriminate. }
    split.
    + apply (Permutation_in _ (Permutation_sym Hperm)). now apply last_In.
    + apply (Permutation_Forall (Permutation_sym Hperm)). now apply last_greatest.
  - revert Hv. apply Forall_impl. intros p Hp.
    apply plain_no_linebreak. now apply version_tag_plain.
Qed.

Lemma get_last_tag_greatest_witness :
  env_git (repo_env ["16.1.4-9"; "16.1.4-10"; "16.1.3-1"]) (["tag"; "-l"] ++ [])%list
  = Completed 0 (Utf8 (tag_lines ["16.1.4-9"; "16.1.4-10"; "16.1.3-1"])) /\
  Forall version_tag ["16.1.4-9"; "16.1.4-10"; "16.1.3-1"] /\
  exists t,
    Util.get_last_tag (repo_env ["16.1.4-9"; "16.1.4-10"; "16.1.3-1"]) [] = Return t /\
    In t ["16.1.4-9"; "16.1.4-10"; "16.1.3-1"] /\
    Forall (fun u => version_le u t) ["16.1.4-9"; "16.1.4-10"; "16.1.3-1"].
Proof.
  assert (Hv : Forall version_tag ["16.1.4-9"; "16.1.4-10"; "16.1.3-1"])
    by (repeat constructor; discriminate).
  split; [reflexivity|]. split; [exact Hv|].
  apply (get_last_tag_greatest _ [] ["16.1.4-9"; "16.1.4-10"; "16.1.3-1"] 0%Z);
    [reflexivity | discriminate | exact Hv].
Defined.

(** * build.py: version codes that cannot be computed *)

Lemma contains_forall c s :
  contains c s = false <-> string_forall (fun x => negb (Ascii.eqb x c)) s = true.
Proof.
  induction s as [|x s IH]; simpl; [tauto|].
  rewrite orb_false_iff, andb_true_iff, negb_true_iff. tauto.
Qed.

(** No piece of a split holds a separator. *)
Lemma split_where_pieces sep s :
  Forall (fun p => string_forall (fun c => negb (sep c)) p = true)
         (Py.split_where sep s).
Proof.
  induction s as [|c s IH]; simpl; [repeat constructor|].
  destruct (sep c) eqn:Hc; [constructor; [reflexivity | exact IH]|].
  destruct (Py.split_where sep s) as [|p r]; [repeat constructor; simpl; now rewrite Hc|].
  inversion IH; subst. constructor; [|assumption]. simpl. now rewrite Hc.
Qed.

Lemma part_no_dash s part :
  In part (Py.re_split_dot_dash s) -> contains "-" part = false.
Proof.
  intros Hin. apply contains_forall.
  pose proof (proj1 (Forall_forall _ _) (split_where_pieces Py.dot_or_dash s) part Hin)
    as H.
  revert H. apply string_forall_impl. intros c Hc.
  apply negb_true_iff in Hc. unfold Py.dot_or_dash in Hc.
  apply orb_false_iff in Hc as [_ Hc]. now rewrite Hc.
Qed.

Lemma lstrip_contains c s : contains c (Py.lstrip s) = true -> contains c s = true.
Proof.
  induction s as [|x s IH]; simpl; [discriminate|].
  destruct (Py.is_space x); [|exact (fun H => H)].
  intros H. rewrite (IH H). apply orb_true_r.
Qed.

Lemma rstrip_contains c s : contains c (Py.rstrip s) = true -> contains c s = true.
Proof.
  induction s as [|x s IH]; simpl; [discriminate|].
  destruct (Py.rstrip s) as [|y r] eqn:E.
  - destruct (Py.is_space x); simpl; [discriminate|].
    rewrite orb_false_r. intros ->. reflexivity.
  - simpl. intros H. apply orb_true_iff in H as [H | H]; [now rewrite H|].
    simpl in IH. rewrite (IH H). apply orb_true_r.
Qed.

Lemma int_digits_nonneg s : forall acc seen z,
  (0 <= acc)%Z -> Py.int_digits s acc seen = Some z -> (0 <= z)%Z.
Proof.
  induction s as [|c s IH]; intros acc seen z Hacc; cbn [Py.int_digits].
  - destruct seen; [|discriminate]. intros H. inversion H. now subst.
  - destruct (Py.is_digit c) eqn:Hc.
    + apply IH. pose proof (digit_value_range c Hc). lia.
    + destruct (Ascii.eqb c "_" && seen); [|discriminate]. now apply IH.
Qed.

(** [int] of a string without dash is not negative. *)
Lemma int_nonneg s z :
  contains "-" s = false -> Py.int s = Return z -> (0 <= z)%Z.
Proof.
  intros Hs. unfold Py.int.
  assert (Hstrip : contains "-" (Py.strip s) = false).
  { destruct (contains "-" (Py.strip s)) eqn:E; [|reflexivity].
    unfold Py.strip in E. apply rstrip_contains, lstrip_contains in E. congruence. }
  destruct (Py.strip s) as [|c r]; [discriminate|].
  simpl in Hstrip. apply orb_false_iff in Hstrip as [Hc _].
  destruct (Ascii.eqb c "+").
  - destruct (Py.int_digits r 0 false) as [z'|] eqn:E; [|discriminate].
    intros H. inversion H; subst. now apply (int_digits_nonneg r 0%Z false).
  - rewrite Hc.
    destruct (Py.int_digits (String c r) 0 false) as [z'|] eqn:E; [|discriminate].
    intros H. inversion H; subst.
    now apply (int_digits_nonneg (String c r) 0%Z false z).
Qed.

Lemma format_02d_numeric n : (0 <= n)%Z -> numeric (Py.format_02d n).
Proof. intros Hn. rewrite (format_02d_zero_pad2 n Hn). now apply zero_pad2_numeric. Qed.

(** The padded pieces are strings of digits. *)
Lemma padded_numeric parts : forall padded,
  Forall (fun p => contains "-" p = false) parts ->
  omap (fun part => let? n := Py.int part in Return (Py.format_02d n)) parts
  = Return padded ->
  Forall numeric padded /\ (parts <> [] -> padded <> []).
Proof.
  induction parts as [|part parts IH]; intros padded Hnd H; simpl in H.
  - inversion H. split; [constructor | now intros []].
  - inversion Hnd as [|? ? Hpart Hparts]; subst.
    destruct (Py.int part) as [n| |] eqn:En; cbn [obind] in H; try discriminate.
    destruct (omap _ parts) as [ps| |] eqn:Eo; cbn [obind] in H; try discriminate.
    inversion H; subst padded. destruct (IH ps Hparts eq_refl) as [IH1 _].
    split; [|discriminate]. constructor; [|exact IH1].
    apply format_02d_numeric. now apply (int_nonneg part n).
Qed.

(** ** The length of what is read and written *)

Lemma length_lstrip s : (String.length (Py.lstrip s) <= String.length s)%nat.
Proof.
  induction s as [|c s IH]; simpl; [lia|].
  destruct (Py.is_space c); simpl; lia.
Qed.

Lemma length_rstrip s : (String.length (Py.rstrip s) <= String.length s)%nat.
Proof.
  induction s as [|c s IH]; simpl; [lia|].
  destruct (Py.rstrip s) as [|y r].
  - destruct (Py.is_space c); simpl; lia.
  - simpl in *. lia.
Qed.

Lemma length_strip s : (String.length (Py.strip s) <= String.length s)%nat.
Proof.
  unfold Py.strip. pose proof (length_rstrip (Py.lstrip s)).
  pose proof (length_lstrip s). lia.
Qed.

Lemma length_string_of_uint u :
  String.length (NilEmpty.string_of_uint u) = Decimal.nb_digits u.
Proof. induction u; simpl; congruence. Qed.

(** A string of digits is a decimal numeral. *)
Lemma digits_uint ds :
  all_digits ds = true -> exists u, NilEmpty.string_of_uint u = ds.
Proof.
  induction ds as [|c ds IH]; [now exists Decimal.Nil|].
  intros H. simpl in H. apply andb_true_iff in H as [Hc Hd].
  destruct (IH Hd) as [u <-]. clear IH Hd.
  destruct c as [[] [] [] [] [] [] [] []]; try discriminate Hc;
    first [ now exists (Decimal.D0 u) | now exists (Decimal.D1 u)
          | now exists (Decimal.D2 u) | now exists (Decimal.D3 u)
          | now exists (Decimal.D4 u) | now exists (Decimal.D5 u)
          | now exists (Decimal.D6 u) | now exists (Decimal.D7 u)
          | now exists (Decimal.D8 u) | now exists (Decimal.D9 u) ].
Qed.

Lemma str_of_N n : Py.str (Z.of_N n) = NilZero.string_of_uint (N.to_uint n).
Proof. destruct n; reflexivity. Qed.

(** [str] drops the zeros in front: the number a string of digits
    writes is not written with more digits. *)
Lemma length_str_digits ds :
  all_digits ds = true -> ds <> "" ->
  (String.length (Py.str (digits_val ds 0)) <= String.length ds)%nat.
Proof.
  intros Hd Hne. destruct (digits_uint ds Hd) as [u <-].
  rewrite digits_val_uint, str_of_N, DecimalPos.Unsigned.to_of.
  assert (Hu : u <> Decimal.Nil) by (intros ->; now elim Hne).
  pose proof (DecimalFacts.nb_digits_unorm u Hu) as Hle.
  rewrite (length_string_of_uint u).
  unfold NilZero.string_of_uint.
  assert (Hn : Decimal.unorm u <> Decimal.Nil)
    by (unfold Decimal.unorm; destruct (Decimal.nzhead u); discriminate).
  destruct (Decimal.unorm u) eqn:E; [now elim Hn | ..];
    rewrite (length_string_of_uint (_ u0)); exact Hle.
Qed.

(** The digits [int] reads, the underscores left out. *)
Lemma int_digits_read s : forall acc seen z,
  Py.int_digits s acc seen = Some z ->
  exists ds, all_digits ds = true /\
             (String.length ds <= String.length s)%nat /\
             z = digits_val ds acc /\ (seen = false -> ds <> "").
Proof.
  induction s as [|c s IH]; intros acc seen z; cbn [Py.int_digits].
  - destruct seen; [|discriminate]. intros H. inversion H; subst.
    exists "". repeat split; [simpl; lia | discriminate].
  - destruct (Py.is_digit c) eqn:Hc.
    + intros H. destruct (IH _ _ _ H) as [ds [Hd [Hl [Hz _]]]].
      exists (String c ds).
      split; [unfold all_digits in *; cbn [string_forall]; now rewrite Hc|].
      split; [simpl; lia|]. split; [exact Hz | discriminate].
    + destruct (Ascii.eqb c "_" && seen) eqn:Hu; [|discriminate].
      intros H. destruct (IH _ _ _ H) as [ds [Hd [Hl [Hz Hne]]]].
      exists ds. split; [exact Hd|]. split; [simpl; lia|].
      split; [exact Hz|]. intros _. now apply Hne.
Qed.

(** What [int] reads in a string without dash is written by [str] with
    no more characters than the string has. *)
Lemma length_str_int s z :
  contains "-" s = false -> Py.int s = Return z ->
  (1 <= String.length (Py.str z) <= String.length s)%nat.
Proof.
  intros Hs Hint.
  pose proof (int_nonneg s z Hs Hint) as Hz.
  destruct (str_nonneg z Hz) as [[_ Hne] _].
  split; [destruct (Py.str z); [now elim Hne | simpl; lia]|].
  pose proof (length_strip s) as Hlen.
  unfold Py.int in Hint.
  assert (Hstrip : contains "-" (Py.strip s) = false).
  { destruct (contains "-" (Py.strip s)) eqn:E; [|reflexivity].
    unfold Py.strip in E. apply rstrip_contains, lstrip_contains in E. congruence. }
  destruct (Py.strip s) as [|c r]; [discriminate|].
  simpl in Hstrip. apply orb_false_iff in Hstrip as [Hc _].
  assert (Hread : forall t, (String.length t <= String.length (String c r))%nat ->
                    Py.int_digits t 0 false = Some z ->
                    (String.length (Py.str z) <= String.length s)%nat).
  { intros t Ht H. destruct (int_digits_read t _ _ _ H) as [ds [Hd [Hl [-> Hn]]]].
    pose proof (length_str_digits ds Hd (Hn eq_refl)). lia. }
  destruct (Ascii.eqb c "+").
  - destruct (Py.int_digits r 0 false) as [z'|] eqn:E; [|discriminate].
    inversion Hint; subst z'. apply (Hread r); [simpl; lia | exact E].
  - rewrite Hc in Hint.
    destruct (Py.int_digits (String c r) 0 false) as [z'|] eqn:E; [|discriminate].
    inversion Hint; subst z'. apply (Hread (String c r)); [lia | exact E].
Qed.

Lemma length_format_02d s z :
  contains "-" s = false -> Py.int s = Return z ->
  (String.length (Py.format_02d z) <= S (String.length s))%nat.
Proof.
  intros Hs Hint. pose proof (length_str_int s z Hs Hint) as Hl.
  unfold Py.format_02d. destruct (Nat.ltb_spec (String.length (Py.str z)) 2).
  - rewrite length_append. simpl. lia.
  - lia.
Qed.

Lemma length_padded parts : forall padded,
  Forall (fun p => contains "-" p = false) parts ->
  omap (fun part => let? n := Py.int part in Return (Py.format_02d n)) parts
  = Return padded ->
  (String.length (String.concat "" padded)
   <= list_sum (map (fun p => S (String.length p)) parts))%nat.
Proof.
  induction parts as [|part parts IH]; intros padded Hnd H; simpl in H.
  - inversion H. simpl. lia.
  - inversion Hnd as [|? ? Hpart Hparts]; subst.
    destruct (Py.int part) as [n| |] eqn:En; cbn [obind] in H; try discriminate.
    destruct (omap _ parts) as [ps| |] eqn:Eo; cbn [obind] in H; try discriminate.
    inversion H; subst padded.
    rewrite concat_empty_cons, length_append.
    pose proof (IH ps Hparts eq_refl).
    pose proof (length_format_02d part n Hpart En).
    unfold list_sum in *. cbn [map fold_right]. lia.
Qed.

(** X7. When [generate_version_code] fails.  For a tag of 4299
    characters at most, it returns a number that is not negative, or it
    raises [ValueError]; it raises exactly when a component of the tag
    is refused by [int], and so for every tag with an empty component,
    the empty tag among them: once every component is read, putting the
    padded pieces together and reading them as a number cannot fail.
    The bound keeps every number within the 4300 digits the interpreter
    reads and writes by default: no component is longer than the tag,
    and the padded pieces put together have one character more than the
    tag at most. *)
Theorem version_code_fails_iff (project_tag : string) :
  (String.length project_tag <= 4299)%nat ->
  ((exists code, Build.generate_version_code project_tag = Return code /\ (0 <= code)%Z)
   \/ Build.generate_version_code project_tag = Raise ValueError) /\
  (Build.generate_version_code project_tag = Raise ValueError <->
   exists part, In part (Py.re_split_dot_dash project_tag) /\
                Py.int part = Raise ValueError) /\
  (In "" (Py.re_split_dot_dash project_tag) ->
   Build.generate_version_code project_tag = Raise ValueError) /\
  Forall (fun part => (String.length part <= 4299)%nat)
         (Py.re_split_dot_dash project_tag) /\
  (forall padded,
      omap (fun part => let? n := Py.int part in Return (Py.format_02d n))
           (Py.re_split_dot_dash project_tag) = Return padded ->
      (String.length (String.concat "" padded) <= 4300)%nat /\
      Build.generate_version_code project_tag
      = Return (number_of (String.concat "" padded))).
Proof.
  intros Hlen.
  set (pad := fun part => let? n := Py.int part in Return (Py.format_02d n)).
  assert (Hpad : forall part, In part (Py.re_split_dot_dash project_tag) ->
                   (exists b, pad part = Return b) \/ pad part = Raise ValueError).
  { intros part _. unfold pad.
    destruct (int_outcome part) as [[z ->] | ->]; [left; now eexists | now right]. }
  assert (Hraise : forall part, In part (Py.re_split_dot_dash project_tag) ->
                     Py.int part = Raise ValueError ->
                     Build.generate_version_code project_tag = Raise ValueError).
  { intros part Hin Hint. unfold Build.generate_version_code. fold pad.
    rewrite (omap_Raise_ValueError pad _ part Hpad Hin); [reflexivity|].
    unfold pad. now rewrite Hint. }
  assert (Hret : forall padded,
             omap pad (Py.re_split_dot_dash project_tag) = Return padded ->
             Py.int (String.concat "" padded) = Return (number_of (String.concat "" padded))
             /\ (0 <= number_of (String.concat "" padded))%Z).
  { intros padded Hp.
    destruct (padded_numeric _ padded
                (proj2 (Forall_forall _ _) (part_no_dash project_tag)) Hp)
      as [Hnum Hne].
    assert (Hc : numeric (String.concat "" padded)).
    { apply concat_numeric; [|exact Hnum]. apply Hne.
      apply split_where_nonnil. }
    split; [now apply int_numeric | now apply number_of_nonneg]. }
  pose proof (split_where_length Py.dot_or_dash project_tag) as Hsum.
  fold (Py.re_split_dot_dash project_tag) in Hsum.
  split; [|split; [|split; [|split]]].
  - unfold Build.generate_version_code. fold pad.
    destruct (omap_outcome pad _ Hpad) as [[padded Hp] | Hp]; rewrite Hp.
    + left. cbn [obind]. destruct (Hret padded Hp) as [-> Hge]. now eexists.
    + now right.
  - split; [|intros [part [Hin Hint]]; now apply (Hraise part)].
    unfold Build.generate_version_code. fold pad.
    destruct (omap pad _) as [padded| |] eqn:Hp; cbn [obind]; try discriminate.
    + destruct (Hret padded eq_refl) as [-> _]. discriminate.
    + intros H. apply omap_Raise_inv in Hp as [part [Hin Hpart]].
      exists part. split; [exact Hin|]. unfold pad in Hpart.
      destruct (int_outcome part) as [[z Hz] | Hz]; [|exact Hz].
      rewrite Hz in Hpart. discriminate.
  - intros Hempty. now apply (Hraise "").
  - apply Forall_forall. intros part Hin.
    pose proof (split_where_piece_length Py.dot_or_dash project_tag part Hin). lia.
  - intros padded Hp. split.
    + pose proof (length_padded _ padded
                    (proj2 (Forall_forall _ _) (part_no_dash project_tag)) Hp).
      lia.
    + unfold Build.generate_version_code. fold pad. rewrite Hp. cbn [obind].
      now destruct (Hret padded Hp) as [-> _].
Qed.

Lemma version_code_fails_iff_witness :
  (String.length "16..4" <= 4299)%nat /\
  In "" (Py.re_split_dot_dash "16..4") /\
  Build.generate_version_code "16..4" = Raise ValueError.
Proof.
  assert (Hlen : (String.length "16..4" <= 4299)%nat) by (vm_compute; lia).
  split; [exact Hlen|].
  assert (Hin : In "" (Py.re_split_dot_dash "16..4")) by (right; left; reflexivity).
  split; [exact Hin|].
  exact (proj1 (proj2 (proj2 (version_code_fails_iff "16..4" Hlen))) Hin).
Defined.

(** * build.py: the order of version codes *)

Lemma component_values_range first rest :
  numeric first -> well_separated rest ->
  Forall (fun n => n < 100)%Z (component_values first rest) ->
  Forall (fun n => 0 <= n < 100)%Z (component_values first rest).
Proof.
  intros Hf Hr Hsmall. unfold component_values in *.
  assert (Hall : Forall numeric (first :: map snd rest)).
  { constructor; [exact Hf|]. apply Forall_map. revert Hr. apply Forall_impl.
    now intros p [_ Hp]. }
  apply Forall_map. apply Forall_forall. intros c Hc. split.
  - apply number_of_nonneg. exact (proj1 (Forall_forall _ _) Hall c Hc).
  - apply (proj1 (Forall_forall _ _) Hsmall). now apply in_map.
Qed.

Lemma version_code_base100 first rest :
  numeric first -> well_separated rest ->
  Forall (fun n => n < 100)%Z (component_values first rest) ->
  Build.generate_version_code (join_version first rest)
  = Return (base100 (component_values first rest)).
Proof.
  intros Hf Hr Hsmall. rewrite (version_code_of_components first rest Hf Hr).
  f_equal. unfold number_of, base100. apply digits_val_concat_base100.
  now apply component_values_range.
Qed.

Lemma base100_fold_acc l : forall acc,
  fold_left (fun a n => 100 * a + n)%Z l acc
  = (acc * 100 ^ Z.of_nat (List.length l) + base100 l)%Z.
Proof.
  unfold base100. induction l as [|n l IH]; intros acc.
  - cbn [fold_left List.length]. change (100 ^ Z.of_nat 0)%Z with 1%Z. lia.
  - cbn [fold_left List.length]. rewrite (IH (100 * acc + n)%Z), (IH (100 * 0 + n)%Z).
    rewrite Nat2Z.inj_succ, Z.pow_succ_r by lia. ring.
Qed.

Lemma base100_cons n l :
  base100 (n :: l) = (n * 100 ^ Z.of_nat (List.length l) + base100 l)%Z.
Proof.
  unfold base100 at 1. cbn [fold_left]. rewrite base100_fold_acc. ring.
Qed.

Lemma base100_bound l :
  Forall (fun n => 0 <= n < 100)%Z l ->
  (0 <= base100 l < 100 ^ Z.of_nat (List.length l))%Z.
Proof.
  induction 1 as [|n l Hn Hl IH].
  - cbn. lia.
  - rewrite base100_cons. cbn [List.length].
    rewrite Nat2Z.inj_succ, Z.pow_succ_r by lia.
    assert (0 < 100 ^ Z.of_nat (List.length l))%Z by (apply Z.pow_pos_nonneg; lia).
    nia.
Qed.

(** Among lists of one length of digits in base 100, the smaller list
    makes the smaller number. *)
Lemma lex_lt_base100 a b :
  lex_lt a b -> List.length a = List.length b ->
  Forall (fun n => 0 <= n < 100)%Z a -> Forall (fun n => 0 <= n < 100)%Z b ->
  (base100 a < base100 b)%Z.
Proof.
  induction 1 as [y b | x y a b Hxy | x a b Hab IH]; intros Hlen Ha Hb.
  - discriminate.
  - inversion Ha; subst. inversion Hb; subst. cbn [List.length] in Hlen.
    rewrite !base100_cons. replace (List.length b) with (List.length a) by lia.
    pose proof (base100_bound a ltac:(assumption)).
    pose proof (base100_bound b ltac:(assumption)).
    replace (List.length b) with (List.length a) in * by lia. nia.
  - inversion Ha; subst. inversion Hb; subst. cbn [List.length] in Hlen.
    rewrite !base100_cons. replace (List.length b) with (List.length a) by lia.
    assert (base100 a < base100 b)%Z by (apply IH; auto). lia.
Qed.

Lemma lex_lt_trichotomy a : forall b,
  List.length a = List.length b -> a = b \/ lex_lt a b \/ lex_lt b a.
Proof.
  induction a as [|x a IH]; intros [|y b] Hlen; try discriminate; [now left|].
  destruct (Z.lt_trichotomy x y) as [H | [-> | H]].
  - right. left. now constructor.
  - destruct (IH b ltac:(now inversion Hlen)) as [-> | [H | H]].
    + now left.
    + right. left. now constructor.
    + right. right. now constructor.
  - right. right. now constructor.
Qed.

(** X8. Version codes follow versions.  For two version strings with as
    many components each, all below 100, the version codes are in the
    order of the versions, compared component by component, and equal
    only for equal components. *)
Theorem version_code_monotone (first first' : string)
    (rest rest' : list (ascii * string)) :
  numeric first -> well_separated rest ->
  numeric first' -> well_separated rest' ->
  List.length rest = List.length rest' ->
  Forall (fun n => n < 100)%Z (component_values first rest) ->
  Forall (fun n => n < 100)%Z (component_values first' rest') ->
  exists code code',
    Build.generate_version_code (join_version first rest) = Return code /\
    Build.generate_version_code (join_version first' rest') = Return code' /\
    (version_lt (join_version first rest) (join_version first' rest')
     <-> (code < code')%Z) /\
    (code = code' <-> component_values first rest = component_values first' rest').
Proof.
  intros Hf Hr Hf' Hr' Hlen Hs Hs'.
  exists (base100 (component_values first rest)),
         (base100 (component_values first' rest')).
  split; [now apply version_code_base100|].
  split; [now apply version_code_base100|].
  unfold version_lt, components.
  rewrite (split_join_version rest first Hf Hr),
          (split_join_version rest' first' Hf' Hr').
  fold (component_values first rest). fold (component_values first' rest').
  pose proof (component_values_range first rest Hf Hr Hs) as Ha.
  pose proof (component_values_range first' rest' Hf' Hr' Hs') as Hb.
  assert (Hl : List.length (component_values first rest)
               = List.length (component_values first' rest')).
  { unfold component_values. rewrite !length_map. cbn [List.length].
    now rewrite !length_map, Hlen. }
  revert Ha Hb Hl.
  generalize (component_values first rest) as a.
  generalize (component_values first' rest') as b.
  intros b a Ha Hb Hl.
  destruct (lex_lt_trichotomy a b Hl) as [-> | [H | H]].
  - assert (Hirr : ~ lex_lt b b).
    { intros H. pose proof (lex_lt_base100 b b H Hl Ha Ha). lia. }
    split; [split; [tauto | lia] | tauto].
  - pose proof (lex_lt_base100 a b H Hl Ha Hb) as Hlt.
    split; [tauto|]. split; [lia|]. intros ->. lia.
  - pose proof (lex_lt_base100 b a H (eq_sym Hl) Hb Ha) as Hlt.
    split; [split; [|lia] | split; [lia|]].
    + intros H'. pose proof (lex_lt_base100 a b H' Hl Ha Hb). lia.
    + intros ->. lia.
Qed.

Lemma version_code_monotone_witness :
  numeric "16" /\ well_separated [("."%char, "1"); ("."%char, "4"); ("-"%char, "2")] /\
  numeric "16" /\ well_separated [("."%char, "1"); ("."%char, "10"); ("-"%char, "1")] /\
  exists code code',
    Build.generate_version_code
      (join_version "16" [("."%char, "1"); ("."%char, "4"); ("-"%char, "2")])
    = Return code /\
    Build.generate_version_code
      (join_version "16" [("."%char, "1"); ("."%char, "10"); ("-"%char, "1")])
    = Return code' /\
    (version_lt
       (join_version "16" [("."%char, "1"); ("."%char, "4"); ("-"%char, "2")])
       (join_version "16" [("."%char, "1"); ("."%char, "10"); ("-"%char, "1")])
     <-> (code < code')%Z) /\
    (code = code' <->
     component_values "16" [("."%char, "1"); ("."%char, "4"); ("-"%char, "2")]
     = component_values "16" [("."%char, "1"); ("."%char, "10"); ("-"%char, "1")]).
Proof.
  assert (Hf : numeric "16") by (split; [reflexivity | discriminate]).
  assert (Hr : well_separated [("."%char, "1"); ("."%char, "4"); ("-"%char, "2")])
    by (repeat constructor; discriminate).
  assert (Hr' : well_separated [("."%char, "1"); ("."%char, "10"); ("-"%char, "1")])
    by (repeat constructor; discriminate).
  split; [exact Hf|]. split; [exact Hr|]. split; [exact Hf|]. split; [exact Hr'|].
  apply (version_code_monotone "16" "16" _ _ Hf Hr Hf Hr' eq_refl);
    repeat constructor.
Defined.

(** * build.py: paths *)

Lemma relative_to_app top rel : Build.relative_to top (top ++ rel)%list = Return rel.
Proof.
  induction top as [|c top IH]; [reflexivity|].
  cbn [app Build.relative_to]. now rewrite String.eqb_refl.
Qed.

Lemma relative_to_Return top : forall root rel,
  Build.relative_to top root = Return rel -> root = (top ++ rel)%list.
Proof.
  induction top as [|c top IH]; intros root rel H.
  - cbn in H. now inversion H.
  - destruct root as [|c' root]; cbn [Build.relative_to] in H; [discriminate|].
    destruct (String.eqb_spec c c') as [-> | _]; [|discriminate].
    cbn [app]. f_equal. now apply IH.
Qed.

Lemma relative_to_outcome top : forall root,
  (exists rel, Build.relative_to top root = Return rel) \/
  Build.relative_to top root = Raise ValueError.
Proof.
  induction top as [|c top IH]; intros root; [left; now eexists|].
  destruct root as [|c' root]; cbn [Build.relative_to]; [now right|].
  destruct (String.eqb c c'); [apply IH | now right].
Qed.

(** X9. [relative_to] takes a prefix off and nothing else: it returns
    [rel] exactly for the paths made of [top] followed by [rel], and for
    a path that does not start with [top] it raises [ValueError]. *)
Theorem relative_to_prefix (top root : path) :
  (forall rel, Build.relative_to top root = Return rel <-> root = (top ++ rel)%list) /\
  ((forall rel, root <> (top ++ rel)%list) ->
   Build.relative_to top root = Raise ValueError) /\
  Build.relative_to top root <> Diverge.
Proof.
  split; [|split].
  - intros rel. split; [apply relative_to_Return|].
    intros ->. apply relative_to_app.
  - intros H. destruct (relative_to_outcome top root) as [[rel Hrel] | Hr];
      [|exact Hr].
    apply relative_to_Return in Hrel. now elim (H rel).
  - destruct (relative_to_outcome top root) as [[rel ->] | ->]; discriminate.
Qed.

(** * build.py: what a computation performed *)

Lemma bind_In {A B : Type} (m : M A) (k : A -> M B) ef :
  In ef (snd (bind m k)) ->
  In ef (snd m) \/ exists a, fst m = Return a /\ In ef (snd (k a)).
Proof.
  destruct m as [[a|x|] t]; cbn [bind fst snd]; auto.
  destruct (k a) as [o t'] eqn:Ek. cbn [snd]. intros H.
  apply in_app_or in H as [H | H]; [now left|].
  right. exists a. rewrite Ek. now split.
Qed.

Lemma bind_fst_Return {A B : Type} (m : M A) (k : A -> M B) b :
  fst (bind m k) = Return b -> exists a, fst m = Return a /\ fst (k a) = Return b.
Proof.
  destruct m as [[a|x|] t]; cbn [bind fst]; try discriminate.
  destruct (k a) as [o t'] eqn:Ek. cbn [fst]. intros ->.
  exists a. rewrite Ek. now split.
Qed.

Lemma perform_In e ef ef' : In ef' (snd (perform e ef)) -> ef' = ef.
Proof.
  unfold perform. destruct (env_fails e ef); cbn; [contradiction|].
  now intros [<- | []].
Qed.

Lemma for_each_effects {A : Type} (P : effect -> Prop) (l : list A)
    (body : A -> M unit) :
  (forall x, In x l -> Forall P (snd (body x))) ->
  Forall P (snd (for_each l body)).
Proof.
  induction l as [|x l IH]; intros H; [constructor|].
  cbn [for_each]. apply bind_effects; [apply H; now left|].
  intros _. apply IH. intros y Hy. apply H. now right.
Qed.


(** * build.py: the files of the tasks *)

Lemma append_inv_tail (c : string) : forall a b, a ++ c = b ++ c -> a = b.
Proof.
  induction a as [|x a IH]; intros [|y b] H; simpl in H.
  - reflexivity.
  - apply (f_equal String.length) in H. simpl in H. rewrite length_append in H. lia.
  - apply (f_equal String.length) in H. simpl in H. rewrite length_append in H. lia.
  - inversion H. f_equal. now apply IH.
Qed.

Lemma fill_module_own_files e arch frida_tag project_tag :
  Forall (writes_own_files e frida_tag arch)
         (snd (Build.fill_module e arch frida_tag project_tag)).
Proof.
  unfold Build.fill_module, Build.download_file, Build.extract_file.
  step_effects; try exact I.
  - destruct (env_exists e _); step_effects; try exact I.
    cbn [writes_own_files]. now left.
  - destruct (env_lzma_read e _); step_effects; try exact I.
    cbn [writes_own_files]. now right.
Qed.

Lemma cached_archive_inj e frida_tag a1 a2 :
  cached_archive e frida_tag a1 = cached_archive e frida_tag a2 -> a1 = a2.
Proof.
  unfold cached_archive, joinpath. intros H.
  apply app_inj_tail in H as [_ H].
  apply (append_inv_head "frida-server-") in H.
  apply append_inv_head in H. apply (append_inv_head "-android-") in H.
  now apply append_inv_tail in H.
Qed.

Lemma staged_binary_inj e a1 a2 : staged_binary e a1 = staged_binary e a2 -> a1 = a2.
Proof.
  unfold staged_binary, joinpath. intros H.
  apply app_inj_tail in H as [_ H]. now apply (append_inv_head "frida-server-") in H.
Qed.

Lemma cached_not_staged e frida_tag a1 a2 :
  cached_archive e frida_tag a1 <> staged_binary e a2.
Proof.
  unfold cached_archive, staged_binary, Build.PATH_DOWNLOADS, joinpath. intros H.
  apply app_inj_tail in H as [H _]. apply app_inj_tail in H as [_ H]. discriminate.
Qed.

(** X10. The tasks write apart.  The task of an architecture writes two
    files at most, its archive in the download cache and its binary in
    the staging tree; these are different for different architectures,
    so no file is written by the tasks of two architectures. *)
Theorem fill_module_writes_apart (e : Env) (frida_tag project_tag : string) :
  (forall arch p data,
      In (WriteFile p data) (snd (Build.fill_module e arch frida_tag project_tag)) ->
      p = cached_archive e frida_tag arch \/ p = staged_binary e arch) /\
  (forall a1 a2 p d1 d2,
      In (WriteFile p d1) (snd (Build.fill_module e a1 frida_tag project_tag)) ->
      In (WriteFile p d2) (snd (Build.fill_module e a2 frida_tag project_tag)) ->
      a1 = a2).
Proof.
  assert (Hown : forall arch p data,
             In (WriteFile p data)
                (snd (Build.fill_module e arch frida_tag project_tag)) ->
             p = cached_archive e frida_tag arch \/ p = staged_binary e arch).
  { intros arch p data Hin.
    exact (proj1 (Forall_forall _ _)
             (fill_module_own_files e arch frida_tag project_tag) _ Hin). }
  split; [exact Hown|].
  intros a1 a2 p d1 d2 H1 H2.
  destruct (Hown a1 p d1 H1) as [E1 | E1]; destruct (Hown a2 p d2 H2) as [E2 | E2];
    rewrite E1 in E2.
  - now apply cached_archive_inj in E2.
  - now apply cached_not_staged in E2.
  - symmetry in E2. now apply cached_not_staged in E2.
  - now apply staged_binary_inj in E2.
Qed.

(** * build.py: the archive *)

Lemma package_module_unfold e project_tag :
  Build.package_module e project_tag
  = (say (Log Build.MainThread "Packaging module") ;;
     perform e (ZipOpen (module_zip e project_tag)) ;;
     with_closing (archive_walk e project_tag)
                  (perform e (ZipClose (module_zip e project_tag))) ;;
     perform e (Rmtree (Build.PATH_BUILD_TMP e))).
Proof. reflexivity. Qed.

Lemma bind_effects_Return {A B : Type} (P : effect -> Prop) (m : M A)
    (k : A -> M B) :
  Forall P (snd m) -> (forall a, fst m = Return a -> Forall P (snd (k a))) ->
  Forall P (snd (bind m k)).
Proof.
  intros Hm Hk. destruct m as [[a|x|] t]; cbn [bind fst snd] in *; try exact Hm.
  specialize (Hk a eq_refl). destruct (k a) as [o t']. apply Forall_app. now split.
Qed.

Lemma archive_walk_effects e project_tag :
  Forall (fun ef => is_zip_write ef /\ packaging_effect e project_tag ef)
         (snd (archive_walk e project_tag)).
Proof.
  unfold archive_walk. apply for_each_effects. intros [root files] Hroot.
  apply for_each_effects. intros file_name Hfile.
  destruct (String.eqb file_name "placeholder" || String.eqb file_name ".gitkeep")
    eqn:Eskip; [constructor|].
  apply orb_false_iff in Eskip as [E1 E2].
  apply String.eqb_neq in E1, E2.
  apply bind_effects_Return; [constructor|]. intros rel Erel.
  cbn [lift fst] in Erel. apply relative_to_Return in Erel.
  apply perform_effects. split; [exact I|].
  cbn [packaging_effect]. unfold path_name, joinpath. rewrite last_last.
  repeat split; auto.
  - rewrite Erel. now rewrite app_assoc.
  - exists root, files. now repeat split.
Qed.

Lemma for_each_ends {A : Type} (l : list A) (body : A -> M unit) :
  (forall x, fst (body x) <> Diverge) -> fst (for_each l body) <> Diverge.
Proof.
  intros H. induction l as [|x l IH]; [discriminate|].
  cbn [for_each]. apply bind_ends; [apply H | intros _; exact IH].
Qed.

Lemma archive_walk_ends e project_tag : fst (archive_walk e project_tag) <> Diverge.
Proof.
  unfold archive_walk. apply for_each_ends. intros [root files].
  apply for_each_ends. intros file_name.
  destruct (_ || _); [discriminate|].
  apply bind_ends; [|intros rel; apply perform_ends].
  destruct (relative_to_outcome (Build.PATH_BUILD_TMP e) root) as [[rel H] | H];
    cbn [lift fst]; rewrite H; discriminate.
Qed.

(** X11. The archive of the module.  [package_module] opens, fills and
    closes the archive [MagiskFrida-<tag>.zip] and no other.  What it
    puts in is a file that the walk of the staging tree gave, under its
    path below the staging tree, and never a file named [placeholder] or
    [.gitkeep].  Once opened the archive is closed, also when a file
    cannot be added, unless the closing itself fails; the staging tree
    is removed only after the archive is closed; and when
    [package_module] returns it has logged, opened, added files, closed
    and removed, in this order. *)
Theorem package_module_archive (e : Env) (project_tag : string) :
  Forall (packaging_effect e project_tag)
         (snd (Build.package_module e project_tag)) /\
  (In (ZipOpen (module_zip e project_tag)) (snd (Build.package_module e project_tag)) ->
   env_fails e (ZipClose (module_zip e project_tag)) = None ->
   In (ZipClose (module_zip e project_tag)) (snd (Build.package_module e project_tag))) /\
  (forall p, In (Rmtree p) (snd (Build.package_module e project_tag)) ->
             In (ZipClose (module_zip e project_tag))
                (snd (Build.package_module e project_tag))) /\
  (fst (Build.package_module e project_tag) = Return tt ->
   exists added,
     Forall is_zip_write added /\
     snd (Build.package_module e project_tag)
     = ([Log Build.MainThread "Packaging module"; ZipOpen (module_zip e project_tag)]
          ++ added
          ++ [ZipClose (module_zip e project_tag); Rmtree (Build.PATH_BUILD_TMP e)])%list).
Proof.
  rewrite package_module_unfold.
  pose proof (archive_walk_effects e project_tag) as Hwalk.
  pose proof (archive_walk_ends e project_tag) as Hends.
  assert (Hw1 : Forall is_zip_write (snd (archive_walk e project_tag)))
    by (revert Hwalk; apply Forall_impl; tauto).
  assert (Hw2 : Forall (packaging_effect e project_tag) (snd (archive_walk e project_tag)))
    by (revert Hwalk; apply Forall_impl; tauto).
  assert (Hnr : forall p, ~ In (Rmtree p) (snd (archive_walk e project_tag))).
  { intros p Hp. exact (proj1 (Forall_forall _ _) Hw1 _ Hp). }
  destruct (archive_walk e project_tag) as [ow tw]. cbn [fst snd] in *.
  unfold say, perform, bind, with_closing.
  destruct (env_fails e (ZipOpen (module_zip e project_tag))) as [xo|].
  { cbn. repeat split.
    - repeat constructor.
    - intros [H | []]. discriminate.
    - intros p [H | []]. discriminate.
    - discriminate. }
  destruct (env_fails e (ZipClose (module_zip e project_tag))) as [xc|] eqn:Ec;
    destruct ow as [[]|xw|]; try (now elim Hends);
    destruct (env_fails e (Rmtree (Build.PATH_BUILD_TMP e))) as [xr|];
    cbn [fst snd app]; rewrite ?app_nil_r.
  all: split;
    [ repeat (apply Forall_cons; [cbn; auto|]);
      repeat (apply Forall_app; split); auto;
      repeat (apply Forall_cons; [cbn; auto|]); apply Forall_nil |].
  all: split; [intros _ H; try discriminate H; cbn; rewrite ?in_app_iff; cbn; tauto|].
  all: split;
    [ intros p Hp; cbn in Hp |- *; rewrite ?in_app_iff in *; cbn in *;
      destruct Hp as [Hp | [Hp | Hp]]; try discriminate Hp;
      try (now elim (Hnr p));
      try tauto;
      destruct Hp as [Hp | Hp]; try (now elim (Hnr p)); tauto |].
  all: try discriminate.
  intros _. exists tw. split; [exact Hw1|]. cbn [app]. now rewrite <- app_assoc.
Qed.

(** * build.py: the update metadata *)





(** * build.py: a project tag without version code *)

Lemma create_module_unencodable e project_tag x :
  Build.generate_version_code project_tag = Raise x ->
  (exists y, fst (Build.create_module e project_tag) = Raise y) /\
  Forall writes_no_file (snd (Build.create_module e project_tag)).
Proof.
  intros Hx. unfold Build.create_module, Build.create_module_prop.
  rewrite Hx. unfold say, perform, bind, lift, ret.
  destruct (env_exists e (Build.PATH_BUILD_TMP e));
    [destruct (env_fails e (Rmtree (Build.PATH_BUILD_TMP e)))|];
    destruct (env_fails e (Copytree (Build.PATH_BASE_MODULE e)
                                     (Build.PATH_BUILD_TMP e))); cbn;
    (split; [now eexists | repeat constructor]).
Qed.

(** X13. A project tag without version code stops the build before any
    file is written.  When [generate_version_code] raises on the project
    tag, [do_build] raises; it has made its directories and reset and
    copied the staging tree at most: it has written no file, started no
    task and opened no archive. *)
Theorem do_build_unencodable (e : Env) (frida_tag project_tag : string) (x : exn) :
  Build.generate_version_code project_tag = Raise x ->
  (exists y, fst (Build.do_build e frida_tag project_tag) = Raise y) /\
  Forall writes_no_file (snd (Build.do_build e frida_tag project_tag)).
Proof.
  intros Hx. destruct (create_module_unencodable e project_tag x Hx) as [[y Hy] Hq].
  unfold Build.do_build.
  destruct (Build.create_module e project_tag) as [ocm tcm]. cbn [fst snd] in *.
  subst ocm. unfold perform, bind.
  destruct (env_fails e (Mkdir (Build.PATH_DOWNLOADS e) true true));
    [split; [now eexists | constructor]|].
  destruct (env_fails e (Mkdir (Build.PATH_BUILD e) true true)); cbn [fst snd app].
  - split; [now eexists | repeat constructor].
  - split; [now eexists|]. repeat (apply Forall_cons; [exact I|]). exact Hq.
Qed.

Lemma do_build_unencodable_witness :
  Build.generate_version_code "v16.1.4-1" = Raise ValueError /\
  (exists y, fst (Build.do_build cached_env "v16.1.4" "v16.1.4-1") = Raise y) /\
  Forall writes_no_file (snd (Build.do_build cached_env "v16.1.4" "v16.1.4-1")).
Proof.
  split; [reflexivity|].
  exact (do_build_unencodable cached_env "v16.1.4" "v16.1.4-1" ValueError eq_refl).
Defined.

(** * main.py: the whole run *)

(** X14. [main] always builds.  Once both tags are read, a run without
    drift and without the force flag prints its three lines and builds
    all the same, with the sentinel ["0"] as project tag; a run with
    either, once the new tag is found and the marker written, builds
    with the new tag.  The marker is written before the build starts,
    and stays written if the build fails: the outcome of [main] is the
    outcome of the build. *)
Theorem main_always_builds (fuel : nat) (e : Env)
    (last_frida_tag last_project_tag : string) :
  Util.get_last_github_tag e "frida/frida" = Return last_frida_tag ->
  Util.get_last_tag e [] = Return last_project_tag ->
  (Main.needs_update last_frida_tag last_project_tag || Main.force_release e = false ->
   Main.main fuel e
   = (fst (Build.do_build e last_frida_tag Main.no_release),
      ([Print ("Last frida tag: " ++ last_frida_tag);
        Print ("Last project tag: " ++ last_project_tag);
        Print "All good!"]
         ++ snd (Build.do_build e last_frida_tag Main.no_release))%list)) /\
  (forall new_tag,
      Main.needs_update last_frida_tag last_project_tag || Main.force_release e = true ->
      Util.get_next_revision fuel e last_frida_tag = Return new_tag ->
      env_fails e (WriteFile (Main.NEW_TAG e) new_tag) = None ->
      Main.main fuel e
      = (fst (Build.do_build e last_frida_tag new_tag),
         ([Print ("Last frida tag: " ++ last_frida_tag);
           Print ("Last project tag: " ++ last_project_tag);
           Print ("Update needed to " ++ new_tag);
           Print (reason last_frida_tag last_project_tag);
           WriteFile (Main.NEW_TAG e) new_tag]
            ++ snd (Build.do_build e last_frida_tag new_tag))%list)).
Proof.
  intros Hup Hloc. unfold Main.main.
  rewrite (get_last_frida_tag_Return e _ Hup), (get_last_project_tag_Return e _ Hloc).
  split.
  - intros Hno. cbn [bind]. rewrite (release_decision_idle _ _ _ _ _ Hno).
    cbn [bind snd]. now destruct (Build.do_build e last_frida_tag Main.no_release).
  - intros new_tag Hyes Hnext Hwrite. cbn [bind].
    rewrite (release_decision_release _ _ _ _ _ Hyes), Hnext, Hwrite.
    cbn [bind snd app]. now destruct (Build.do_build e last_frida_tag new_tag).
Qed.

Lemma main_always_builds_witness :
  Util.get_last_github_tag (github_env "16.1.4" ["16.1.4-1"]) "frida/frida"
  = Return "16.1.4" /\
  Util.get_last_tag (github_env "16.1.4" ["16.1.4-1"]) [] = Return "16.1.4-1" /\
  Main.needs_update "16.1.4" "16.1.4-1"
  || Main.force_release (github_env "16.1.4" ["16.1.4-1"]) = false /\
  Main.main 1 (github_env "16.1.4" ["16.1.4-1"])
  = (fst (Build.do_build (github_env "16.1.4" ["16.1.4-1"]) "16.1.4" Main.no_release),
     ([Print ("Last frida tag: " ++ "16.1.4");
       Print ("Last project tag: " ++ "16.1.4-1");
       Print "All good!"]
        ++ snd (Build.do_build (github_env "16.1.4" ["16.1.4-1"]) "16.1.4"
                  Main.no_release))%list).
Proof.
  split; [reflexivity|]. split; [reflexivity|]. split; [reflexivity|].
  exact (proj1 (main_always_builds 1 (github_env "16.1.4" ["16.1.4-1"])
                  "16.1.4" "16.1.4-1" eq_refl eq_refl) eq_refl).
Defined.

(** * build.py: what a task downloads and places *)

Lemma bind_In_later {A B : Type} (m : M A) (k : A -> M B) a ef :
  fst m = Return a -> In ef (snd (k a)) -> In ef (snd (bind m k)).
Proof.
  destruct m as [o t]. cbn [fst]. intros -> H. cbn [bind].
  destruct (k a) as [o' t']. cbn [snd] in *. apply in_or_app. now right.
Qed.

Lemma fill_module_unfold e arch frida_tag project_tag :
  Build.fill_module e arch frida_tag project_tag
  = (say (Log arch ("Filling module for arch '" ++ arch ++ "'")) ;;
     Build.download_file e arch (release_url frida_tag arch)
       (cached_archive e frida_tag arch) ;;
     perform e (Mkdir (joinpath (Build.PATH_BUILD_TMP e) "files") false true) ;;
     Build.extract_file e arch (cached_archive e frida_tag arch)
       (staged_binary e arch)).
Proof. reflexivity. Qed.

Lemma download_file_In e thread url p ef :
  In ef (snd (Build.download_file e thread url p)) ->
  (exists line, ef = Log thread line) \/
  (env_exists e p = false /\
   exists r, requests_get_ok e url = Return r /\ ef = WriteFile p (content r)).
Proof.
  unfold Build.download_file. intros H.
  apply bind_In in H as [[<- | []] | [_ [_ H]]]; [left; now eexists|].
  destruct (env_exists e p) eqn:Ex; [destruct H|].
  apply bind_In in H as [[] | [r [Hr H]]].
  apply bind_In in H as [H | [_ [_ [<- | []]]]]; [|left; now eexists].
  apply perform_In in H. right. split; [reflexivity|]. now exists r.
Qed.

Lemma extract_file_In e thread archive dest ef :
  In ef (snd (Build.extract_file e thread archive dest)) ->
  (exists line, ef = Log thread line) \/
  (exists file_content,
      env_lzma_read e archive = inr file_content /\
      (ef = Mkdir (path_parent dest) true true \/ ef = WriteFile dest file_content)).
Proof.
  unfold Build.extract_file. intros H.
  apply bind_In in H as [[<- | []] | [_ [_ H]]]; [left; now eexists|].
  destruct (env_lzma_read e archive) as [x|file_content]; [destruct H|].
  right. exists file_content. split; [reflexivity|].
  apply bind_In in H as [H | [_ [_ H]]]; apply perform_In in H; auto.
Qed.

Lemma extract_file_Return e thread archive dest :
  fst (Build.extract_file e thread archive dest) = Return tt ->
  exists file_content,
    env_lzma_read e archive = inr file_content /\
    In (WriteFile dest file_content) (snd (Build.extract_file e thread archive dest)).
Proof.
  unfold Build.extract_file, say, perform, bind, lift.
  destruct (env_lzma_read e archive) as [x|file_content]; [discriminate|].
  destruct (env_fails e (Mkdir (path_parent dest) true true)); [discriminate|].
  destruct (env_fails e (WriteFile dest file_content)); [discriminate|].
  intros _. exists file_content. split; [reflexivity|]. cbn. auto.
Qed.

Lemma requests_get_ok_Return e url r :
  requests_get_ok e url = Return r ->
  env_http_get e url = Some r /\
  ~ (400 <= status_code r < 600)%Z.
Proof.
  unfold requests_get_ok. destruct (env_http_get e url) as [r'|]; [|discriminate].
  destruct ((400 <=? status_code r')%Z && (status_code r' <? 600)%Z) eqn:E;
    [discriminate|].
  intros H. inversion H; subst. split; [reflexivity|].
  apply andb_false_iff in E. rewrite Z.leb_gt, Z.ltb_ge in E. lia.
Qed.

(** X15. What a task downloads and places.  The task of an architecture
    writes into the download cache only when its archive is not there,
    and then what the release of that tag answered for the archive of
    that architecture, error statuses 4xx and 5xx excluded; an archive
    already in the cache is neither fetched nor written again.  What it
    places in the staging tree is what the archive in the cache
    decompresses to, and a task that returns has placed it. *)
Theorem fill_module_data_flow (e : Env) (arch frida_tag project_tag : string) :
  (forall data,
      In (WriteFile (cached_archive e frida_tag arch) data)
         (snd (Build.fill_module e arch frida_tag project_tag)) ->
      env_exists e (cached_archive e frida_tag arch) = false /\
      exists r, env_http_get e (release_url frida_tag arch) = Some r /\
                content r = data /\ ~ (400 <= status_code r < 600)%Z) /\
  (forall data,
      In (WriteFile (staged_binary e arch) data)
         (snd (Build.fill_module e arch frida_tag project_tag)) ->
      env_lzma_read e (cached_archive e frida_tag arch) = inr data) /\
  (fst (Build.fill_module e arch frida_tag project_tag) = Return tt ->
   exists data,
     env_lzma_read e (cached_archive e frida_tag arch) = inr data /\
     In (WriteFile (staged_binary e arch) data)
        (snd (Build.fill_module e arch frida_tag project_tag))).
Proof.
  rewrite fill_module_unfold.
  assert (Hin : forall ef,
             In ef (snd (say (Log arch ("Filling module for arch '" ++ arch ++ "'")) ;;
                         Build.download_file e arch (release_url frida_tag arch)
                           (cached_archive e frida_tag arch) ;;
                         perform e (Mkdir (joinpath (Build.PATH_BUILD_TMP e) "files")
                                          false true) ;;
                         Build.extract_file e arch (cached_archive e frida_tag arch)
                           (staged_binary e arch))) ->
             (exists th line, ef = Log th line) \/
             (exists p a b, ef = Mkdir p a b) \/
             (env_exists e (cached_archive e frida_tag arch) = false /\
              exists r, requests_get_ok e (release_url frida_tag arch) = Return r /\
                        ef = WriteFile (cached_archive e frida_tag arch) (content r)) \/
             (exists d, env_lzma_read e (cached_archive e frida_tag arch) = inr d /\
                        ef = WriteFile (staged_binary e arch) d)).
  { intros ef H.
    apply bind_In in H as [[<- | []] | [_ [_ H]]]; [left; eauto|].
    apply bind_In in H as [H | [_ [_ H]]].
    { apply download_file_In in H as [[line ->] | H]; [left; eauto | auto]. }
    apply bind_In in H as [H | [_ [_ H]]];
      [apply perform_In in H; right; left; eauto|].
    apply extract_file_In in H as [[line ->] | [d [Hd [-> | ->]]]];
      [left; eauto | right; left; eauto | right; right; right; eauto]. }
  split; [|split].
  - intros data H. apply Hin in H as [[th [line H]] | [[p [a [b H]]] | [H | H]]];
      try discriminate.
    + destruct H as [Hex [r [Hr H]]]. inversion H; subst. split; [exact Hex|].
      apply requests_get_ok_Return in Hr as [Hr Hs]. now exists r.
    + destruct H as [d [_ H]]. inversion H as [[Hp Hd]].
      now apply cached_not_staged in Hp.
  - intros data H. apply Hin in H as [[th [line H]] | [[p [a [b H]]] | [H | H]]];
      try discriminate.
    + destruct H as [_ [r [_ H]]]. inversion H as [[Hp Hd]].
      symmetry in Hp. now apply cached_not_staged in Hp.
    + destruct H as [d [Hd H]]. inversion H; subst. exact Hd.
  - intros H.
    apply bind_fst_Return in H as [[] [H1 H]].
    apply bind_fst_Return in H as [[] [H2 H]].
    apply bind_fst_Return in H as [[] [H3 H]].
    apply extract_file_Return in H as [data [Hd Hw]]. exists data.
    split; [exact Hd|].
    apply (bind_In_later _ _ tt); [exact H1|].
    apply (bind_In_later _ _ tt); [exact H2|].
    apply (bind_In_later _ _ tt); [exact H3|]. exact Hw.
Qed.

(** * main.py: the force flag *)

Lemma lower_char_t c : Py.lower_char c = "t"%char <-> c = "t"%char \/ c = "T"%char.
Proof.
  destruct c as [[] [] [] [] [] [] [] []]; vm_compute;
    (split; [intros H; try discriminate H; auto | intros [H | H]; now try discriminate H]).
Qed.

Lemma lower_char_r c : Py.lower_char c = "r"%char <-> c = "r"%char \/ c = "R"%char.
Proof.
  destruct c as [[] [] [] [] [] [] [] []]; vm_compute;
    (split; [intros H; try discriminate H; auto | intros [H | H]; now try discriminate H]).
Qed.

Lemma lower_char_u c : Py.lower_char c = "u"%char <-> c = "u"%char \/ c = "U"%char.
Proof.
  destruct c as [[] [] [] [] [] [] [] []]; vm_compute;
    (split; [intros H; try discriminate H; auto | intros [H | H]; now try discriminate H]).
Qed.

Lemma lower_char_e c : Py.lower_char c = "e"%char <-> c = "e"%char \/ c = "E"%char.
Proof.
  destruct c as [[] [] [] [] [] [] [] []]; vm_compute;
    (split; [intros H; try discriminate H; auto | intros [H | H]; now try discriminate H]).
Qed.

Lemma lower_true v :
  Py.lower v = "true" <->
  exists a b c d,
    v = String a (String b (String c (String d ""))) /\
    (a = "t" \/ a = "T")%char /\ (b = "r" \/ b = "R")%char /\
    (c = "u" \/ c = "U")%char /\ (d = "e" \/ d = "E")%char.
Proof.
  split.
  - intros H. destruct v as [|a [|b [|c [|d [|x v]]]]]; try discriminate H.
    cbn [Py.lower] in H. injection H as Ha Hb Hc Hd.
    exists a, b, c, d. split; [reflexivity|].
    split; [now apply lower_char_t|]. split; [now apply lower_char_r|].
    split; [now apply lower_char_u | now apply lower_char_e].
  - intros [a [b [c [d [-> [Ha [Hb [Hc Hd]]]]]]]]. cbn [Py.lower].
    apply lower_char_t in Ha. apply lower_char_r in Hb.
    apply lower_char_u in Hc. apply lower_char_e in Hd.
    now rewrite Ha, Hb, Hc, Hd.
Qed.

(** X16. The force flag.  [FORCE_RELEASE] forces a release exactly when
    it is set to the word [true], its four letters in upper or lower
    case; any other value, [1] and [yes] among them, and no value at
    all leave the flag off. *)
Theorem force_release_any_case (e : Env) :
  (Main.force_release e = true <->
   exists a b c d,
     env_getenv e "FORCE_RELEASE" = Some (String a (String b (String c (String d "")))) /\
     (a = "t" \/ a = "T")%char /\ (b = "r" \/ b = "R")%char /\
     (c = "u" \/ c = "U")%char /\ (d = "e" \/ d = "E")%char) /\
  (env_getenv e "FORCE_RELEASE" = None -> Main.force_release e = false) /\
  (env_getenv e "FORCE_RELEASE" = Some "1" -> Main.force_release e = false) /\
  (env_getenv e "FORCE_RELEASE" = Some "yes" -> Main.force_release e = false).
Proof.
  unfold Main.force_release. split; [|repeat split; now intros ->].
  destruct (env_getenv e "FORCE_RELEASE") as [v|].
  - rewrite String.eqb_eq, lower_true. split.
    + intros [a [b [c [d [-> H]]]]]. now exists a, b, c, d.
    + intros [a [b [c [d [Hv H]]]]]. inversion Hv. now exists a, b, c, d.
  - split; [discriminate|]. intros [a [b [c [d [H _]]]]]. discriminate.
Qed.

(** * util.py: one release after another *)

(** X17. Revisions go up.  If [get_next_revision] returned a new tag for
    a version tag, and the new tag is then added to the tags of the
    repository, the next call returns a later revision of the same tag:
    two releases in a row never get the same tag. *)
Theorem next_revision_increases (fuel : nat) (e e' : Env) (tags : list string)
    (current_tag new_tag : string) :
  version_tag current_tag ->
  tag_store e tags -> tag_store e' (new_tag :: tags) ->
  Util.get_next_revision fuel e current_tag = Return new_tag ->
  exists k k' : Z,
    (1 <= k < k')%Z /\
    new_tag = revision current_tag k /\
    Util.get_next_revision (S (S (List.length tags))) e' current_tag
    = Return (revision current_tag k').
Proof.
  intros Hv Hstore Hstore' Hnext.
  pose proof (version_tag_plain _ Hv) as Hp.
  pose proof (tag_key_version _ Hv) as Hk.
  destruct (first_free_exists tags current_tag) as [n [Hn Hfree]].
  unfold Util.get_next_revision in *.
  rewrite (next_revision_run e tags Hstore current_tag Hp _ n 1 fuel Hk
             ltac:(lia) Hfree) in Hnext.
  destruct (n <? fuel)%nat; [|discriminate].
  assert (Hnew : new_tag = revision current_tag (1 + Z.of_nat n)) by congruence.
  clear Hnext. subst new_tag.
  destruct (first_free_exists (revision current_tag (1 + Z.of_nat n) :: tags)
              current_tag) as [n' [Hn' Hfree']].
  exists (1 + Z.of_nat n)%Z, (1 + Z.of_nat n')%Z.
  assert (Hlt : (n < n')%nat).
  { destruct (Nat.lt_ge_cases n n') as [H | H]; [exact H|].
    destruct Hfree as [Hall _]. destruct Hfree' as [_ Hout]. elim Hout.
    destruct (Nat.eq_dec n' n) as [-> | Hne]; [now left|].
    right. apply Hall. lia. }
  split; [lia|]. split; [reflexivity|].
  rewrite (next_revision_run e' _ Hstore' current_tag Hp _ n' 1 _ Hk
             ltac:(lia) Hfree').
  cbn [List.length] in Hn'.
  destruct (Nat.ltb_spec n' (S (S (List.length tags)))); [reflexivity | lia].
Qed.

Lemma next_revision_increases_witness :
  version_tag "16.1.4" /\
  tag_store (repo_env ["16.1.4-1"]) ["16.1.4-1"] /\
  tag_store (repo_env ["16.1.4-2"; "16.1.4-1"]) ["16.1.4-2"; "16.1.4-1"] /\
  Util.get_next_revision 2 (repo_env ["16.1.4-1"]) "16.1.4" = Return "16.1.4-2" /\
  exists k k' : Z,
    (1 <= k < k')%Z /\
    "16.1.4-2" = revision "16.1.4" k /\
    Util.get_next_revision (S (S (List.length ["16.1.4-1"])))
      (repo_env ["16.1.4-2"; "16.1.4-1"]) "16.1.4"
    = Return (revision "16.1.4" k').
Proof.
  split; [exact version_tag_16_1_4|].
  split; [apply repo_env_store|]. split; [apply repo_env_store|].
  split; [reflexivity|].
  exact (next_revision_increases 2 (repo_env ["16.1.4-1"])
           (repo_env ["16.1.4-2"; "16.1.4-1"]) ["16.1.4-1"] "16.1.4" "16.1.4-2"
           version_tag_16_1_4 (repo_env_store _) (repo_env_store _) eq_refl).
Defined.
